(** * GCP billing bot: the aggregation and table-rendering engine of [main.py]

    A shallow embedding of [build_table] and [get_gcp_cost] and the
    properties of the cost report they produce.

    Conventions of the embedding.
    - A Python [str] is a [string]; [len], slicing, [ljust], [rjust], [join]
      and [split] work character by character.  A character is an [ascii],
      so the strings covered are those of code points below 256.
    - A Python [float] is an IEEE-754 binary64 value, [spec_float] with
      [prec = 53] and [emax = 1024]; arithmetic rounds to nearest even.
    - A raised exception is the [Raise] case of [result]; it carries the text
      that [str(e)] would give.
    - A [dict] is an association list in insertion order, which is the order in
      which [items()] enumerates it.
    - The message sink and the data source are the environment: the data
      source is an outcome value, the sink an oracle from the calls made so
      far and the current call to what the call does.  The entry point is
      embedded twice.  [get_gcp_cost] has the sink whose calls all return, a
      timestamp or [None]; [Raising.get_gcp_cost] has the sink whose calls
      can also raise, as [send_slack_message] does on an answer of
      [conversations.open] without a channel id, and follows the exception
      through the [try] blocks.  The two agree on every sink that returns
      ([returning_sink_run]). *)

From Stdlib Require Import List String Ascii Bool Arith ZArith Lia.
From Stdlib Require Import Permutation Sorted DecimalString.
From Stdlib Require Import Floats.SpecFloat.
Import ListNotations.

Local Open Scope string_scope.
Local Open Scope list_scope.

(** String concatenation, Python's [+] on [str]; [++] is kept for lists. *)
Infix "^^" := String.append (at level 60, right associativity).

(* ================================================================== *)
(** * Part I: definitions *)
(* ================================================================== *)

(** ** Exceptions *)

Inductive result (A : Type) : Type :=
| Ok (a : A)
| Raise (msg : string).
Arguments Ok {A} a.
Arguments Raise {A} msg.

Definition bind {A B} (m : result A) (k : A -> result B) : result B :=
  match m with
  | Ok a => k a
  | Raise e => Raise e
  end.

Declare Scope result_scope.
Delimit Scope result_scope with result.
Notation "x <- m ;; k" := (bind m (fun x => k))
  (at level 61, m at next level, right associativity) : result_scope.
Notation "' p <- m ;; k" := (bind m (fun x => match x with p => k end))
  (at level 61, p pattern, m at next level, right associativity) : result_scope.
Local Open Scope result_scope.

(** A comprehension or a [for] loop whose body can raise. *)
Fixpoint mapM {A B} (f : A -> result B) (l : list A) : result (list B) :=
  match l with
  | [] => Ok []
  | x :: t => y <- f x ;; ys <- mapM f t ;; Ok (y :: ys)
  end.

(** [enumerate(l)] *)
Fixpoint enumerate_from {A} (i : nat) (l : list A) : list (nat * A) :=
  match l with
  | [] => []
  | x :: t => (i, x) :: enumerate_from (S i) t
  end.

Definition enumerate {A} (l : list A) : list (nat * A) := enumerate_from 0 l.

(** ** Strings *)

Definition nl : string := String (ascii_of_nat 10) EmptyString.

(** [c * n] for a one-character string *)
Fixpoint str_repeat (c : ascii) (n : nat) : string :=
  match n with
  | O => EmptyString
  | S k => String c (str_repeat c k)
  end.

(** [s.ljust(w)] and [s.rjust(w)], padding with spaces *)
Definition ljust (s : string) (w : nat) : string :=
  s ^^ str_repeat " "%char (w - String.length s).

Definition rjust (s : string) (w : nat) : string :=
  str_repeat " "%char (w - String.length s) ^^ s.

(** [sep.join(l)] *)
Fixpoint join (sep : string) (l : list string) : string :=
  match l with
  | [] => EmptyString
  | [s] => s
  | s :: t => s ^^ sep ^^ join sep t
  end.

(** [s.split("\n")]: the pieces between the newlines, at least one piece. *)
Fixpoint split_nl (s : string) : list string :=
  match s with
  | EmptyString => [EmptyString]
  | String c t =>
      if Ascii.eqb c (ascii_of_nat 10) then EmptyString :: split_nl t
      else match split_nl t with
           | [] => [String c EmptyString]
           | p :: ps => String c p :: ps
           end
  end.

(** [s[:n]] *)
Fixpoint str_take (n : nat) (s : string) : string :=
  match n, s with
  | S k, String c t => String c (str_take k t)
  | _, _ => EmptyString
  end.

(** [str(z)] for an [int] *)
Definition str_of_int (z : Z) : string := NilZero.string_of_int (Z.to_int z).

(** ** The table renderer, [build_table] *)

(** A row is a tuple of strings. *)
Definition row := list string.

Definition max_lines : nat := 34.
Definition header_lines : nat := 2.
Definition footer_lines : nat := 2.
Definition max_data_rows : nat := max_lines - header_lines - footer_lines.

(** [row[i]] on a tuple *)
Definition tuple_get (r : row) (i : nat) : result string :=
  match nth_error r i with
  | Some s => Ok s
  | None => Raise "tuple index out of range"
  end.

(** [l[i]] on a list *)
Definition list_get {A} (l : list A) (i : nat) : result A :=
  match nth_error l i with
  | Some x => Ok x
  | None => Raise "list index out of range"
  end.

(** [max(a, *l)] *)
Definition max_of (a : nat) (l : list nat) : nat := fold_left Nat.max l a.

(** The body of the loop that computes the widths: it looks at [rows] as the
    caller passed it, before any row is dropped. *)
Definition col_width (rows : list row) (i : nat) (col : string) : result nat :=
  match rows with
  | [] => Ok (String.length col)
  | _ =>
      cells <- mapM (fun r => tuple_get r i) rows ;;
      Ok (max_of (String.length col) (map String.length cells))
  end.

Definition col_widths_of (header_names : list string) (rows : list row)
  : result (list nat) :=
  mapM (fun ic => col_width rows (fst ic) (snd ic)) (enumerate header_names).

Definition header_line_of (header_names : list string) (col_widths : list nat)
  : result string :=
  cells <- mapM (fun ic => w <- list_get col_widths (fst ic) ;; Ok (ljust (snd ic) w))
                (enumerate header_names) ;;
  Ok (join "  " cells).

Definition separator_of (col_widths : list nat) : string :=
  str_repeat "-"%char
    (Z.to_nat (Z.of_nat (list_sum col_widths)
               + 2 * (Z.of_nat (List.length col_widths) - 1))).

Definition data_line (col_widths : list nat) (r : row) : result string :=
  cells <- mapM (fun ic =>
                   w <- list_get col_widths (fst ic) ;;
                   Ok (match fst ic with
                       | O => ljust (snd ic) w
                       | S _ => rjust (snd ic) w
                       end))
                (enumerate r) ;;
  Ok (join "  " cells).

Definition overall_line_of (header_names : list string) (col_widths : list nat)
  (overall_label overall_cost overall_delta : string) : result string :=
  w0 <- list_get col_widths 0 ;;
  w1 <- list_get col_widths 1 ;;
  let overall_line := ljust overall_label w0 ^^ "  " ^^ rjust overall_cost w1 in
  if (2 <? List.length header_names)%nat then
    w2 <- list_get col_widths 2 ;;
    Ok (overall_line ^^ "  " ^^ rjust overall_delta w2)
  else Ok overall_line.

(** [rows[:max_data_rows]] when there are too many rows *)
Definition kept_rows (rows : list row) : list row :=
  if (max_data_rows <? List.length rows)%nat then firstn max_data_rows rows else rows.

(** [table_lines] as it stands at the [return] of [build_table]. *)
Definition table_lines (header_names : list string) (rows : list row)
  (overall_label overall_cost overall_delta : string) : result (list string) :=
  col_widths <- col_widths_of header_names rows ;;
  header_line <- header_line_of header_names col_widths ;;
  let separator := separator_of col_widths in
  let table_lines := [header_line; separator] in
  let rows := kept_rows rows in
  data <- mapM (data_line col_widths) rows ;;
  let table_lines := table_lines ++ data in
  overall_line <- overall_line_of header_names col_widths
                    overall_label overall_cost overall_delta ;;
  let table_lines := table_lines ++ [separator] in
  let table_lines := table_lines ++ [overall_line] in
  let table_lines :=
    if (max_lines <? List.length table_lines)%nat then firstn max_lines table_lines
    else table_lines in
  Ok table_lines.

Definition build_table (header_names : list string) (rows : list row)
  (overall_label overall_cost overall_delta : string) : result string :=
  lines <- table_lines header_names rows overall_label overall_cost overall_delta ;;
  Ok (join nl lines).

Definition demo_rows : list row :=
  [ ["Compute Engine"; "120.00"; "20%"]; ["Storage"; "30.00"; "N/A"] ].

Definition demo_table : result string :=
  build_table ["SKU"; "Cost"; "Delta"] demo_rows "OVERALL" "150.00" "50%".


(** ** Python floats

    [float] is binary64.  The operations below are the ones [get_gcp_cost]
    uses: [+], [-], [*], [/], [>], [<], truthiness, [round], [int],
    [f"{x:.2f}"] and [float(s)]. *)

Definition float : Type := spec_float.
Definition prec : Z := 53.
Definition emax : Z := 1024.

(** An [int] operand of a float operation is converted first. *)
Definition float_of_int (z : Z) : float := binary_normalize prec emax z 0 false.

Definition fadd (x y : float) : float := SFadd prec emax x y.
Definition fsub (x y : float) : float := SFsub prec emax x y.
Definition fmul (x y : float) : float := SFmul prec emax x y.
Definition flt (x y : float) : bool := SFltb x y.
Definition fgt (x y : float) : bool := SFltb y x.
Definition feq (x y : float) : bool := SFeqb x y.

Definition py_truediv (x y : float) : result float :=
  match y with
  | S754_zero _ => Raise "float division by zero"
  | _ => Ok (SFdiv prec emax x y)
  end.

(** [bool(x)]: every float but the two zeros is true. *)
Definition truthy (x : float) : bool :=
  match x with
  | S754_zero _ => false
  | _ => true
  end.

(** [n / d] rounded to the nearest integer, ties to even ([0 <= n], [0 < d]). *)
Definition round_half_even_div (n d : Z) : Z :=
  let q := (n / d)%Z in
  let r := (n mod d)%Z in
  match (2 * r ?= d)%Z with
  | Lt => q
  | Gt => (q + 1)%Z
  | Eq => if Z.even q then q else (q + 1)%Z
  end.

(** [k * m * 2^e] rounded to the nearest integer, ties to even. *)
Definition scaled_round (k : Z) (m : positive) (e : Z) : Z :=
  match e with
  | Zneg p => round_half_even_div (k * Zpos m) (2 ^ Zpos p)
  | _ => (k * Zpos m * 2 ^ e)%Z
  end.

(** [round(x)] with one argument: an [int], ties to even. *)
Definition py_round (x : float) : result Z :=
  match x with
  | S754_nan => Raise "cannot convert float NaN to integer"
  | S754_infinity _ => Raise "cannot convert float infinity to integer"
  | S754_zero _ => Ok 0%Z
  | S754_finite s m e => Ok (cond_Zopp s (scaled_round 1 m e))
  end.

(** [int(x)]: truncation towards zero. *)
Definition py_int (x : float) : result Z :=
  match x with
  | S754_nan => Raise "cannot convert float NaN to integer"
  | S754_infinity _ => Raise "cannot convert float infinity to integer"
  | S754_zero _ => Ok 0%Z
  | S754_finite s m e =>
      Ok (cond_Zopp s (match e with
                       | Zneg p => (Zpos m / 2 ^ Zpos p)%Z
                       | _ => (Zpos m * 2 ^ e)%Z
                       end))
  end.

Definition two_digits (n : Z) : string :=
  (if (n <? 10)%Z then "0" else "") ^^ str_of_int n.

(** [f"{x:.2f}"]: the exact value rounded to hundredths, ties to even. *)
Definition fmt2 (x : float) : string :=
  match x with
  | S754_nan => "nan"
  | S754_infinity s => if s then "-inf" else "inf"
  | S754_zero s => (if s then "-" else "") ^^ "0.00"
  | S754_finite s m e =>
      let c := scaled_round 100 m e in
      (if s then "-" else "") ^^ str_of_int (c / 100) ^^ "." ^^ two_digits (c mod 100)
  end.

Definition digit_of (c : ascii) : option Z :=
  let n := nat_of_ascii c in
  if ((48 <=? n) && (n <=? 57))%nat then Some (Z.of_nat (n - 48)) else None.

(** Reads the leading digits of [s] on top of [acc]; returns the number, how
    many digits were read and the rest of the string. *)
Fixpoint read_digits (s : string) (acc : Z) (n : nat) : Z * nat * string :=
  match s with
  | String c t =>
      match digit_of c with
      | Some d => read_digits t (10 * acc + d)%Z (S n)
      | None => (acc, n, s)
      end
  | EmptyString => (acc, n, s)
  end.

(** The binary64 value nearest to [num / den] ([0 <= num], [0 < den]). *)
Definition float_of_ratio (sign : bool) (num den : Z) : float :=
  match num with
  | Z0 => S754_zero sign
  | _ =>
      let '(q, e, l) := SFdiv_core_binary prec emax num 0 den 0 in
      binary_round_aux prec emax sign q e l
  end.

(** [float(s)] on the strings that [f"{x:.2f}"] produces: an optional sign,
    then [inf], [nan] or digits with an optional fraction.  Any other string
    raises here; [get_gcp_cost] passes no other string. *)
Definition py_float (s : string) : result float :=
  let bad := Raise ("could not convert string to float: '" ^^ s ^^ "'") in
  let '(sign, body) :=
    match s with
    | String "-"%char t => (true, t)
    | _ => (false, s)
    end in
  if String.eqb body "inf" then Ok (S754_infinity sign)
  else if String.eqb body "nan" then Ok S754_nan
  else
    let '(ip, n1, rest) := read_digits body 0 0 in
    match rest with
    | EmptyString =>
        if (n1 =? 0)%nat then bad else Ok (float_of_ratio sign ip 1)
    | String "."%char t =>
        let '(fp, n2, rest2) := read_digits t ip 0 in
        match rest2 with
        | EmptyString =>
            if (n1 + n2 =? 0)%nat then bad
            else Ok (float_of_ratio sign fp (10 ^ Z.of_nat n2))
        | _ => bad
        end
    | _ => bad
    end.

(** ** [sorted(l, key=..., reverse=True)]

    The keys are computed first; the sort is stable and compares keys with
    [<] only.  It is written here as a stable insertion sort, which gives
    the list CPython gives whenever [<] orders the keys (no NaN among them):
    a stable sort has one result. *)

Fixpoint insert_desc {A} (k : float) (x : A) (l : list (float * A))
  : list (float * A) :=
  match l with
  | [] => [(k, x)]
  | (k', y) :: t =>
      if flt k k' then (k', y) :: insert_desc k x t else (k, x) :: l
  end.

Definition sort_keyed_desc {A} (l : list (float * A)) : list (float * A) :=
  fold_right (fun kx acc => insert_desc (fst kx) (snd kx) acc) [] l.

Definition sorted_desc {A} (key : A -> float) (l : list A) : list A :=
  map snd (sort_keyed_desc (map (fun x => (key x, x)) l)).

(** The same with a key that can raise. *)
Definition sorted_desc_r {A} (key : A -> result float) (l : list A)
  : result (list A) :=
  keyed <- mapM (fun x => k <- key x ;; Ok (k, x)) l ;;
  Ok (map snd (sort_keyed_desc keyed)).

(** ** Dictionaries with string keys *)

Definition dict (V : Type) : Type := list (string * V).

Fixpoint dict_get {V} (k : string) (d : dict V) : option V :=
  match d with
  | [] => None
  | (k', v) :: t => if String.eqb k k' then Some v else dict_get k t
  end.

(** [k in d] *)
Definition dict_mem {V} (k : string) (d : dict V) : bool :=
  match dict_get k d with
  | Some _ => true
  | None => false
  end.

(** [if k not in d: d[k] = v]: a new key goes last. *)
Definition dict_setdefault {V} (k : string) (v : V) (d : dict V) : dict V :=
  if dict_mem k d then d else d ++ [(k, v)].

(** An in-place change of [d[k]]; every use follows [dict_setdefault]. *)
Fixpoint dict_update {V} (k : string) (f : V -> V) (d : dict V) : dict V :=
  match d with
  | [] => []
  | (k', v) :: t =>
      if String.eqb k k' then (k', f v) :: t else (k', v) :: dict_update k f t
  end.

(** ** The data source and the message sink *)

(** One row of the query result.  The two names are strings and today's
    cost is a float, as the query returns them for a billed project; the
    previous cost and the delta are [None] when the join finds no row of the
    day before. *)
Record BillingRow := {
  project_id : string;
  service_name : string;
  yesterday_cost : float;
  day_before_cost : option float;
  delta_percentage : option float
}.

(** What [client.query(query)], [query_job.result()] and the iteration over
    the result do: the query raises, or the rows arrive and the iteration may
    raise after the last row delivered. *)
Inductive QueryOutcome :=
| QueryRaises (msg : string)
| QueryRows (rs : list BillingRow) (iter_error : option string).

Inductive Block :=
| ContextBlock (text : string)
| SectionBlock (text : string)
| HeaderBlock (text : string).

(** One call of [send_slack_message]. *)
Record SendCall := {
  blocks : list Block;
  fallback_text : string;
  thread_ts : option string
}.

(** The sink answers a call with the message timestamp, or with [None] when
    the send failed; the answer may depend on the calls made before.  This
    is [send_slack_message] on the calls that return; the call that raises
    is in [Raising] below. *)
Definition Sink : Type := list SendCall -> SendCall -> option string.

Definition send_slack_message (sink : Sink) (call : SendCall)
  (trace : list SendCall) : option string * list SendCall :=
  (sink trace call, trace ++ [call]).

Record Env := {
  SEND_PROJECT_BREAKDOWN : bool;
  SEND_THREAD_DETAILS : bool;
  cost_date : string;
  credentials : result unit;
  query : QueryOutcome;
  sink : Sink
}.

(** ** Data aggregation: the loop over the result *)

Record ProjectData := {
  rows : list row;
  total_yesterday : float;
  total_day_before : float
}.

Record SkuVals := {
  yesterday : float;
  day_before : float
}.

Record ProjectTotals := {
  pt_total_yesterday : float;
  pt_total_day_before : float
}.

Record AggState := {
  overall_total_yesterday : float;
  overall_total_day_before : float;
  projects : dict ProjectData;
  sku_agg : dict SkuVals;
  project_totals : dict ProjectTotals
}.

Definition agg_init : AggState := {|
  overall_total_yesterday := float_of_int 0;
  overall_total_day_before := float_of_int 0;
  projects := [];
  sku_agg := [];
  project_totals := []
|}.

(** [(x or 0)]: [None] and the zeros give the int [0], which the addition
    converts to [0.0]. *)
Definition or_zero (o : option float) : float :=
  match o with
  | Some x => if truthy x then x else float_of_int 0
  | None => float_of_int 0
  end.

(** [service_name[:45]] *)
Definition service_key (r : BillingRow) : string := str_take 45 (service_name r).

(** ["N/A" if r.delta_percentage is None else f"{int(r.delta_percentage)}%"] *)
Definition record_delta_str (r : BillingRow) : result string :=
  match delta_percentage r with
  | None => Ok "N/A"
  | Some d => z <- py_int d ;; Ok (str_of_int z ^^ "%")
  end.

Definition agg_step (st : AggState) (r : BillingRow) : result AggState :=
  let project := project_id r in
  let overall_y := fadd (overall_total_yesterday st) (yesterday_cost r) in
  let overall_d := fadd (overall_total_day_before st) (or_zero (day_before_cost r)) in
  let projects1 :=
    dict_setdefault project
      {| rows := []; total_yesterday := float_of_int 0;
         total_day_before := float_of_int 0 |} (projects st) in
  let service := service_key r in
  let cost := yesterday_cost r in
  let cost_str := fmt2 cost in
  delta_str <- record_delta_str r ;;
  let projects2 :=
    dict_update project
      (fun d => {| rows := rows d ++ [[service; cost_str; delta_str]];
                   total_yesterday := fadd (total_yesterday d) cost;
                   total_day_before :=
                     fadd (total_day_before d) (or_zero (day_before_cost r)) |})
      projects1 in
  let sku_agg1 :=
    dict_setdefault service
      {| yesterday := float_of_int 0; day_before := float_of_int 0 |} (sku_agg st) in
  let sku_agg2 :=
    dict_update service
      (fun v => {| yesterday := fadd (yesterday v) cost;
                   day_before := fadd (day_before v) (or_zero (day_before_cost r)) |})
      sku_agg1 in
  let project_totals1 :=
    dict_setdefault project
      {| pt_total_yesterday := float_of_int 0;
         pt_total_day_before := float_of_int 0 |} (project_totals st) in
  let project_totals2 :=
    dict_update project
      (fun t => {| pt_total_yesterday := fadd (pt_total_yesterday t) cost;
                   pt_total_day_before :=
                     fadd (pt_total_day_before t) (or_zero (day_before_cost r)) |})
      project_totals1 in
  Ok {| overall_total_yesterday := overall_y;
        overall_total_day_before := overall_d;
        projects := projects2;
        sku_agg := sku_agg2;
        project_totals := project_totals2 |}.

Fixpoint agg_loop (st : AggState) (rs : list BillingRow) : result AggState :=
  match rs with
  | [] => Ok st
  | r :: t => st' <- agg_step st r ;; agg_loop st' t
  end.

(** From [client.query(query)] to the end of the [for] loop. *)
Definition aggregate (q : QueryOutcome) : result AggState :=
  match q with
  | QueryRaises msg => Raise msg
  | QueryRows rs iter_error =>
      st <- agg_loop agg_init rs ;;
      match iter_error with
      | Some msg => Raise msg
      | None => Ok st
      end
  end.

(** ** The tables *)

(** The delta of an aggregate, written out five times in the source (SKU rows,
    the two OVERALL rows, project rows, the TOTAL of a thread message):
    [round((y - d) / d * 100)] followed by [%] when [d > 0], else [N/A]. *)
Definition delta_of_totals (y d : float) : result string :=
  if fgt d (float_of_int 0) then
    q <- py_truediv (fsub y d) d ;;
    delta <- py_round (fmul q (float_of_int 100)) ;;
    Ok (str_of_int delta ^^ "%")
  else Ok "N/A".

Definition sorted_sku (st : AggState) : list (string * SkuVals) :=
  sorted_desc (fun item => yesterday (snd item)) (sku_agg st).

Definition sku_row (item : string * SkuVals) : result row :=
  let cost_str := fmt2 (yesterday (snd item)) in
  delta_str <- delta_of_totals (yesterday (snd item)) (day_before (snd item)) ;;
  Ok [fst item; cost_str; delta_str].

Definition sku_rows (st : AggState) : result (list row) :=
  mapM sku_row (sorted_sku st).

Definition overall_cost_str (st : AggState) : string :=
  fmt2 (overall_total_yesterday st).

Definition overall_delta_str (st : AggState) : result string :=
  delta_of_totals (overall_total_yesterday st) (overall_total_day_before st).

Definition sku_table_text (st : AggState) : result string :=
  rs <- sku_rows st ;;
  overall_sku_delta_str <- overall_delta_str st ;;
  build_table ["SKU"; "Cost"; "Delta"] rs "OVERALL" (overall_cost_str st)
    overall_sku_delta_str.

Definition sorted_projects (st : AggState) : list (string * ProjectTotals) :=
  sorted_desc (fun item => pt_total_yesterday (snd item)) (project_totals st).

Definition project_row (item : string * ProjectTotals) : result row :=
  let cost_str := fmt2 (pt_total_yesterday (snd item)) in
  delta_str <- delta_of_totals (pt_total_yesterday (snd item))
                 (pt_total_day_before (snd item)) ;;
  Ok [fst item; cost_str; delta_str].

Definition project_rows (st : AggState) : result (list row) :=
  mapM project_row (sorted_projects st).

Definition project_table_text_full (st : AggState) : result string :=
  rs <- project_rows st ;;
  overall_proj_delta_str <- overall_delta_str st ;;
  build_table ["Project"; "Cost"; "Delta"] rs "OVERALL" (overall_cost_str st)
    overall_proj_delta_str.

(** [l[:-2]] *)
Definition drop_last2 {A} (l : list A) : list A := firstn (List.length l - 2) l.

(** The full project table without its last two lines. *)
Definition project_table_text (st : AggState) : result string :=
  full <- project_table_text_full st ;;
  let lines := split_nl full in
  if (2 <=? List.length lines)%nat then Ok (join nl (drop_last2 lines))
  else Ok full.

Definition code_block (text : string) : Block :=
  SectionBlock ("```" ^^ nl ^^ text ^^ nl ^^ "```").

Definition date_block (e : Env) : Block := ContextBlock ("*Date:* " ^^ cost_date e).

Definition main_blocks (e : Env) (st : AggState) : result (list Block) :=
  sku_text <- sku_table_text st ;;
  proj_text <- project_table_text st ;;
  let main_block1 := code_block sku_text in
  let main_blocks := [date_block e; main_block1] in
  if SEND_PROJECT_BREAKDOWN e then Ok (main_blocks ++ [code_block proj_text])
  else Ok main_blocks.

Definition default_fallback : string := "GCP Cost Report".

(** ** Thread messages *)

Definition sorted_projects_by_cost (st : AggState) : list (string * ProjectData) :=
  sorted_desc (fun item => total_yesterday (snd item)) (projects st).

(** [sorted(rows, key=lambda r: float(r[1]), reverse=True)] *)
Definition proj_rows_of (data : ProjectData) : result (list row) :=
  sorted_desc_r (fun r => c <- tuple_get r 1 ;; py_float c) (rows data).

Definition proj_table_lines (data : ProjectData) : result (list string) :=
  proj_delta_str <- delta_of_totals (total_yesterday data) (total_day_before data) ;;
  proj_rows <- proj_rows_of data ;;
  let total_str := fmt2 (total_yesterday data) in
  table_lines ["SKU"; "Cost"; "Delta"] proj_rows "TOTAL" total_str proj_delta_str.

Definition proj_table_text (data : ProjectData) : result string :=
  proj_delta_str <- delta_of_totals (total_yesterday data) (total_day_before data) ;;
  proj_rows <- proj_rows_of data ;;
  let total_str := fmt2 (total_yesterday data) in
  build_table ["SKU"; "Cost"; "Delta"] proj_rows "TOTAL" total_str proj_delta_str.

Definition thread_blocks (item : string * ProjectData) : result (list Block) :=
  text <- proj_table_text (snd item) ;;
  Ok [HeaderBlock ("Project: " ^^ fst item); code_block text].

Fixpoint thread_loop (sink : Sink) (main_ts : option string)
  (items : list (string * ProjectData)) (trace : list SendCall)
  : result unit * list SendCall :=
  match items with
  | [] => (Ok tt, trace)
  | item :: t =>
      match thread_blocks item with
      | Raise msg => (Raise msg, trace)
      | Ok bs =>
          let '(_, trace1) :=
            send_slack_message sink
              {| blocks := bs; fallback_text := default_fallback;
                 thread_ts := main_ts |} trace in
          thread_loop sink main_ts t trace1
      end
  end.

(** ** The entry point *)

(** The second [try] block of [get_gcp_cost]. *)
Definition report (e : Env) (trace : list SendCall) : result unit * list SendCall :=
  match (st <- aggregate (query e) ;; bs <- main_blocks e st ;; Ok (st, bs)) with
  | Raise msg => (Raise msg, trace)
  | Ok (st, bs) =>
      let '(main_ts, trace1) :=
        send_slack_message (sink e)
          {| blocks := bs; fallback_text := default_fallback; thread_ts := None |}
          trace in
      if SEND_THREAD_DETAILS e then
        thread_loop (sink e) main_ts (sorted_projects_by_cost st) trace1
      else (Ok tt, trace1)
  end.

Definition error_call (err_msg : string) : SendCall :=
  {| blocks := [SectionBlock err_msg]; fallback_text := err_msg; thread_ts := None |}.

(** [get_gcp_cost(request)]: the returned status and the calls made to the
    sink, in order. *)
Definition get_gcp_cost (e : Env) : string * list SendCall :=
  match credentials e with
  | Raise msg =>
      let err_msg := "Error authorizing with BigQuery: " ^^ msg in
      let '(_, trace) := send_slack_message (sink e) (error_call err_msg) [] in
      ("Error", trace)
  | Ok _ =>
      match report e [] with
      | (Ok _, trace) => ("Success", trace)
      | (Raise msg, trace) =>
          let err_msg := "Error executing BigQuery query: " ^^ msg in
          let '(_, trace1) := send_slack_message (sink e) (error_call err_msg) trace in
          ("Error", trace1)
      end
  end.

(** ** Sample inputs *)

(** The headers all three tables of the report use the same three columns. *)
Definition sku_headers : list string := ["SKU"; "Cost"; "Delta"].

(** [n] rows [svc<i>, 1.00, N/A]. *)
Definition numbered_rows (n : nat) : list row :=
  map (fun i => ["svc" ^^ str_of_int (Z.of_nat i); "1.00"; "N/A"]) (seq 0 n).

(** Thirty short rows followed by one row with a long label. *)
Definition rows_with_long_tail : list row :=
  numbered_rows 30 ++ [["a service name that is dropped"; "0.50"; "N/A"]].

(** The same thirty rows followed by a short row. *)
Definition rows_with_short_tail : list row :=
  numbered_rows 30 ++ [["z"; "0.50"; "N/A"]].

(** Extracts the value of a computation that is known not to raise. *)
Definition value_or {A} (default : A) (m : result A) : A :=
  match m with
  | Ok a => a
  | Raise _ => default
  end.

Definition demo_lines : list string :=
  Eval vm_compute in
    value_or [] (table_lines sku_headers demo_rows "OVERALL" "150.00" "50%").

Definition capped_lines : list string :=
  Eval vm_compute in
    value_or [] (table_lines sku_headers (numbered_rows 35) "TOTAL" "35.00" "N/A").

(** ** Shapes used in the statements *)

(** The string has no newline in it. *)
Fixpoint no_newline (s : string) : bool :=
  match s with
  | EmptyString => true
  | String c t => negb (Ascii.eqb c (ascii_of_nat 10)) && no_newline t
  end.

(** The table arguments on which [build_table] does not raise: two columns or
    more and every row as long as the header. *)
Definition well_formed_table (header_names : list string) (rows : list row) : Prop :=
  2 <= List.length header_names /\
  Forall (fun r => List.length r = List.length header_names) rows.

(** The width of column [i] taken over a given list of rows: the larger of
    the header label length and the longest cell. *)
Definition width_over (rows : list row) (i : nat) (col : string) : nat :=
  fold_right Nat.max (String.length col)
    (map (fun r => String.length (nth i r "")) rows).

Definition widths_over (header_names : list string) (rows : list row) : list nat :=
  map (fun ic => width_over rows (fst ic) (snd ic)) (enumerate header_names).

(** ** Costs and totals *)

Definition is_nan (x : float) : bool :=
  match x with
  | S754_nan => true
  | _ => false
  end.

Definition is_zero (x : float) : bool := negb (truthy x).

(** [x <= y] *)
Definition fle (x y : float) : bool := SFleb x y.

(** A cost that is a number and is not negative: a zero, a positive finite
    value or the positive infinity. *)
Definition nonneg (x : float) : bool :=
  match x with
  | S754_nan => false
  | S754_zero _ => true
  | S754_infinity s => negb s
  | S754_finite s _ _ => negb s
  end.

(** Both costs of a row are non-negative; the previous one may be absent. *)
Definition nonneg_costs (r : BillingRow) : bool :=
  nonneg (yesterday_cost r) &&
  match day_before_cost r with
  | Some d => nonneg d
  | None => true
  end.

(** The running sum the loop keeps: from [0.0], adding in input order. *)
Definition sum_floats (l : list float) : float :=
  fold_left fadd l (float_of_int 0).

Definition today_total (rs : list BillingRow) : float :=
  sum_floats (map yesterday_cost rs).

Definition previous_total (rs : list BillingRow) : float :=
  sum_floats (map (fun r => or_zero (day_before_cost r)) rs).

(** The rows of one service after truncation, and of one project. *)
Definition of_service (k : string) (rs : list BillingRow) : list BillingRow :=
  filter (fun r => String.eqb k (service_key r)) rs.

Definition of_project (p : string) (rs : list BillingRow) : list BillingRow :=
  filter (fun r => String.eqb p (project_id r)) rs.

(** The keys of a list in the order in which each is seen first. *)
Fixpoint first_seen (l : list string) : list string :=
  match l with
  | [] => []
  | k :: t => k :: filter (fun k' => negb (String.eqb k' k)) (first_seen t)
  end.

(** The detail row that the loop appends for a record. *)
Definition detail_row (r : BillingRow) : result row :=
  delta_str <- record_delta_str r ;;
  Ok [service_key r; fmt2 (yesterday_cost r); delta_str].

(** ** The loop, dictionary by dictionary

    [agg_step] does the same to each of its three dictionaries: create the
    entry of a key when it is new, then update it. *)

Definition accumulate {R V} (key : R -> string) (init : V) (upd : R -> V -> V)
  (d : dict V) (r : R) : dict V :=
  dict_update (key r) (upd r) (dict_setdefault (key r) init d).

Definition delta_str_of (r : BillingRow) : string := value_or "" (record_delta_str r).

Definition projects_init : ProjectData :=
  {| rows := []; total_yesterday := float_of_int 0; total_day_before := float_of_int 0 |}.

Definition projects_upd (r : BillingRow) (d : ProjectData) : ProjectData :=
  {| rows := rows d ++ [[service_key r; fmt2 (yesterday_cost r); delta_str_of r]];
     total_yesterday := fadd (total_yesterday d) (yesterday_cost r);
     total_day_before := fadd (total_day_before d) (or_zero (day_before_cost r)) |}.

Definition sku_init : SkuVals :=
  {| yesterday := float_of_int 0; day_before := float_of_int 0 |}.

Definition sku_upd (r : BillingRow) (v : SkuVals) : SkuVals :=
  {| yesterday := fadd (yesterday v) (yesterday_cost r);
     day_before := fadd (day_before v) (or_zero (day_before_cost r)) |}.

Definition totals_init : ProjectTotals :=
  {| pt_total_yesterday := float_of_int 0; pt_total_day_before := float_of_int 0 |}.

Definition totals_upd (r : BillingRow) (t : ProjectTotals) : ProjectTotals :=
  {| pt_total_yesterday := fadd (pt_total_yesterday t) (yesterday_cost r);
     pt_total_day_before := fadd (pt_total_day_before t) (or_zero (day_before_cost r)) |}.

(** The keys a dictionary has after a run of the loop that started with the
    keys [seen]. *)
Definition keys_from (seen : list string) (l : list string) : list string :=
  fold_left (fun acc k => if existsb (String.eqb k) acc then acc else acc ++ [k]) l seen.

(** ** Order of a keyed list *)

(** [a] may stand before [b]: [a]'s key is not below [b]'s. *)
Definition not_below {A} (a b : float * A) : Prop := flt (fst a) (fst b) = false.

(** No key is NaN, so that [<] orders the keys. *)
Definition keys_ordered {A} (l : list (float * A)) : Prop :=
  Forall (fun kx => is_nan (fst kx) = false) l.

(** Every element carries its own key. *)
Definition decorated {A} (key : A -> float) (L : list (float * A)) : Prop :=
  Forall (fun kx => fst kx = key (snd kx)) L.

(** The step of the loop once the delta string of the record is known. *)
Definition agg_step_pure (st : AggState) (r : BillingRow) : AggState :=
  {| overall_total_yesterday := fadd (overall_total_yesterday st) (yesterday_cost r);
     overall_total_day_before :=
       fadd (overall_total_day_before st) (or_zero (day_before_cost r));
     projects := accumulate project_id projects_init projects_upd (projects st) r;
     sku_agg := accumulate service_key sku_init sku_upd (sku_agg st) r;
     project_totals := accumulate project_id totals_init totals_upd (project_totals st) r |}.

(** The detail row of a record whose delta converts. *)
Definition detail_row_of (r : BillingRow) : row :=
  [service_key r; fmt2 (yesterday_cost r); delta_str_of r].

(** A cost that is a finite number: not NaN, not an infinity. *)
Definition is_finite (x : float) : bool :=
  match x with
  | S754_zero _ | S754_finite _ _ _ => true
  | _ => false
  end.

(** A rounded value keeps the sign it was given and is never NaN. *)
Definition rounded_with_sign (s : bool) (x : float) : Prop :=
  x = S754_zero s \/ x = S754_infinity s \/ exists m e, x = S754_finite s m e.

(** ** The delta of an aggregate *)

(** What the delta column shows for the totals [today] and [previous]:
    [N/A] when [previous] is zero, and [round((today - previous) / previous *
    100)] followed by [%] when [previous] is greater than zero. *)
Definition aggregate_delta_shown (today previous : float) (shown : string) : Prop :=
  (is_zero previous = true -> shown = "N/A") /\
  (fgt previous (float_of_int 0) = true ->
     exists q z,
       py_truediv (fsub today previous) previous = Ok q /\
       py_round (fmul q (float_of_int 100)) = Ok z /\
       shown = str_of_int z ^^ "%").

(** The same for an aggregate of non-negative rows: its previous total is
    zero or positive, it is zero when every previous cost is absent, and the
    delta shown follows from the two totals. *)
Definition aggregate_delta_rule (contributing : list BillingRow) (shown : string) : Prop :=
  (is_zero (previous_total contributing) = true \/
   fgt (previous_total contributing) (float_of_int 0) = true) /\
  (Forall (fun r => day_before_cost r = None) contributing -> shown = "N/A") /\
  aggregate_delta_shown (today_total contributing) (previous_total contributing) shown.

(** ** Runs of the entry point used as examples *)

Definition fz (z : Z) : float := float_of_int z.

Definition billing_row (p s : string) (today : Z) (previous : option Z)
  (delta : option Z) : BillingRow :=
  {| project_id := p; service_name := s; yesterday_cost := fz today;
     day_before_cost := option_map fz previous;
     delta_percentage := option_map fz delta |}.

(** Two services of one project; the second was free the day before. *)
Definition scenario_a : list BillingRow :=
  [ billing_row "p1" "Compute Engine" 120 (Some 100%Z) (Some 20%Z);
    billing_row "p1" "Storage" 30 (Some 0%Z) None ].

(** Two projects, the cheaper one first in the input. *)
Definition two_projects : list BillingRow :=
  [ billing_row "small" "Storage" 5 (Some 4%Z) (Some 25%Z);
    billing_row "big" "Compute Engine" 120 (Some 100%Z) (Some 20%Z);
    billing_row "big" "Storage" 30 None None ].

(** Two names that differ after their 45th character only. *)
Definition long_name_1 : string :=
  "Networking Traffic Egress GCP Inter Region within Europe".
Definition long_name_2 : string :=
  "Networking Traffic Egress GCP Inter Region within Asia".

Definition long_names : list BillingRow :=
  [ billing_row "p1" long_name_1 7 (Some 5%Z) (Some 40%Z);
    billing_row "p2" "Storage" 3 None None;
    billing_row "p2" long_name_2 2 (Some 4%Z) (Some (-50)%Z) ].

(** One project with [n] services at 1.00 each. *)
Definition many_services (n : nat) : list BillingRow :=
  map (fun i => billing_row "p1" ("svc" ^^ str_of_int (Z.of_nat i)) 1 (Some 1%Z) (Some 0%Z))
      (seq 0 n).

(** A sink that accepts every message and a sink that fails every send. *)
Definition counting_sink : Sink :=
  fun trace _ => Some (str_of_int (Z.of_nat (List.length trace))).

Definition failing_sink : Sink := fun _ _ => None.

Definition env_of (breakdown details : bool) (q : QueryOutcome) (snk : Sink) : Env :=
  {| SEND_PROJECT_BREAKDOWN := breakdown; SEND_THREAD_DETAILS := details;
     cost_date := "2024-05-01"; credentials := Ok tt; query := q; sink := snk |}.

Definition state_of (rs : list BillingRow) : AggState :=
  value_or agg_init (aggregate (QueryRows rs None)).

Definition state_a : AggState := Eval vm_compute in state_of scenario_a.
Definition state_long_names : AggState := Eval vm_compute in state_of long_names.
Definition state_two_projects : AggState := Eval vm_compute in state_of two_projects.
Definition state_many : AggState := Eval vm_compute in state_of (many_services 35).

Definition rows_a : list row := Eval vm_compute in value_or [] (sku_rows state_a).
Definition rows_long_names : list row :=
  Eval vm_compute in value_or [] (sku_rows state_long_names).

Definition data_many : ProjectData :=
  Eval vm_compute in
    value_or projects_init
      (match dict_get "p1" (projects state_many) with
       | Some d => Ok d
       | None => Raise "p1"
       end).

Definition lines_many : list string :=
  Eval vm_compute in value_or [] (proj_table_lines data_many).

(** ** Shapes of a run *)

(** The data source fails: the query raises or the iteration does. *)
Definition query_fails (q : QueryOutcome) : Prop :=
  match q with
  | QueryRaises _ => True
  | QueryRows _ (Some _) => True
  | QueryRows _ None => False
  end.

(** The lines of the table a section block carries between its two fence
    lines; other blocks carry no table. *)
Definition table_of_block (b : Block) : list (list string) :=
  match b with
  | SectionBlock text =>
      let ls := split_nl text in
      [firstn (List.length ls - 2) (skipn 1 ls)]
  | _ => []
  end.

(** The tables of the messages sent, in order. *)
Definition report_tables (calls : list SendCall) : list (list string) :=
  flat_map (fun c => flat_map table_of_block (blocks c)) calls.

(** The table of an empty report: header, two separators, the summary. *)
Definition empty_sku_lines : list string :=
  ["SKU  Cost  Delta"; "----------------"; "----------------"; "OVERALL  0.00    N/A"].

Definition empty_project_lines : list string :=
  ["Project  Cost  Delta"; "--------------------"; "--------------------";
   "OVERALL  0.00    N/A"].

(** The anchor message of a run and a reply in its thread. *)
Definition anchor_call (bs : list Block) : SendCall :=
  {| blocks := bs; fallback_text := default_fallback; thread_ts := None |}.

Definition is_reply_for (main_ts : option string) (item : string * ProjectData)
  (call : SendCall) : Prop :=
  thread_blocks item = Ok (blocks call) /\
  fallback_text call = default_fallback /\
  thread_ts call = main_ts.

Definition env_iteration_fails : Env :=
  env_of true true (QueryRows scenario_a (Some "connection reset")) counting_sink.

Definition env_two_projects : Env :=
  env_of true true (QueryRows two_projects None) failing_sink.

Definition trace_two_projects : list SendCall :=
  Eval vm_compute in snd (get_gcp_cost env_two_projects).

(** The same two projects with thread details disabled, the default. *)
Definition env_details_off : Env :=
  env_of true false (QueryRows two_projects None) counting_sink.

Definition env_empty_breakdown : Env :=
  env_of true false (QueryRows [] None) counting_sink.

Definition long_row_1 : BillingRow :=
  billing_row "p1" long_name_1 7 (Some 5%Z) (Some 40%Z).

Definition long_row_2 : BillingRow :=
  billing_row "p2" long_name_2 2 (Some 4%Z) (Some (-50)%Z).

(** ** Further shapes: the renderer *)

(** The width of a table line: the columns and two spaces between them. *)
Definition table_width (col_widths : list nat) : nat :=
  list_sum col_widths + 2 * (List.length col_widths - 1).

(** The label, the cost and the delta of the summary fit their columns. *)
Definition summary_fits (col_widths : list nat) (l c d : string) : Prop :=
  String.length l <= nth 0 col_widths 0 /\
  String.length c <= nth 1 col_widths 0 /\
  String.length d <= nth 2 col_widths 0.

(** An empty table under the three headers of the report. *)
Definition empty_table_lines : list string :=
  Eval vm_compute in value_or [] (table_lines sku_headers [] "OVERALL" "0.00" "N/A").

(** A row with two cells and a row with four, for a table of three columns. *)
Definition short_row : row := ["Storage"; "30.00"].
Definition wide_row : row := ["Storage"; "30.00"; "N/A"; "extra"].

(** ** Further shapes: digits *)

(** Every character of the string is a decimal digit. *)
Fixpoint all_digits (s : string) : bool :=
  match s with
  | EmptyString => true
  | String c t =>
      match digit_of c with
      | Some _ => all_digits t
      | None => false
      end
  end.

(** ** Further shapes: thread tables and runs *)

(** The sort key of a detail row: [float(r[1])]. *)
Definition row_cost (r : row) : result float := c <- tuple_get r 1 ;; py_float c.

(** [a] may stand before [b] in a thread table: both costs parse and the
    cost of [b] is at most the cost of [a]. *)
Definition cost_not_below (a b : row) : Prop :=
  exists ka kb, row_cost a = Ok ka /\ row_cost b = Ok kb /\ fle kb ka = true.

(** The two texts an error message can start with. *)
Definition auth_error_prefix : string := "Error authorizing with BigQuery: ".
Definition query_error_prefix : string := "Error executing BigQuery query: ".

Definition data_big : ProjectData :=
  Eval vm_compute in
    value_or projects_init
      (match dict_get "big" (projects state_two_projects) with
       | Some d => Ok d
       | None => Raise "big"
       end).

(** A result whose query returned a delta that is not a finite number. *)
Definition nan_delta_rows : list BillingRow :=
  [ billing_row "p1" "Compute Engine" 120 (Some 100%Z) (Some 20%Z);
    {| project_id := "p1"; service_name := "Storage"; yesterday_cost := fz 30;
       day_before_cost := Some (fz 1); delta_percentage := Some S754_nan |} ].

Definition env_nan_delta : Env :=
  env_of true true (QueryRows nan_delta_rows None) counting_sink.

(** The headers of the project-wide table. *)
Definition project_headers : list string := ["Project"; "Cost"; "Delta"].

(** The environment with the project breakdown switched to [b]. *)
Definition with_breakdown (b : bool) (e : Env) : Env :=
  {| SEND_PROJECT_BREAKDOWN := b; SEND_THREAD_DETAILS := SEND_THREAD_DETAILS e;
     cost_date := cost_date e; credentials := credentials e; query := query e;
     sink := sink e |}.

(** The two messages with which [int] and [round] refuse a float. *)
Definition nan_to_int_error : string := "cannot convert float NaN to integer".
Definition infinity_to_int_error : string := "cannot convert float infinity to integer".

(** ** [send_slack_message] down to its two HTTP requests

    The entry point above sees the sink as an oracle.  Here the function
    itself is embedded: the Slack API is the environment, a request either
    fails with a [RequestException] (which covers a response that is not
    JSON) or answers with a JSON object, of which the function reads the
    fields below.  The result keeps what the caller gets, the requests made
    and the records logged, in order. *)

Module Http.

Inductive Response (A : Type) : Type :=
| RequestException (msg : string)
| Json (data : A).
Arguments RequestException {A} msg.
Arguments Json {A} data.

(** The answer of [conversations.open]: [ok], [error] and [channel.id]. *)
Record OpenData := {
  open_ok : bool;
  open_error : option string;
  open_channel_id : option string
}.

(** The answer of [chat.postMessage]: [ok], [error] and [ts]. *)
Record PostData := {
  post_ok : bool;
  post_error : option string;
  post_ts : option string
}.

(** The payload of [chat.postMessage]; [thread_ts] is a key of it only when
    it is not [None]. *)
Record Payload := {
  channel : string;
  payload_blocks : list Block;
  text : string;
  payload_thread_ts : option string
}.

Inductive Request :=
| OpenRequest (users : string)
| PostRequest (payload : Payload).

Inductive LogRecord :=
| LogError (msg : string)
| LogInfo (msg : string).

Record Api := {
  conversations_open : string -> Response OpenData;
  chat_postMessage : Payload -> Response PostData
}.

Record Outcome := {
  returned : result (option string);
  requests : list Request;
  logged : list LogRecord
}.

(** [f"{x}"] of the value of [d.get(key)] *)
Definition str_of_get (o : option string) : string :=
  match o with
  | Some s => s
  | None => "None"
  end.

(** The first half: the channel to post to.  A user id, which starts with
    [U], is exchanged for the id of the direct-message channel; reading
    [open_data["channel"]["id"]] raises a [KeyError] when the key is
    missing. *)
Definition resolve_channel (api : Api) (channel_id : string)
  : result string * list Request * list LogRecord :=
  if String.prefix "U" channel_id then
    match conversations_open api channel_id with
    | Json open_data =>
        if open_ok open_data then
          match open_channel_id open_data with
          | Some id => (Ok id, [OpenRequest channel_id], [])
          | None => (Raise "'channel'", [OpenRequest channel_id], [])
          end
        else
          (Ok channel_id, [OpenRequest channel_id],
           [LogError ("Error opening DM: " ^^ str_of_get (open_error open_data))])
    | RequestException e =>
        (Ok channel_id, [OpenRequest channel_id],
         [LogError ("Error calling conversations.open: " ^^ e)])
    end
  else (Ok channel_id, [], []).

Definition send_slack_message (api : Api) (blocks : list Block)
  (fallback_text : string) (thread_ts : option string) (channel_id : string)
  : Outcome :=
  match resolve_channel api channel_id with
  | (Raise msg, reqs, logs) =>
      {| returned := Raise msg; requests := reqs; logged := logs |}
  | (Ok final_channel, reqs, logs) =>
      let payload :=
        {| channel := final_channel; payload_blocks := blocks;
           text := fallback_text; payload_thread_ts := thread_ts |} in
      match chat_postMessage api payload with
      | Json response_data =>
          if negb (post_ok response_data) then
            {| returned := Ok None;
               requests := reqs ++ [PostRequest payload];
               logged := logs ++ [LogError ("Error sending message to Slack: "
                                            ^^ str_of_get (post_error response_data))] |}
          else
            {| returned := Ok (post_ts response_data);
               requests := reqs ++ [PostRequest payload];
               logged := logs ++ [LogInfo "Message successfully sent to Slack"] |}
      | RequestException e =>
          {| returned := Ok None;
             requests := reqs ++ [PostRequest payload];
             logged := logs ++ [LogError ("Error calling Slack API: " ^^ e)] |}
      end
  end.

(** Whether a record is an error. *)
Definition is_error (r : LogRecord) : bool :=
  match r with
  | LogError _ => true
  | LogInfo _ => false
  end.

(** An API that opens the channel [D42] for every user and accepts every
    message, and one whose requests all fail. *)
Definition friendly_api : Api :=
  {| conversations_open := fun _ =>
       Json {| open_ok := true; open_error := None; open_channel_id := Some "D42" |};
     chat_postMessage := fun _ =>
       Json {| post_ok := true; post_error := None; post_ts := Some "1700000000.000100" |} |}.

Definition unreachable_api : Api :=
  {| conversations_open := fun _ => RequestException "connection refused";
     chat_postMessage := fun _ => RequestException "connection refused" |}.

End Http.

(** ** The entry point when a send can raise

    [send_slack_message] catches [RequestException] only: the [KeyError] of
    [open_data["channel"]["id"]] leaves it.  Inside the second [try] of
    [get_gcp_cost] that exception is caught like any other and reported as
    a query error; raised by the send of an [except] branch, it leaves
    [get_gcp_cost].  The configuration, the credentials and the query are
    those of the environment [e]; its sink is not used, the sink is the
    argument [snk]. *)

Module Raising.

Definition Sink : Type := list SendCall -> SendCall -> result (option string).

Definition send_slack_message (snk : Sink) (call : SendCall)
  (trace : list SendCall) : result (option string) * list SendCall :=
  (snk trace call, trace ++ [call]).

Fixpoint thread_loop (snk : Sink) (main_ts : option string)
  (items : list (string * ProjectData)) (trace : list SendCall)
  : result unit * list SendCall :=
  match items with
  | [] => (Ok tt, trace)
  | item :: t =>
      match thread_blocks item with
      | Raise msg => (Raise msg, trace)
      | Ok bs =>
          match send_slack_message snk
                  {| blocks := bs; fallback_text := default_fallback;
                     thread_ts := main_ts |} trace with
          | (Raise msg, trace1) => (Raise msg, trace1)
          | (Ok _, trace1) => thread_loop snk main_ts t trace1
          end
      end
  end.

(** The second [try] block of [get_gcp_cost]. *)
Definition report (e : Env) (snk : Sink) (trace : list SendCall)
  : result unit * list SendCall :=
  match (st <- aggregate (query e) ;; bs <- main_blocks e st ;; Ok (st, bs)) with
  | Raise msg => (Raise msg, trace)
  | Ok (st, bs) =>
      match send_slack_message snk
              {| blocks := bs; fallback_text := default_fallback; thread_ts := None |}
              trace with
      | (Raise msg, trace1) => (Raise msg, trace1)
      | (Ok main_ts, trace1) =>
          if SEND_THREAD_DETAILS e then
            thread_loop snk main_ts (sorted_projects_by_cost st) trace1
          else (Ok tt, trace1)
      end
  end.

(** [get_gcp_cost(request)]: the returned status, or the exception that
    leaves the function, and the calls made to the sink, in order. *)
Definition get_gcp_cost (e : Env) (snk : Sink) : result string * list SendCall :=
  match credentials e with
  | Raise msg =>
      let err_msg := "Error authorizing with BigQuery: " ^^ msg in
      match send_slack_message snk
              {| blocks := [SectionBlock err_msg]; fallback_text := err_msg;
                 thread_ts := None |} [] with
      | (Raise m, trace) => (Raise m, trace)
      | (Ok _, trace) => (Ok "Error", trace)
      end
  | Ok _ =>
      match report e snk [] with
      | (Ok _, trace) => (Ok "Success", trace)
      | (Raise msg, trace) =>
          let err_msg := "Error executing BigQuery query: " ^^ msg in
          match send_slack_message snk
                  {| blocks := [SectionBlock err_msg]; fallback_text := err_msg;
                     thread_ts := None |} trace with
          | (Raise m, trace1) => (Raise m, trace1)
          | (Ok _, trace1) => (Ok "Error", trace1)
          end
      end
  end.

(** The sink that an API gives: [get_gcp_cost] calls [send_slack_message]
    with the channel of the configuration, and a call does what the
    function does over the API, the raise included. *)
Definition api_sink (api : Http.Api) (channel_id : string) : Sink :=
  fun _ call =>
    Http.returned
      (Http.send_slack_message api (blocks call) (fallback_text call)
         (thread_ts call) channel_id).

(** A sink whose every call returns, seen as a sink that can raise. *)
Definition returning (snk : list SendCall -> SendCall -> option string) : Sink :=
  fun trace call => Ok (snk trace call).

End Raising.

(** Every [conversations.open] of the API for this channel id, if one is
    made, gives a channel to post to or is handled: no call of
    [send_slack_message] raises. *)
Definition opens_cleanly (api : Http.Api) (channel_id : string) : Prop :=
  String.prefix "U" channel_id = true ->
  forall d, Http.conversations_open api channel_id = Http.Json d ->
            Http.open_ok d = true -> Http.open_channel_id d <> None.

(** The payloads that a call posts through the API. *)
Definition posted (api : Http.Api) (channel_id : string) (call : SendCall)
  : list Http.Payload :=
  flat_map (fun r => match r with
                     | Http.PostRequest p => [p]
                     | Http.OpenRequest _ => []
                     end)
    (Http.requests
       (Http.send_slack_message api (blocks call) (fallback_text call)
          (thread_ts call) channel_id)).

(** An API that refuses every post. *)
Definition refusing_api : Http.Api :=
  {| Http.conversations_open := fun _ =>
       Http.Json {| Http.open_ok := false; Http.open_error := Some "user_not_found";
                    Http.open_channel_id := None |};
     Http.chat_postMessage := fun _ =>
       Http.Json {| Http.post_ok := false; Http.post_error := Some "channel_not_found";
                    Http.post_ts := None |} |}.

(** An API whose [conversations.open] answers [ok] without a channel id. *)
Definition keyless_api : Http.Api :=
  {| Http.conversations_open := fun _ =>
       Http.Json {| Http.open_ok := true; Http.open_error := None;
                    Http.open_channel_id := None |};
     Http.chat_postMessage := fun _ =>
       Http.Json {| Http.post_ok := true; Http.post_error := None;
                    Http.post_ts := Some "1700000000.000100" |} |}.

Definition env_query_raises : Env :=
  env_of true true (QueryRaises "403 Access Denied") counting_sink.

Definition env_thread_details : Env :=
  env_of false true (QueryRows two_projects None) counting_sink.

(** The environment with the sink [snk]. *)
Definition with_sink (snk : Sink) (e : Env) : Env :=
  {| SEND_PROJECT_BREAKDOWN := SEND_PROJECT_BREAKDOWN e;
     SEND_THREAD_DETAILS := SEND_THREAD_DETAILS e;
     cost_date := cost_date e; credentials := credentials e; query := query e;
     sink := snk |}.

(** ** The delta that two sums give

    [N/A] unless the previous sum is greater than zero; then the quotient
    [(today - previous) / previous] times 100, rounded to an integer and
    followed by [%]. *)
Definition delta_from_sums (today previous : float) (shown : string) : Prop :=
  if fgt previous (float_of_int 0) then
    exists q z,
      py_truediv (fsub today previous) previous = Ok q /\
      py_round (fmul q (float_of_int 100)) = Ok z /\
      shown = str_of_int z ^^ "%"
  else shown = "N/A".

(** The detail rows of the second project of [two_projects]. *)
Definition data_small : ProjectData :=
  Eval vm_compute in
    value_or projects_init
      (match dict_get "small" (projects state_two_projects) with
       | Some d => Ok d
       | None => Raise "small"
       end).

Definition rows_two_projects : list row :=
  Eval vm_compute in value_or [] (sku_rows state_two_projects).

Definition project_rows_two_projects : list row :=
  Eval vm_compute in value_or [] (project_rows state_two_projects).

(** The record without the delta that the query computed for it. *)
Definition erase_delta (r : BillingRow) : BillingRow :=
  {| project_id := project_id r; service_name := service_name r;
     yesterday_cost := yesterday_cost r; day_before_cost := day_before_cost r;
     delta_percentage := None |}.

(** The delta of the record, if it has one, is a finite number: [int]
    converts it. *)
Definition delta_is_finite (r : BillingRow) : bool :=
  match delta_percentage r with
  | Some d => is_finite d
  | None => true
  end.

(** The blocks of the anchor message of [env_thread_details]. *)
Definition blocks_two_projects : list Block :=
  Eval vm_compute in value_or [] (main_blocks env_thread_details state_two_projects).

(** The calls of a run over an API that refuses every post. *)
Definition trace_posts_refused : list SendCall :=
  Eval vm_compute in
    snd (Raising.get_gcp_cost env_thread_details (Raising.api_sink refusing_api "C0123")).

(** The lines of the thread table of the project [big]. *)
Definition lines_big : list string :=
  Eval vm_compute in value_or [] (proj_table_lines data_big).

(* ================================================================== *)
(** * Part II: properties *)
(* ================================================================== *)

(** ** The exception monad *)

Lemma bind_ok {A B} (m : result A) (k : A -> result B) (b : B) :
  bind m k = Ok b -> exists a, m = Ok a /\ k a = Ok b.
Proof.
  destruct m as [a | e]; simpl; intros H; [ now exists a | discriminate ].
Qed.

Ltac inv_bind H :=
  let a := fresh "v" in
  let Ha := fresh "E" in
  apply bind_ok in H; destruct H as (a & Ha & H).

Lemma mapM_length {A B} (f : A -> result B) (l : list A) (ys : list B) :
  mapM f l = Ok ys -> List.length ys = List.length l.
Proof.
  revert ys; induction l as [| x t IH]; simpl; intros ys H.
  - now inversion H.
  - inv_bind H. inv_bind H. inversion H; subst; simpl. f_equal. now apply IH.
Qed.

Lemma mapM_total {A B} (f : A -> result B) (l : list A) :
  (forall x, In x l -> exists y, f x = Ok y) -> exists ys, mapM f l = Ok ys.
Proof.
  induction l as [| x t IH]; simpl; intros H.
  - now exists [].
  - destruct (H x (or_introl eq_refl)) as [y Hy].
    destruct IH as [ys Hys]; [ intros z Hz; apply H; now right | ].
    exists (y :: ys). now rewrite Hy, Hys.
Qed.

Lemma mapM_ext_in {A B} (f g : A -> result B) (l : list A) :
  (forall x, In x l -> f x = g x) -> mapM f l = mapM g l.
Proof.
  induction l as [| x t IH]; simpl; intros H; [ reflexivity | ].
  rewrite (H x (or_introl eq_refl)), IH; [ reflexivity | ].
  intros z Hz; apply H; now right.
Qed.

Lemma mapM_pure {A B} (g : A -> B) (l : list A) :
  mapM (fun x => Ok (g x)) l = Ok (map g l).
Proof.
  induction l as [| x t IH]; simpl; [ reflexivity | now rewrite IH ].
Qed.

Lemma mapM_app {A B} (f : A -> result B) (l1 l2 : list A) (y1 y2 : list B) :
  mapM f l1 = Ok y1 -> mapM f l2 = Ok y2 -> mapM f (l1 ++ l2) = Ok (y1 ++ y2).
Proof.
  revert y1; induction l1 as [| x t IH]; simpl; intros y1 H1 H2.
  - inversion H1; subst. exact H2.
  - inv_bind H1. inv_bind H1. inversion H1; subst.
    rewrite E. simpl. rewrite (IH _ E0 H2). reflexivity.
Qed.

Lemma mapM_In {A B} (f : A -> result B) (l : list A) (ys : list B) (y : B) :
  mapM f l = Ok ys -> In y ys -> exists x, In x l /\ f x = Ok y.
Proof.
  revert ys; induction l as [| x t IH]; simpl; intros ys H Hy.
  - inversion H; subst. destruct Hy.
  - inv_bind H. inv_bind H. inversion H; subst.
    destruct Hy as [-> | Hy].
    + exists x; auto.
    + destruct (IH _ E0 Hy) as (z & Hz & Hfz). exists z; auto.
Qed.

(** ** [enumerate] *)

Lemma enumerate_from_In {A} (l : list A) (s i : nat) (x : A) :
  In (i, x) (enumerate_from s l) -> s <= i /\ nth_error l (i - s) = Some x.
Proof.
  revert s; induction l as [| y t IH]; simpl; intros s H; [ destruct H | ].
  destruct H as [H | H].
  - inversion H; subst. rewrite Nat.sub_diag. auto.
  - apply IH in H. destruct H as [Hle Hn]. split; [ lia | ].
    replace (i - s) with (S (i - S s)) by lia. exact Hn.
Qed.

Lemma enumerate_In {A} (l : list A) (i : nat) (x : A) :
  In (i, x) (enumerate l) -> nth_error l i = Some x.
Proof.
  intros H. apply enumerate_from_In in H. now rewrite Nat.sub_0_r in H.
Qed.

Lemma enumerate_from_length {A} (l : list A) (s : nat) :
  List.length (enumerate_from s l) = List.length l.
Proof.
  revert s; induction l as [| y t IH]; simpl; intros s; [ | rewrite IH ]; reflexivity.
Qed.

(** ** The line budget of [build_table] *)

Lemma firstn_incl {A} (n : nat) (l : list A) (x : A) :
  In x (firstn n l) -> In x l.
Proof.
  intros H. rewrite <- (firstn_skipn n l). apply in_or_app. now left.
Qed.

Lemma kept_rows_firstn (rs : list row) : kept_rows rs = firstn max_data_rows rs.
Proof.
  unfold kept_rows. destruct (Nat.ltb_spec max_data_rows (List.length rs)) as [H | H].
  - reflexivity.
  - symmetry. now apply firstn_all2.
Qed.

Lemma kept_rows_length (rs : list row) :
  List.length (kept_rows rs) = Nat.min 30 (List.length rs).
Proof.
  rewrite kept_rows_firstn. apply length_firstn.
Qed.

Lemma col_widths_length (h : list string) (rs : list row) (ws : list nat) :
  col_widths_of h rs = Ok ws -> List.length ws = List.length h.
Proof.
  unfold col_widths_of, enumerate. intros H. apply mapM_length in H.
  now rewrite enumerate_from_length in H.
Qed.

(** What a successful call returns, line by line. *)
Lemma table_lines_shape (h : list string) (rs : list row) (l c d : string)
  (lines : list string) :
  table_lines h rs l c d = Ok lines ->
  exists ws hl data ol,
    col_widths_of h rs = Ok ws /\
    header_line_of h ws = Ok hl /\
    mapM (data_line ws) (firstn 30 rs) = Ok data /\
    overall_line_of h ws l c d = Ok ol /\
    lines = hl :: separator_of ws :: data ++ [separator_of ws; ol].
Proof.
  unfold table_lines. intros H.
  inv_bind H. inv_bind H. inv_bind H. inv_bind H.
  rename v into ws, v0 into hl, v1 into data, v2 into ol.
  exists ws, hl, data, ol.
  rewrite kept_rows_firstn in E1. change max_data_rows with 30 in E1.
  repeat split; try assumption.
  assert (Hlen : List.length data <= 30).
  { apply mapM_length in E1. rewrite E1, length_firstn. lia. }
  assert (Hall : List.length ((([hl; separator_of ws] ++ data) ++ [separator_of ws]) ++ [ol])
                 = 4 + List.length data).
  { rewrite !length_app. simpl. lia. }
  destruct (Nat.ltb_spec max_lines
              (List.length ((([hl; separator_of ws] ++ data) ++ [separator_of ws]) ++ [ol])))
    as [Hlt | Hge].
  - unfold max_lines in Hlt. lia.
  - inversion H; subst. simpl. rewrite <- app_assoc. reflexivity.
Qed.

Lemma table_lines_total (h : list string) (rs : list row) (l c d : string) :
  well_formed_table h rs -> exists lines, table_lines h rs l c d = Ok lines.
Proof.
  intros [Hh Hrows]. rewrite Forall_forall in Hrows.
  assert (Hws : exists ws, col_widths_of h rs = Ok ws).
  { apply mapM_total. intros [i col] Hin. simpl.
    apply enumerate_In in Hin.
    assert (Hi : i < List.length h) by (apply nth_error_Some; congruence).
    unfold col_width. destruct rs as [| r0 rt]; [ eauto | ].
    destruct (mapM_total (fun r => tuple_get r i) (r0 :: rt)) as [cells Hc].
    - intros r Hr. unfold tuple_get.
      destruct (nth_error r i) eqn:En; [ eauto | ].
      apply nth_error_None in En. rewrite (Hrows r Hr) in En. lia.
    - rewrite Hc. simpl. eauto. }
  destruct Hws as [ws Hws].
  pose proof (col_widths_length _ _ _ Hws) as Hlen.
  assert (Hget : forall i, i < List.length h -> exists w, list_get ws i = Ok w).
  { intros i Hi. unfold list_get. destruct (nth_error ws i) eqn:En; [ eauto | ].
    apply nth_error_None in En. lia. }
  assert (Hhl : exists hl, header_line_of h ws = Ok hl).
  { unfold header_line_of.
    destruct (mapM_total (fun ic => w <- list_get ws (fst ic) ;; Ok (ljust (snd ic) w))
                (enumerate h)) as [cells Hc].
    - intros [i col] Hin. simpl. apply enumerate_In in Hin.
      destruct (Hget i) as [w Hw]; [ apply nth_error_Some; congruence | ].
      rewrite Hw. simpl. eauto.
    - rewrite Hc. simpl. eauto. }
  destruct Hhl as [hl Hhl].
  assert (Hdata : exists data, mapM (data_line ws) (kept_rows rs) = Ok data).
  { apply mapM_total. intros r Hr. unfold data_line.
    assert (Hin : In r rs).
    { rewrite kept_rows_firstn in Hr. eapply firstn_incl; eauto. }
    destruct (mapM_total
                (fun ic => w <- list_get ws (fst ic) ;;
                           Ok (match fst ic with
                               | O => ljust (snd ic) w
                               | S _ => rjust (snd ic) w
                               end)) (enumerate r)) as [cells Hc].
    - intros [i cell] Hi. simpl. apply enumerate_In in Hi.
      destruct (Hget i) as [w Hw].
      + rewrite <- (Hrows r Hin). apply nth_error_Some; congruence.
      + rewrite Hw. simpl. eauto.
    - rewrite Hc. simpl. eauto. }
  destruct Hdata as [data Hdata].
  assert (Hol : exists ol, overall_line_of h ws l c d = Ok ol).
  { unfold overall_line_of.
    destruct (Hget 0) as [w0 Hw0]; [ lia | ].
    destruct (Hget 1) as [w1 Hw1]; [ lia | ].
    rewrite Hw0, Hw1. simpl.
    destruct (Nat.ltb_spec 2 (List.length h)) as [H2 | H2]; [ | eauto ].
    destruct (Hget 2) as [w2 Hw2]; [ lia | ].
    rewrite Hw2. simpl. eauto. }
  destruct Hol as [ol Hol].
  unfold table_lines. rewrite Hws. simpl. rewrite Hhl. simpl.
  rewrite Hdata. simpl. rewrite Hol. simpl. eauto.
Qed.

Lemma split_nl_line (s : string) : no_newline s = true -> split_nl s = [s].
Proof.
  induction s as [| c t IH]; simpl; intros H; [ reflexivity | ].
  apply andb_prop in H. destruct H as [Hc Ht].
  destruct (Ascii.eqb c (ascii_of_nat 10)); [ discriminate | ].
  now rewrite (IH Ht).
Qed.

Lemma split_nl_cons (s rest : string) :
  no_newline s = true -> split_nl (s ^^ nl ^^ rest) = s :: split_nl rest.
Proof.
  induction s as [| c t IH]; simpl; intros H; [ reflexivity | ].
  apply andb_prop in H. destruct H as [Hc Ht].
  destruct (Ascii.eqb c (ascii_of_nat 10)); [ discriminate | ].
  specialize (IH Ht). simpl in IH. now rewrite IH.
Qed.

(** Splitting the text of a table at its newlines gives back its lines. *)
Lemma split_nl_join (lines : list string) :
  lines <> [] -> Forall (fun s => no_newline s = true) lines ->
  split_nl (join nl lines) = lines.
Proof.
  induction lines as [| s t IH]; intros Hne Hall; [ congruence | ].
  inversion Hall as [| ? ? Hs Ht]; subst.
  destruct t as [| s' t'].
  - simpl. now apply split_nl_line.
  - change (join nl (s :: s' :: t')) with (s ^^ nl ^^ join nl (s' :: t')).
    rewrite (split_nl_cons _ _ Hs). f_equal. apply IH; [ discriminate | exact Ht ].
Qed.

(** C1. [build_table] returns whenever the table is well formed, and whatever
    it returns has at most 34 lines: the header, the separator, the rendering
    of the first 30 rows at most, in the caller's order, then the separator
    and the summary line, which are never cut off.  The text returned is
    these lines joined by newlines, so that it splits back into them when no
    line has a newline of its own. *)
Theorem build_table_line_budget (h : list string) (rs : list row) (l c d : string) :
  (well_formed_table h rs -> exists text, build_table h rs l c d = Ok text) /\
  (forall lines, table_lines h rs l c d = Ok lines ->
     build_table h rs l c d = Ok (join nl lines) /\
     List.length lines <= 34 /\
     (Forall (fun s => no_newline s = true) lines ->
      split_nl (join nl lines) = lines) /\
     exists ws hl data ol,
       col_widths_of h rs = Ok ws /\
       mapM (data_line ws) (firstn 30 rs) = Ok data /\
       List.length data = Nat.min 30 (List.length rs) /\
       overall_line_of h ws l c d = Ok ol /\
       lines = hl :: separator_of ws :: data ++ [separator_of ws; ol]).
Proof.
  split.
  - intros Hwf. destruct (table_lines_total h rs l c d Hwf) as [lines Hl].
    exists (join nl lines). unfold build_table. now rewrite Hl.
  - intros lines Hl. split; [ unfold build_table; now rewrite Hl | ].
    destruct (table_lines_shape _ _ _ _ _ _ Hl) as (ws & hl & data & ol & Hw & Hh & Hd & Ho & ->).
    assert (Hlen : List.length data = Nat.min 30 (List.length rs)).
    { apply mapM_length in Hd. rewrite Hd. apply length_firstn. }
    split; [ simpl; rewrite length_app; simpl; lia | ].
    split; [ apply split_nl_join; discriminate | ].
    exists ws, hl, data, ol. auto.
Qed.

Lemma build_table_line_budget_witness :
  (exists text, build_table sku_headers (numbered_rows 35) "TOTAL" "35.00" "N/A" = Ok text) /\
  List.length capped_lines <= 34 /\
  exists ws hl data ol,
    mapM (data_line ws) (firstn 30 (numbered_rows 35)) = Ok data /\
    List.length data = 30 /\
    capped_lines = hl :: separator_of ws :: data ++ [separator_of ws; ol].
Proof.
  destruct (build_table_line_budget sku_headers (numbered_rows 35) "TOTAL" "35.00" "N/A")
    as [Hret Hshape].
  split.
  - apply Hret. split; [ simpl; lia | ]. repeat constructor.
  - destruct (Hshape capped_lines) as (_ & Hlen & _ & ws & hl & data & ol & _ & Hd & Hn & _ & Heq).
    + vm_compute. reflexivity.
    + split; [ exact Hlen | ]. exists ws, hl, data, ol. auto.
Defined.

(** ** Column widths *)

Lemma fold_right_max_shift (a x : nat) (l : list nat) :
  fold_right Nat.max (Nat.max a x) l = Nat.max x (fold_right Nat.max a l).
Proof.
  induction l as [| y t IH]; simpl; [ lia | rewrite IH; lia ].
Qed.

Lemma max_of_fold_right (a : nat) (l : list nat) :
  max_of a l = fold_right Nat.max a l.
Proof.
  unfold max_of. revert a; induction l as [| x t IH]; simpl; intros a.
  - reflexivity.
  - rewrite IH. apply fold_right_max_shift.
Qed.

Lemma tuple_cells (rs : list row) (i : nat) (cells : list string) :
  mapM (fun r => tuple_get r i) rs = Ok cells ->
  cells = map (fun r => nth i r "") rs.
Proof.
  revert cells; induction rs as [| r t IH]; simpl; intros cells H.
  - now inversion H.
  - inv_bind H. inv_bind H. inversion H; subst. f_equal; [ | now apply IH ].
    unfold tuple_get in E. destruct (nth_error r i) eqn:En; inversion E; subst.
    symmetry. now apply nth_error_nth.
Qed.

Lemma col_width_spec (rs : list row) (i : nat) (col : string) (w : nat) :
  col_width rs i col = Ok w -> w = width_over rs i col.
Proof.
  unfold col_width, width_over. destruct rs as [| r t].
  - intros H. now inversion H.
  - intros H. inv_bind H. inversion H; subst.
    apply tuple_cells in E. subst. rewrite max_of_fold_right, map_map. reflexivity.
Qed.

Lemma col_widths_spec (h : list string) (rs : list row) (ws : list nat) :
  col_widths_of h rs = Ok ws -> ws = widths_over h rs.
Proof.
  unfold col_widths_of, widths_over. generalize (enumerate h) as l.
  intros l; revert ws; induction l as [| ic t IH]; simpl; intros ws H.
  - now inversion H.
  - inv_bind H. inv_bind H. inversion H; subst.
    apply col_width_spec in E. subst. f_equal. now apply IH.
Qed.

Lemma widths_over_nil (h : list string) : widths_over h [] = map String.length h.
Proof.
  unfold widths_over, enumerate. generalize 0 as s.
  induction h as [| col t IH]; simpl; intros s; [ reflexivity | now rewrite IH ].
Qed.

(** C2, as the code has it.  The widths that pad every line of the table are
    taken over all the rows supplied, also those that the 30-row cap drops:
    the larger of the header label length and the longest cell; with no row
    it is the header label length, and with at most 30 rows these are the
    widths over the kept rows. *)
Theorem col_widths_over_all_rows (h : list string) (rs : list row) (l c d : string)
  (lines : list string) :
  table_lines h rs l c d = Ok lines ->
  let ws := widths_over h rs in
  col_widths_of h rs = Ok ws /\
  (exists hl data ol,
     header_line_of h ws = Ok hl /\
     mapM (data_line ws) (firstn 30 rs) = Ok data /\
     overall_line_of h ws l c d = Ok ol /\
     lines = hl :: separator_of ws :: data ++ [separator_of ws; ol]) /\
  (rs = [] -> ws = map String.length h) /\
  (List.length rs <= 30 -> ws = widths_over h (kept_rows rs)).
Proof.
  intros Hl ws.
  destruct (table_lines_shape _ _ _ _ _ _ Hl) as (ws' & hl & data & ol & Hw & Hh & Hd & Ho & ->).
  pose proof (col_widths_spec _ _ _ Hw) as Hws. fold ws in Hws. subst ws'.
  split; [ exact Hw | ]. split; [ exists hl, data, ol; auto | ]. split.
  - intros ->. apply widths_over_nil.
  - intros Hlen. rewrite kept_rows_firstn. unfold ws.
    rewrite firstn_all2; [ reflexivity | exact Hlen ].
Qed.

Lemma col_widths_over_all_rows_witness :
  col_widths_of sku_headers demo_rows = Ok (widths_over sku_headers demo_rows) /\
  widths_over sku_headers demo_rows = widths_over sku_headers (kept_rows demo_rows).
Proof.
  destruct (col_widths_over_all_rows sku_headers demo_rows "OVERALL" "150.00" "50%" demo_lines)
    as (Hw & _ & _ & Hkept).
  - vm_compute. reflexivity.
  - split; [ exact Hw | ]. apply Hkept. simpl. lia.
Defined.

(** C2, as the claim has it, fails: a row that the cap drops widens its
    column.  The two inputs below keep the same thirty rows and differ in the
    dropped thirty-first row only, yet their tables differ, and the first
    column is 30 wide where the kept rows and the header need 5. *)
Lemma dropped_row_widens_column :
  kept_rows rows_with_long_tail = kept_rows rows_with_short_tail /\
  col_widths_of sku_headers rows_with_long_tail = Ok [30; 4; 5] /\
  widths_over sku_headers (kept_rows rows_with_long_tail) = [5; 4; 5] /\
  table_lines sku_headers rows_with_long_tail "TOTAL" "30.50" "N/A" <>
  table_lines sku_headers rows_with_short_tail "TOTAL" "30.50" "N/A".
Proof.
  split; [ vm_compute; reflexivity | ].
  split; [ vm_compute; reflexivity | ].
  split; [ vm_compute; reflexivity | ].
  vm_compute. discriminate.
Qed.

(** ** The order of floats *)

Ltac compare_cases :=
  repeat match goal with
    | H : context [Z.compare ?a ?b] |- _ => destruct (Z.compare_spec a b)
    | |- context [Z.compare ?a ?b] => destruct (Z.compare_spec a b)
    | H : context [Pos.compare_cont Eq ?a ?b] |- _ =>
        change (Pos.compare_cont Eq a b) with (Pos.compare a b) in H;
        destruct (Pos.compare_spec a b)
    | |- context [Pos.compare_cont Eq ?a ?b] =>
        change (Pos.compare_cont Eq a b) with (Pos.compare a b);
        destruct (Pos.compare_spec a b)
    end;
  simpl in *; try congruence; try lia.

Ltac float_order :=
  unfold flt, fgt, fle, feq, SFltb, SFleb, SFeqb, SFcompare, is_nan in *;
  repeat match goal with
    | x : float |- _ => destruct x as [[] | [] | | [] ? ?]
    | x : spec_float |- _ => destruct x as [[] | [] | | [] ? ?]
    end;
  simpl in *; try congruence; compare_cases.

Lemma flt_asym (a b : float) : flt a b = true -> flt b a = false.
Proof. intros H. float_order. Qed.

Lemma flt_neg_trans (a b c : float) :
  is_nan a = false -> is_nan b = false -> is_nan c = false ->
  flt a b = false -> flt b c = false -> flt a c = false.
Proof. intros Ha Hb Hc H1 H2. float_order. Qed.

Lemma not_flt_fle (a b : float) :
  is_nan a = false -> is_nan b = false -> flt a b = false -> fle b a = true.
Proof. intros Ha Hb H. float_order. Qed.

Lemma feq_flt_apart (k v k' : float) :
  feq k v = true -> flt k k' = true -> feq k' v = false.
Proof. intros H1 H2. float_order. Qed.

(** ** Sums of non-negative costs *)

Lemma shr_1_nonneg (mrs : shr_record) : (0 <= shr_m mrs)%Z -> (0 <= shr_m (shr_1 mrs))%Z.
Proof.
  destruct mrs as [m r s]. simpl. intros H.
  destruct m as [| [p | p |] | p]; simpl; lia.
Qed.

Lemma iter_pos_invariant {A} (P : A -> Prop) (f : A -> A) :
  (forall x, P x -> P (f x)) -> forall n x, P x -> P (iter_pos f n x).
Proof.
  intros Hf. induction n as [n IH | n IH |]; simpl; intros x Hx; auto.
Qed.

Lemma shr_nonneg (mrs : shr_record) (e n : Z) :
  (0 <= shr_m mrs)%Z -> (0 <= shr_m (fst (shr mrs e n)))%Z.
Proof.
  intros H. unfold shr. destruct n; simpl; try assumption.
  apply (iter_pos_invariant (fun r => (0 <= shr_m r)%Z)); [ apply shr_1_nonneg | exact H ].
Qed.

Lemma shr_fexp_nonneg (m e : Z) (l : location) :
  (0 <= m)%Z -> (0 <= shr_m (fst (shr_fexp prec emax m e l)))%Z.
Proof.
  intros H. unfold shr_fexp. apply shr_nonneg.
  destruct l as [| []]; simpl; exact H.
Qed.

Lemma round_nearest_even_nonneg (m : Z) (l : location) :
  (0 <= m)%Z -> (0 <= round_nearest_even m l)%Z.
Proof.
  intros H. unfold round_nearest_even. destruct l as [| []]; try lia.
  destruct (Z.even m); lia.
Qed.

Lemma binary_round_aux_sign (s : bool) (m : positive) (e : Z) (l : location) :
  rounded_with_sign s (binary_round_aux prec emax s (Zpos m) e l).
Proof.
  unfold binary_round_aux, rounded_with_sign.
  pose proof (shr_fexp_nonneg (Zpos m) e l ltac:(lia)) as H1.
  destruct (shr_fexp prec emax (Zpos m) e l) as [mrs1 e1]. simpl in H1.
  pose proof (shr_fexp_nonneg
                (round_nearest_even (shr_m mrs1) (loc_of_shr_record mrs1)) e1 loc_Exact
                (round_nearest_even_nonneg _ _ H1)) as H2.
  destruct (shr_fexp prec emax
              (round_nearest_even (shr_m mrs1) (loc_of_shr_record mrs1)) e1 loc_Exact)
    as [mrs2 e2].
  simpl in H2. destruct (shr_m mrs2) as [| p | p]; simpl.
  - now left.
  - destruct (e2 <=? 971)%Z; [ right; right; eauto | right; now left ].
  - lia.
Qed.

Lemma binary_round_sign (s : bool) (m : positive) (e : Z) :
  rounded_with_sign s (binary_round prec emax s m e).
Proof.
  unfold binary_round.
  match goal with
  | |- context [shl_align ?a ?b ?c] => destruct (shl_align a b c) as [mz ez]
  end.
  apply binary_round_aux_sign.
Qed.

Lemma rounded_nonneg (x : float) : rounded_with_sign false x -> nonneg x = true.
Proof.
  intros [-> | [-> | (m & e & ->)]]; reflexivity.
Qed.

Lemma rounded_not_nan (s : bool) (x : float) : rounded_with_sign s x -> is_nan x = false.
Proof.
  intros [-> | [-> | (m & e & ->)]]; reflexivity.
Qed.

Lemma fadd_nonneg (x y : float) :
  nonneg x = true -> nonneg y = true -> nonneg (fadd x y) = true.
Proof.
  unfold fadd.
  destruct x as [sx | sx | | sx mx ex], y as [sy | sy | | sy my ey]; simpl;
    try discriminate; try (destruct sx; simpl; congruence);
    try (destruct sy; simpl; congruence);
    try (destruct sx, sy; simpl; congruence).
  destruct sx, sy; simpl; try discriminate. intros _ _.
  apply rounded_nonneg. unfold binary_normalize. apply binary_round_sign.
Qed.

(** Adding a finite cost to a running sum that is a number gives a number. *)
Lemma fadd_not_nan (a x : float) :
  is_nan a = false -> is_finite x = true -> is_nan (fadd a x) = false.
Proof.
  unfold fadd.
  destruct a as [sa | sa | | sa ma ea], x as [sx | sx | | sx mx ex]; simpl;
    try discriminate; try reflexivity; try (destruct sa, sx; reflexivity).
  intros _ _. unfold binary_normalize.
  match goal with
  | |- context [Z.add ?a ?b] => destruct (Z.add a b) as [| p | p]
  end; [ reflexivity | | ]; eapply rounded_not_nan; apply binary_round_sign.
Qed.

Lemma float_zero : float_of_int 0 = S754_zero false.
Proof. reflexivity. Qed.

Lemma or_zero_nonneg (o : option float) :
  match o with Some d => nonneg d | None => true end = true ->
  nonneg (or_zero o) = true.
Proof.
  destruct o as [d |]; simpl; [ | reflexivity ].
  destruct (truthy d); [ auto | reflexivity ].
Qed.

Lemma fold_fadd_nonneg (l : list float) (a : float) :
  nonneg a = true -> Forall (fun x => nonneg x = true) l ->
  nonneg (fold_left fadd l a) = true.
Proof.
  revert a; induction l as [| x t IH]; simpl; intros a Ha Hl; [ exact Ha | ].
  inversion Hl; subst. apply IH; [ now apply fadd_nonneg | assumption ].
Qed.

Lemma nonneg_not_nan (x : float) : nonneg x = true -> is_nan x = false.
Proof. destruct x; simpl; congruence. Qed.

(** A non-negative total is zero or is greater than zero. *)
Lemma nonneg_zero_or_positive (x : float) :
  nonneg x = true -> is_zero x = true \/ fgt x (float_of_int 0) = true.
Proof.
  destruct x as [s | [] | | [] m e]; simpl; intros H; try discriminate; auto.
Qed.

Lemma Forall_filter {A} (P : A -> Prop) (f : A -> bool) (l : list A) :
  Forall P l -> Forall P (filter f l).
Proof.
  intros H. rewrite Forall_forall in *. intros x Hx. apply filter_In in Hx. now apply H.
Qed.

Lemma today_total_nonneg (rs : list BillingRow) :
  Forall (fun r => nonneg_costs r = true) rs -> nonneg (today_total rs) = true.
Proof.
  intros H. unfold today_total, sum_floats. apply fold_fadd_nonneg; [ reflexivity | ].
  rewrite Forall_map. eapply Forall_impl; [ | exact H ].
  intros r Hr. unfold nonneg_costs in Hr. now apply andb_prop in Hr.
Qed.

Lemma previous_total_nonneg (rs : list BillingRow) :
  Forall (fun r => nonneg_costs r = true) rs -> nonneg (previous_total rs) = true.
Proof.
  intros H. unfold previous_total, sum_floats. apply fold_fadd_nonneg; [ reflexivity | ].
  rewrite Forall_map. eapply Forall_impl; [ | exact H ].
  intros r Hr. unfold nonneg_costs in Hr. apply andb_prop in Hr.
  apply or_zero_nonneg. tauto.
Qed.

(** When every contributing previous cost is absent, the total is zero. *)
Lemma previous_total_absent (rs : list BillingRow) :
  Forall (fun r => day_before_cost r = None) rs -> previous_total rs = S754_zero false.
Proof.
  unfold previous_total, sum_floats. rewrite float_zero.
  induction rs as [| r t IH]; simpl; intros H; [ reflexivity | ].
  inversion H as [| ? ? Hr Ht]; subst. rewrite Hr. simpl. now apply IH.
Qed.

(** ** [sorted(..., reverse=True)]: permutation, order and stability *)

Section KeyedSort.
Context {A : Type}.
Implicit Types (l : list (float * A)) (k v : float) (x : A).

Lemma insert_desc_perm k x l : Permutation (insert_desc k x l) ((k, x) :: l).
Proof.
  induction l as [| [k' y] t IH]; simpl; [ reflexivity | ].
  destruct (flt k k'); [ | reflexivity ].
  rewrite IH. apply perm_swap.
Qed.

Lemma sort_keyed_desc_perm l : Permutation (sort_keyed_desc l) l.
Proof.
  induction l as [| [k x] t IH]; simpl; [ reflexivity | ].
  rewrite insert_desc_perm. now constructor.
Qed.

Lemma insert_desc_sorted k x l :
  is_nan k = false -> keys_ordered l ->
  StronglySorted not_below l -> StronglySorted not_below (insert_desc k x l).
Proof.
  intros Hk Hl Hs. induction Hs as [| [k' y] t Hs IH Hall]; simpl.
  - repeat constructor.
  - inversion Hl as [| ? ? Hk' Ht]; subst. simpl in Hk'.
    destruct (flt k k') eqn:Ekk.
    + constructor; [ now apply IH | ].
      eapply Permutation_Forall; [ symmetry; apply insert_desc_perm | ].
      constructor; [ | exact Hall ].
      unfold not_below; simpl. now apply flt_asym.
    + constructor; [ now constructor | ].
      constructor; [ exact Ekk | ].
      rewrite Forall_forall in *. intros [kz z] Hz.
      unfold not_below; simpl.
      apply (flt_neg_trans k k' kz); auto.
      * exact (Ht _ Hz).
      * exact (Hall _ Hz).
Qed.

Lemma sort_keyed_desc_sorted l :
  keys_ordered l -> StronglySorted not_below (sort_keyed_desc l).
Proof.
  induction l as [| [k x] t IH]; simpl; intros Hl; [ constructor | ].
  inversion Hl; subst. apply insert_desc_sorted; auto.
  eapply Permutation_Forall; [ symmetry; apply sort_keyed_desc_perm | assumption ].
Qed.

Lemma insert_desc_stable v k x l :
  filter (fun kx => feq (fst kx) v) (insert_desc k x l)
  = filter (fun kx => feq (fst kx) v) ((k, x) :: l).
Proof.
  induction l as [| [k' y] t IH]; [ reflexivity | ].
  cbn [insert_desc]. destruct (flt k k') eqn:Ekk; [ | reflexivity ].
  cbn [filter fst] in *. rewrite IH.
  destruct (feq k v) eqn:Ekv; [ | reflexivity ].
  now rewrite (feq_flt_apart k v k' Ekv Ekk).
Qed.

Lemma sort_keyed_desc_stable v l :
  filter (fun kx => feq (fst kx) v) (sort_keyed_desc l)
  = filter (fun kx => feq (fst kx) v) l.
Proof.
  induction l as [| [k x] t IH]; [ reflexivity | ].
  cbn [sort_keyed_desc fold_right fst snd].
  change (fold_right (fun kx acc => insert_desc (fst kx) (snd kx) acc) [] t)
    with (sort_keyed_desc t).
  rewrite insert_desc_stable. cbn [filter fst]. now rewrite IH.
Qed.

End KeyedSort.

Section SortedDesc.
Context {A : Type} (key : A -> float).

Lemma decorate_decorated (l : list A) : decorated key (map (fun x => (key x, x)) l).
Proof.
  unfold decorated. rewrite Forall_map. apply Forall_forall. reflexivity.
Qed.

Lemma undecorate (l : list A) : map snd (map (fun x => (key x, x)) l) = l.
Proof.
  rewrite map_map. simpl. apply map_id.
Qed.

Lemma sorted_desc_perm (l : list A) : Permutation (sorted_desc key l) l.
Proof.
  unfold sorted_desc. rewrite <- (undecorate l) at 2.
  apply Permutation_map, sort_keyed_desc_perm.
Qed.

Lemma undecorate_sorted (L : list (float * A)) :
  decorated key L -> keys_ordered L -> StronglySorted not_below L ->
  StronglySorted (fun a b => fle (key b) (key a) = true) (map snd L).
Proof.
  intros Hd Hk Hs. induction Hs as [| [k x] t Hs IH Hall]; simpl; [ constructor | ].
  inversion Hd as [| ? ? Hx Hdt]; subst. inversion Hk as [| ? ? Hkx Hkt]; subst.
  simpl in Hx, Hkx. constructor; [ now apply IH | ].
  rewrite Forall_map. rewrite Forall_forall in *. intros [kz z] Hz. simpl.
  pose proof (Hall _ Hz) as Hnb. unfold not_below in Hnb. simpl in Hnb.
  pose proof (Hdt _ Hz) as Hkz. simpl in Hkz.
  pose proof (Hkt _ Hz) as Hnz. simpl in Hnz.
  rewrite <- Hx, <- Hkz. now apply not_flt_fle.
Qed.

Lemma sorted_desc_sorted (l : list A) :
  Forall (fun x => is_nan (key x) = false) l ->
  StronglySorted (fun a b => fle (key b) (key a) = true) (sorted_desc key l).
Proof.
  intros Hl. unfold sorted_desc.
  assert (Hk : keys_ordered (map (fun x => (key x, x)) l)).
  { unfold keys_ordered. now rewrite Forall_map. }
  apply undecorate_sorted.
  - eapply Permutation_Forall; [ symmetry; apply sort_keyed_desc_perm | ].
    apply decorate_decorated.
  - eapply Permutation_Forall; [ symmetry; apply sort_keyed_desc_perm | exact Hk ].
  - now apply sort_keyed_desc_sorted.
Qed.

Lemma undecorate_filter (v : float) (L : list (float * A)) :
  decorated key L ->
  filter (fun x => feq (key x) v) (map snd L)
  = map snd (filter (fun kx => feq (fst kx) v) L).
Proof.
  induction L as [| [k x] t IH]; simpl; intros Hd; [ reflexivity | ].
  inversion Hd as [| ? ? Hx Hdt]; subst. simpl in Hx. subst k.
  destruct (feq (key x) v); simpl; now rewrite IH.
Qed.

Lemma sorted_desc_stable (v : float) (l : list A) :
  filter (fun x => feq (key x) v) (sorted_desc key l)
  = filter (fun x => feq (key x) v) l.
Proof.
  unfold sorted_desc. rewrite undecorate_filter.
  - rewrite sort_keyed_desc_stable. rewrite <- undecorate_filter.
    + now rewrite undecorate.
    + apply decorate_decorated.
  - eapply Permutation_Forall; [ symmetry; apply sort_keyed_desc_perm | ].
    apply decorate_decorated.
Qed.

End SortedDesc.

Lemma sorted_desc_r_perm {A} (key : A -> result float) (l sorted : list A) :
  sorted_desc_r key l = Ok sorted -> Permutation sorted l.
Proof.
  unfold sorted_desc_r. intros H. inv_bind H. inversion H; subst.
  rewrite sort_keyed_desc_perm.
  clear H. revert v E. induction l as [| x t IH]; simpl; intros keyed E.
  - inversion E; subst. constructor.
  - inv_bind E. inv_bind E. inversion E; subst.
    inv_bind E0. inversion E0; subst. simpl. constructor. now apply IH.
Qed.

(** ** Dictionaries *)

Section Dict.
Context {V : Type}.
Implicit Types (d : dict V) (k : string) (v : V).

Lemma dict_get_update k k' (f : V -> V) d :
  dict_get k (dict_update k' f d)
  = if String.eqb k k' then option_map f (dict_get k d) else dict_get k d.
Proof.
  induction d as [| [kd vd] t IH]; simpl.
  - now destruct (String.eqb k k').
  - destruct (String.eqb_spec k' kd) as [-> | Hne]; simpl.
    + destruct (String.eqb_spec k kd) as [-> | Hne']; simpl; reflexivity.
    + rewrite IH. destruct (String.eqb_spec k kd) as [-> | Hne']; [ | reflexivity ].
      destruct (String.eqb_spec kd k'); [ congruence | reflexivity ].
Qed.

Lemma dict_get_app_new k k' v d :
  dict_get k (d ++ [(k', v)])
  = match dict_get k d with
    | Some x => Some x
    | None => if String.eqb k k' then Some v else None
    end.
Proof.
  induction d as [| [kd vd] t IH]; simpl; [ reflexivity | ].
  destruct (String.eqb k kd); [ reflexivity | exact IH ].
Qed.

Lemma dict_keys_update k (f : V -> V) d : map fst (dict_update k f d) = map fst d.
Proof.
  induction d as [| [kd vd] t IH]; simpl; [ reflexivity | ].
  destruct (String.eqb k kd); simpl; [ reflexivity | now rewrite IH ].
Qed.

Lemma dict_mem_keys k d : dict_mem k d = existsb (String.eqb k) (map fst d).
Proof.
  unfold dict_mem. induction d as [| [kd vd] t IH]; simpl; [ reflexivity | ].
  destruct (String.eqb k kd); simpl; [ reflexivity | exact IH ].
Qed.

Lemma dict_get_In k v d : dict_get k d = Some v -> In (k, v) d.
Proof.
  induction d as [| [kd vd] t IH]; simpl; [ discriminate | ].
  destruct (String.eqb_spec k kd) as [-> | Hne]; intros H.
  - inversion H; subst. now left.
  - right. now apply IH.
Qed.

Lemma dict_In_get k v d : NoDup (map fst d) -> In (k, v) d -> dict_get k d = Some v.
Proof.
  induction d as [| [kd vd] t IH]; simpl; intros Hnd Hin; [ destruct Hin | ].
  inversion Hnd as [| ? ? Hnotin Hnd']; subst.
  destruct Hin as [Heq | Hin].
  - inversion Heq; subst. now rewrite String.eqb_refl.
  - destruct (String.eqb_spec k kd) as [-> | Hne]; [ | now apply IH ].
    exfalso. apply Hnotin. apply (in_map fst) in Hin. exact Hin.
Qed.

End Dict.

(** ** First-seen order *)

Lemma filter_implied {A} (p q : A -> bool) (l : list A) :
  (forall x, p x = true -> q x = true) -> filter p (filter q l) = filter p l.
Proof.
  intros H. induction l as [| x t IH]; simpl; [ reflexivity | ].
  destruct (q x) eqn:Eq; simpl.
  - now rewrite IH.
  - destruct (p x) eqn:Ep; [ | exact IH ].
    rewrite (H x Ep) in Eq. discriminate.
Qed.

Lemma filter_andb {A} (p q : A -> bool) (l : list A) :
  filter (fun x => p x && q x) l = filter p (filter q l).
Proof.
  induction l as [| x t IH]; simpl; [ reflexivity | ].
  destruct (q x) eqn:Eq, (p x) eqn:Ep; simpl; rewrite ?Ep, IH; reflexivity.
Qed.

Lemma keys_from_first_seen (seen l : list string) :
  keys_from seen l
  = seen ++ filter (fun k => negb (existsb (String.eqb k) seen)) (first_seen l).
Proof.
  unfold keys_from. revert seen; induction l as [| k t IH]; intros seen.
  - simpl. now rewrite app_nil_r.
  - cbn [fold_left first_seen]. rewrite IH.
    destruct (existsb (String.eqb k) seen) eqn:Ek.
    + cbn [filter]. rewrite Ek. cbn [negb]. f_equal.
      symmetry. apply filter_implied.
      intros k' Hk'. destruct (String.eqb_spec k' k) as [-> | Hne]; [ | reflexivity ].
      rewrite Ek in Hk'. discriminate.
    + cbn [filter]. rewrite Ek. cbn [negb]. rewrite <- app_assoc. cbn [app]. do 2 f_equal.
      rewrite <- filter_andb. apply filter_ext. intros k'.
      rewrite existsb_app. simpl. rewrite orb_false_r. apply negb_orb.
Qed.

Lemma keys_from_nil (l : list string) : keys_from [] l = first_seen l.
Proof.
  rewrite keys_from_first_seen. simpl.
  induction (first_seen l) as [| k t IH]; simpl; [ reflexivity | now rewrite IH ].
Qed.

Lemma first_seen_In (l : list string) (k : string) : In k (first_seen l) <-> In k l.
Proof.
  induction l as [| x t IH]; simpl; [ tauto | ].
  rewrite filter_In, IH. split.
  - intros [H | [H _]]; auto.
  - intros [H | H]; [ now left | ].
    destruct (String.eqb_spec k x) as [-> | Hne]; [ now left | right; auto ].
Qed.

Lemma first_seen_NoDup (l : list string) : NoDup (first_seen l).
Proof.
  induction l as [| x t IH]; simpl; constructor.
  - rewrite filter_In. intros [_ H]. now rewrite String.eqb_refl in H.
  - now apply NoDup_filter.
Qed.

(** ** One dictionary of the loop *)

Section Accumulate.
Context {R V : Type} (key : R -> string) (init : V) (upd : R -> V -> V).

Lemma accumulate_keys (d : dict V) (r : R) :
  map fst (accumulate key init upd d r)
  = if existsb (String.eqb (key r)) (map fst d) then map fst d
    else map fst d ++ [key r].
Proof.
  unfold accumulate, dict_setdefault. rewrite dict_keys_update, dict_mem_keys.
  destruct (existsb (String.eqb (key r)) (map fst d)); [ reflexivity | ].
  now rewrite map_app.
Qed.

Lemma accumulate_get (d : dict V) (r : R) (k : string) :
  dict_get k (accumulate key init upd d r)
  = if String.eqb k (key r)
    then Some (upd r (match dict_get k d with Some v => v | None => init end))
    else dict_get k d.
Proof.
  unfold accumulate, dict_setdefault, dict_mem. rewrite dict_get_update.
  destruct (String.eqb_spec k (key r)) as [-> | Hne].
  - destruct (dict_get (key r) d) as [v |] eqn:Eg.
    + now rewrite Eg.
    + rewrite dict_get_app_new, Eg, String.eqb_refl. reflexivity.
  - destruct (dict_get (key r) d) as [v |] eqn:Eg; [ reflexivity | ].
    rewrite dict_get_app_new. destruct (dict_get k d); [ reflexivity | ].
    destruct (String.eqb_spec k (key r)); [ contradiction | reflexivity ].
Qed.

Lemma fold_accumulate_keys (rs : list R) (d : dict V) :
  map fst (fold_left (accumulate key init upd) rs d)
  = keys_from (map fst d) (map key rs).
Proof.
  unfold keys_from. revert d; induction rs as [| r t IH]; intros d; [ reflexivity | ].
  cbn [fold_left map]. rewrite IH, accumulate_keys. reflexivity.
Qed.

Lemma fold_accumulate_get (rs : list R) (d : dict V) (k : string) :
  dict_get k (fold_left (accumulate key init upd) rs d)
  = match dict_get k d, filter (fun r => String.eqb k (key r)) rs with
    | None, [] => None
    | o, l =>
        Some (fold_left (fun v r => upd r v) l
                (match o with Some v => v | None => init end))
    end.
Proof.
  revert d; induction rs as [| r t IH]; intros d.
  - simpl. now destruct (dict_get k d).
  - cbn [fold_left filter]. rewrite IH, accumulate_get.
    destruct (String.eqb k (key r)).
    + cbn [fold_left]. now destruct (dict_get k d).
    + reflexivity.
Qed.

(** From the empty dictionary: the keys come in first-seen order, without
    repetition, and each value is the fold over the rows of its key. *)
Lemma group_keys (rs : list R) :
  map fst (fold_left (accumulate key init upd) rs []) = first_seen (map key rs).
Proof.
  rewrite fold_accumulate_keys. apply keys_from_nil.
Qed.

Lemma group_In (rs : list R) (k : string) (v : V) :
  In (k, v) (fold_left (accumulate key init upd) rs []) ->
  v = fold_left (fun v r => upd r v) (filter (fun r => String.eqb k (key r)) rs) init.
Proof.
  intros Hin. apply dict_In_get in Hin.
  - rewrite fold_accumulate_get in Hin. cbn [dict_get] in Hin.
    destruct (filter (fun r => String.eqb k (key r)) rs); [ discriminate | ].
    now inversion Hin.
  - rewrite group_keys. apply first_seen_NoDup.
Qed.

Lemma group_get (rs : list R) (r : R) :
  In r rs ->
  dict_get (key r) (fold_left (accumulate key init upd) rs [])
  = Some (fold_left (fun v r => upd r v)
            (filter (fun r' => String.eqb (key r) (key r')) rs) init).
Proof.
  intros Hin. rewrite fold_accumulate_get. cbn [dict_get].
  destruct (filter (fun r' => String.eqb (key r) (key r')) rs) eqn:Ef; [ | reflexivity ].
  assert (Hr : In r (filter (fun r' => String.eqb (key r) (key r')) rs)).
  { apply filter_In. split; [ exact Hin | apply String.eqb_refl ]. }
  rewrite Ef in Hr. destruct Hr.
Qed.

End Accumulate.

(** ** What the loop leaves in the accumulators *)

Lemma agg_step_ok (st st' : AggState) (r : BillingRow) :
  agg_step st r = Ok st' ->
  record_delta_str r = Ok (delta_str_of r) /\ st' = agg_step_pure st r.
Proof.
  unfold agg_step. intros H. inv_bind H.
  assert (Hv : delta_str_of r = v) by (unfold delta_str_of; now rewrite E).
  subst v. split; [ exact E | ].
  injection H as <-. reflexivity.
Qed.

Lemma agg_loop_ok (rs : list BillingRow) (st st' : AggState) :
  agg_loop st rs = Ok st' ->
  Forall (fun r => record_delta_str r = Ok (delta_str_of r)) rs /\
  st' = fold_left agg_step_pure rs st.
Proof.
  revert st; induction rs as [| r t IH]; simpl; intros st H.
  - inversion H; subst. split; [ constructor | reflexivity ].
  - inv_bind H. apply agg_step_ok in E. destruct E as [Hr ->].
    apply IH in H. destruct H as [Ht ->]. split; [ now constructor | reflexivity ].
Qed.

Lemma fold_pure_projections (rs : list BillingRow) (st : AggState) :
  let st' := fold_left agg_step_pure rs st in
  overall_total_yesterday st'
    = fold_left fadd (map yesterday_cost rs) (overall_total_yesterday st) /\
  overall_total_day_before st'
    = fold_left fadd (map (fun r => or_zero (day_before_cost r)) rs)
        (overall_total_day_before st) /\
  projects st'
    = fold_left (accumulate project_id projects_init projects_upd) rs (projects st) /\
  sku_agg st'
    = fold_left (accumulate service_key sku_init sku_upd) rs (sku_agg st) /\
  project_totals st'
    = fold_left (accumulate project_id totals_init totals_upd) rs (project_totals st).
Proof.
  revert st; induction rs as [| r t IH]; intros st; simpl.
  - repeat split.
  - destruct (IH (agg_step_pure st r)) as (H1 & H2 & H3 & H4 & H5).
    simpl in *. rewrite H1, H2, H3, H4, H5. repeat split.
Qed.

Lemma fold_sku_upd (l : list BillingRow) (v : SkuVals) :
  fold_left (fun v r => sku_upd r v) l v
  = {| yesterday := fold_left fadd (map yesterday_cost l) (yesterday v);
       day_before := fold_left fadd (map (fun r => or_zero (day_before_cost r)) l)
                       (day_before v) |}.
Proof.
  revert v; induction l as [| r t IH]; intros v; simpl.
  - now destruct v.
  - rewrite IH. reflexivity.
Qed.

Lemma fold_totals_upd (l : list BillingRow) (v : ProjectTotals) :
  fold_left (fun v r => totals_upd r v) l v
  = {| pt_total_yesterday := fold_left fadd (map yesterday_cost l) (pt_total_yesterday v);
       pt_total_day_before :=
         fold_left fadd (map (fun r => or_zero (day_before_cost r)) l)
           (pt_total_day_before v) |}.
Proof.
  revert v; induction l as [| r t IH]; intros v; simpl.
  - now destruct v.
  - rewrite IH. reflexivity.
Qed.

Lemma fold_projects_upd (l : list BillingRow) (v : ProjectData) :
  fold_left (fun v r => projects_upd r v) l v
  = {| rows := rows v ++ map detail_row_of l;
       total_yesterday := fold_left fadd (map yesterday_cost l) (total_yesterday v);
       total_day_before :=
         fold_left fadd (map (fun r => or_zero (day_before_cost r)) l)
           (total_day_before v) |}.
Proof.
  revert v; induction l as [| r t IH]; intros v; simpl.
  - rewrite app_nil_r. now destruct v.
  - rewrite IH. simpl. rewrite <- app_assoc. reflexivity.
Qed.

Lemma detail_rows_ok (l : list BillingRow) :
  Forall (fun r => record_delta_str r = Ok (delta_str_of r)) l ->
  mapM detail_row l = Ok (map detail_row_of l).
Proof.
  induction l as [| r t IH]; simpl; intros H; [ reflexivity | ].
  inversion H as [| ? ? Hr Ht]; subst.
  unfold detail_row at 1. rewrite Hr. simpl. rewrite (IH Ht). reflexivity.
Qed.

(** The state a successful run of the loop returns, in terms of the rows. *)
Lemma aggregate_spec (rs : list BillingRow) (ie : option string) (st : AggState) :
  aggregate (QueryRows rs ie) = Ok st ->
  overall_total_yesterday st = today_total rs /\
  overall_total_day_before st = previous_total rs /\
  map fst (sku_agg st) = first_seen (map service_key rs) /\
  (forall k v, In (k, v) (sku_agg st) ->
     v = {| yesterday := today_total (of_service k rs);
            day_before := previous_total (of_service k rs) |}) /\
  map fst (project_totals st) = first_seen (map project_id rs) /\
  (forall p t, In (p, t) (project_totals st) ->
     t = {| pt_total_yesterday := today_total (of_project p rs);
            pt_total_day_before := previous_total (of_project p rs) |}) /\
  map fst (projects st) = first_seen (map project_id rs) /\
  (forall p data, In (p, data) (projects st) ->
     mapM detail_row (of_project p rs) = Ok (rows data) /\
     total_yesterday data = today_total (of_project p rs) /\
     total_day_before data = previous_total (of_project p rs)).
Proof.
  unfold aggregate. intros H. inv_bind H.
  apply agg_loop_ok in E. destruct E as [Hds ->].
  destruct ie as [msg |]; [ discriminate | ]. inversion H; subst; clear H.
  destruct (fold_pure_projections rs agg_init) as (H1 & H2 & H3 & H4 & H5).
  simpl in H1, H2, H3, H4, H5.
  rewrite H1, H2, H3, H4, H5.
  repeat split.
  - apply group_keys.
  - intros k v Hin. apply group_In in Hin. rewrite fold_sku_upd in Hin. exact Hin.
  - apply group_keys.
  - intros p t Hin. apply group_In in Hin. rewrite fold_totals_upd in Hin. exact Hin.
  - apply group_keys.
  - apply group_In in H. rewrite fold_projects_upd in H. subst data. simpl.
    apply detail_rows_ok. now apply Forall_filter.
  - apply group_In in H. rewrite fold_projects_upd in H. now subst data.
  - apply group_In in H. rewrite fold_projects_upd in H. now subst data.
Qed.

(** ** The delta of an aggregate row *)

Lemma zero_not_positive (x : float) :
  is_zero x = true -> fgt x (float_of_int 0) = false.
Proof. destruct x as [[] | | |]; simpl; try discriminate; reflexivity. Qed.

Lemma delta_of_totals_shown (t p : float) (shown : string) :
  delta_of_totals t p = Ok shown -> aggregate_delta_shown t p shown.
Proof.
  unfold delta_of_totals, aggregate_delta_shown.
  destruct (fgt p (float_of_int 0)) eqn:Hp; intros H.
  - split.
    + intros Hz. rewrite (zero_not_positive _ Hz) in Hp. discriminate.
    + intros _. inv_bind H. inv_bind H. inversion H; subst. eauto.
  - split; [ intros _; now inversion H | discriminate ].
Qed.

Lemma delta_of_totals_rule (l : list BillingRow) (shown : string) :
  Forall (fun r => nonneg_costs r = true) l ->
  delta_of_totals (today_total l) (previous_total l) = Ok shown ->
  aggregate_delta_rule l shown.
Proof.
  intros Hl H. pose proof (delta_of_totals_shown _ _ _ H) as Hs.
  split; [ apply nonneg_zero_or_positive; now apply previous_total_nonneg | ].
  split; [ | exact Hs ].
  intros Habs. apply Hs. now rewrite (previous_total_absent _ Habs).
Qed.

Lemma mapM_Forall2 {A B} (f : A -> result B) (l : list A) (ys : list B) :
  mapM f l = Ok ys -> Forall2 (fun x y => f x = Ok y) l ys.
Proof.
  revert ys; induction l as [| x t IH]; simpl; intros ys H.
  - inversion H; subst. constructor.
  - inv_bind H. inv_bind H. inversion H; subst. constructor; auto.
Qed.

Lemma mapM_In_fwd {A B} (f : A -> result B) (l : list A) (ys : list B) (x : A) :
  mapM f l = Ok ys -> In x l -> exists y, f x = Ok y /\ In y ys.
Proof.
  revert ys; induction l as [| a t IH]; simpl; intros ys H Hx; [ destruct Hx | ].
  inv_bind H. inv_bind H. inversion H; subst.
  destruct Hx as [-> | Hx].
  - exists v; simpl; auto.
  - destruct (IH _ E0 Hx) as (y & Hy & Hin). exists y; simpl; auto.
Qed.

Lemma sorted_sku_In (st : AggState) (item : string * SkuVals) :
  In item (sorted_sku st) <-> In item (sku_agg st).
Proof.
  unfold sorted_sku. split; apply Permutation_in;
    [ | symmetry ]; apply sorted_desc_perm.
Qed.

Lemma sorted_projects_In (st : AggState) (item : string * ProjectTotals) :
  In item (sorted_projects st) <-> In item (project_totals st).
Proof.
  unfold sorted_projects. split; apply Permutation_in;
    [ | symmetry ]; apply sorted_desc_perm.
Qed.

Lemma first_seen_In_map {A} (key : A -> string) (l : list A) (k : string) :
  In k (first_seen (map key l)) -> exists x, In x l /\ key x = k.
Proof.
  rewrite first_seen_In, in_map_iff. intros (x & Hx & Hin). eauto.
Qed.

(** C3. With non-negative input costs, every aggregate row (a service-wide
    row, a project-wide row, the overall summary) shows [N/A] when its
    accumulated previous-day total is zero, which is the case when every
    contributing previous cost is absent, and shows
    [round((today - previous) / previous * 100)] followed by [%] when that
    total is positive; the total is one or the other. *)
Theorem aggregate_rows_delta (rs : list BillingRow) (ie : option string)
  (st : AggState) :
  Forall (fun r => nonneg_costs r = true) rs ->
  aggregate (QueryRows rs ie) = Ok st ->
  (forall rws r, sku_rows st = Ok rws -> In r rws ->
     exists k shown,
       r = [k; fmt2 (today_total (of_service k rs)); shown] /\
       aggregate_delta_rule (of_service k rs) shown) /\
  (forall rws r, project_rows st = Ok rws -> In r rws ->
     exists p shown,
       r = [p; fmt2 (today_total (of_project p rs)); shown] /\
       aggregate_delta_rule (of_project p rs) shown) /\
  (forall shown, overall_delta_str st = Ok shown ->
     overall_cost_str st = fmt2 (today_total rs) /\
     aggregate_delta_rule rs shown).
Proof.
  intros Hnn Hagg.
  destruct (aggregate_spec _ _ _ Hagg) as (Hy & Hd & _ & Hsku & _ & Htot & _ & _).
  split; [ | split ].
  - intros rws r Hrows Hin.
    destruct (mapM_In _ _ _ _ Hrows Hin) as ([k v] & Hitem & Hrow).
    apply sorted_sku_In in Hitem. apply Hsku in Hitem. subst v.
    unfold sku_row in Hrow. simpl in Hrow. inv_bind Hrow. inversion Hrow; subst.
    exists k, v. split; [ reflexivity | ].
    apply delta_of_totals_rule; [ now apply Forall_filter | exact E ].
  - intros rws r Hrows Hin.
    destruct (mapM_In _ _ _ _ Hrows Hin) as ([p t] & Hitem & Hrow).
    apply sorted_projects_In in Hitem. apply Htot in Hitem. subst t.
    unfold project_row in Hrow. simpl in Hrow. inv_bind Hrow. inversion Hrow; subst.
    exists p, v. split; [ reflexivity | ].
    apply delta_of_totals_rule; [ now apply Forall_filter | exact E ].
  - intros shown Hs. unfold overall_cost_str, overall_delta_str in *.
    rewrite Hy. split; [ reflexivity | ].
    rewrite Hy, Hd in Hs. now apply delta_of_totals_rule.
Qed.

(** ** Rows of the service-wide table *)

Lemma fold_fadd_not_nan (l : list float) (a : float) :
  is_nan a = false -> Forall (fun x => is_finite x = true) l ->
  is_nan (fold_left fadd l a) = false.
Proof.
  revert a; induction l as [| x t IH]; simpl; intros a Ha Hl; [ exact Ha | ].
  inversion Hl; subst. apply IH; [ now apply fadd_not_nan | assumption ].
Qed.

Lemma today_total_not_nan (rs : list BillingRow) :
  Forall (fun r => is_finite (yesterday_cost r) = true) rs ->
  is_nan (today_total rs) = false.
Proof.
  intros H. unfold today_total, sum_floats. apply fold_fadd_not_nan; [ reflexivity | ].
  now rewrite Forall_map.
Qed.

Lemma keys_In_dict {V} (d : dict V) (k : string) :
  In k (map fst d) -> exists v, In (k, v) d.
Proof.
  rewrite in_map_iff. intros ([k' v] & Hk & Hin). simpl in Hk. subst. eauto.
Qed.

Lemma sku_rows_labels (st : AggState) (rws : list row) :
  sku_rows st = Ok rws -> map (hd "") rws = map fst (sorted_sku st).
Proof.
  unfold sku_rows. generalize (sorted_sku st) as l. intros l; revert rws.
  induction l as [| item t IH]; simpl; intros rws H.
  - now inversion H.
  - inv_bind H. inv_bind H. inversion H; subst. simpl. f_equal; [ | now apply IH ].
    unfold sku_row in E. inv_bind E. now inversion E.
Qed.

Lemma str_take_length (n : nat) (s : string) :
  String.length (str_take n s) = Nat.min n (String.length s).
Proof.
  revert s; induction n as [| n IH]; intros s; [ reflexivity | ].
  destruct s as [| c t]; simpl; [ reflexivity | now rewrite IH ].
Qed.

(** C4. The service name is cut to its first 45 characters before it is
    used as a key and as a label: two records whose names agree on those
    characters fall under one key of the service-wide view, the key has one
    entry and one row, and that entry holds the sums over all the records of
    the key, these two among them. *)
Theorem truncated_service_names_merge (rs : list BillingRow) (ie : option string)
  (st : AggState) (r1 r2 : BillingRow) :
  aggregate (QueryRows rs ie) = Ok st ->
  In r1 rs -> In r2 rs ->
  str_take 45 (service_name r1) = str_take 45 (service_name r2) ->
  let k := str_take 45 (service_name r1) in
  String.length k <= 45 /\
  In r1 (of_service k rs) /\ In r2 (of_service k rs) /\
  NoDup (map fst (sku_agg st)) /\
  dict_get k (sku_agg st)
  = Some {| yesterday := today_total (of_service k rs);
            day_before := previous_total (of_service k rs) |} /\
  (forall rws, sku_rows st = Ok rws ->
     NoDup (map (hd "") rws) /\
     exists shown, In [k; fmt2 (today_total (of_service k rs)); shown] rws) /\
  (forall p data, In (p, data) (projects st) ->
     mapM detail_row (of_project p rs) = Ok (rows data)).
Proof.
  intros Hagg H1 H2 Hk k.
  destruct (aggregate_spec _ _ _ Hagg) as (_ & _ & Hkeys & Hsku & _ & _ & _ & Hproj).
  assert (Hnd : NoDup (map fst (sku_agg st))).
  { rewrite Hkeys. apply first_seen_NoDup. }
  assert (Hin : exists v, In (k, v) (sku_agg st)).
  { apply keys_In_dict. rewrite Hkeys. apply first_seen_In.
    apply in_map_iff. exists r1. split; [ reflexivity | exact H1 ]. }
  destruct Hin as [v Hv]. pose proof (Hsku _ _ Hv) as Hval.
  split; [ unfold k; rewrite str_take_length; lia | ].
  split; [ apply filter_In; split; [ exact H1 | apply String.eqb_refl ] | ].
  split.
  { apply filter_In. split; [ exact H2 | ].
    unfold service_key. rewrite <- Hk. apply String.eqb_refl. }
  split; [ exact Hnd | ].
  split; [ rewrite <- Hval; now apply dict_In_get | ].
  split.
  - intros rws Hrows. split.
    + rewrite (sku_rows_labels _ _ Hrows).
      eapply Permutation_NoDup; [ | exact Hnd ].
      apply Permutation_map. symmetry. apply sorted_desc_perm.
    + apply sorted_sku_In in Hv.
      destruct (mapM_In_fwd _ _ _ _ Hrows Hv) as (r & Hr & Hin).
      unfold sku_row in Hr. simpl in Hr. inv_bind Hr. inversion Hr; subst r.
      exists v0. rewrite Hval in Hin. exact Hin.
  - intros p data Hin. now apply Hproj.
Qed.

(** C5. When the costs are finite numbers, the rows of the service-wide
    table follow the sorted keys one by one, each key's today-cost is at
    least the today-cost of every key after it, and among keys of equal
    today-cost the order is the order in which the keys were first seen in
    the input. *)
Theorem sku_rows_descending_stable (rs : list BillingRow) (ie : option string)
  (st : AggState) (rws : list row) :
  Forall (fun r => is_finite (yesterday_cost r) = true) rs ->
  aggregate (QueryRows rs ie) = Ok st ->
  sku_rows st = Ok rws ->
  Forall2 (fun item r =>
             exists shown, r = [fst item; fmt2 (yesterday (snd item)); shown])
          (sorted_sku st) rws /\
  StronglySorted (fun a b => fle (yesterday (snd b)) (yesterday (snd a)) = true)
                 (sorted_sku st) /\
  Permutation (sorted_sku st) (sku_agg st) /\
  map fst (sku_agg st) = first_seen (map service_key rs) /\
  (forall v, filter (fun item => feq (yesterday (snd item)) v) (sorted_sku st)
             = filter (fun item => feq (yesterday (snd item)) v) (sku_agg st)).
Proof.
  intros Hfin Hagg Hrows.
  destruct (aggregate_spec _ _ _ Hagg) as (_ & _ & Hkeys & Hsku & _).
  split.
  { apply mapM_Forall2 in Hrows. eapply Forall2_impl; [ | exact Hrows ].
    intros item r Hr. unfold sku_row in Hr. inv_bind Hr. inversion Hr; subst. eauto. }
  split.
  { apply sorted_desc_sorted. apply Forall_forall. intros [k v] Hin.
    rewrite (Hsku _ _ Hin). simpl. apply today_total_not_nan.
    now apply Forall_filter. }
  split; [ apply sorted_desc_perm | ].
  split; [ exact Hkeys | ].
  intros v. apply sorted_desc_stable.
Qed.

(** ** Detail rows and the TOTAL row of a project *)

Lemma project_rows_Forall2 (st : AggState) (rws : list row) :
  project_rows st = Ok rws ->
  Forall2 (fun item r =>
             exists shown,
               delta_of_totals (pt_total_yesterday (snd item))
                 (pt_total_day_before (snd item)) = Ok shown /\
               r = [fst item; fmt2 (pt_total_yesterday (snd item)); shown])
          (sorted_projects st) rws.
Proof.
  intros H. apply mapM_Forall2 in H. eapply Forall2_impl; [ | exact H ].
  intros item r Hr. unfold project_row in Hr. inv_bind Hr. inversion Hr; subst. eauto.
Qed.

Lemma sku_rows_Forall2 (st : AggState) (rws : list row) :
  sku_rows st = Ok rws ->
  Forall2 (fun item r =>
             exists shown,
               delta_of_totals (yesterday (snd item)) (day_before (snd item)) = Ok shown /\
               r = [fst item; fmt2 (yesterday (snd item)); shown])
          (sorted_sku st) rws.
Proof.
  intros H. apply mapM_Forall2 in H. eapply Forall2_impl; [ | exact H ].
  intros item r Hr. unfold sku_row in Hr. inv_bind Hr. inversion Hr; subst. eauto.
Qed.

Lemma Forall2_In_l {A B} (P Q : A -> B -> Prop) (l : list A) (l' : list B) :
  (forall x y, In x l -> P x y -> Q x y) -> Forall2 P l l' -> Forall2 Q l l'.
Proof.
  intros H HF. induction HF as [| x y t t' Hxy HF IH]; constructor.
  - apply H; [ now left | exact Hxy ].
  - apply IH. intros a b Ha. apply H. now right.
Qed.

Lemma Forall2_In_r {A B} (P : A -> B -> Prop) (l : list A) (l' : list B) (y : B) :
  Forall2 P l l' -> In y l' -> exists x, In x l /\ P x y.
Proof.
  intros HF. induction HF as [| a b t t' Hab _ IH]; intros Hin; [ destruct Hin | ].
  destruct Hin as [<- | Hin].
  - exists a. split; [ now left | exact Hab ].
  - destruct (IH Hin) as (x & Hx & HP). exists x. split; [ now right | exact HP ].
Qed.

Lemma delta_of_totals_from_sums (t p : float) (shown : string) :
  delta_of_totals t p = Ok shown -> delta_from_sums t p shown.
Proof.
  unfold delta_of_totals, delta_from_sums.
  destruct (fgt p (float_of_int 0)); intros H.
  - inv_bind H. inv_bind H. inversion H; subst. eauto.
  - now inversion H.
Qed.

(** The summary line of a table of three columns, cell by cell. *)
Lemma overall_line_text (h : list string) (ws : list nat) (l c d ol : string) :
  List.length h = 3 ->
  overall_line_of h ws l c d = Ok ol ->
  ol = (ljust l (nth 0 ws 0) ^^ "  " ^^ rjust c (nth 1 ws 0))
       ^^ "  " ^^ rjust d (nth 2 ws 0).
Proof.
  unfold overall_line_of, list_get. intros Hh. rewrite Hh.
  destruct ws as [| w0 [| w1 [| w2 t]]]; cbn [nth_error bind Nat.ltb Nat.leb nth];
    intros H; try discriminate H.
  now injection H as <-.
Qed.

(** The text of a thread table is its lines joined by newlines. *)
Lemma proj_table_text_of_lines (data : ProjectData) (lines : list string) :
  proj_table_lines data = Ok lines -> proj_table_text data = Ok (join nl lines).
Proof.
  unfold proj_table_text, build_table, proj_table_lines. intros Hlines.
  destruct (delta_of_totals (total_yesterday data) (total_day_before data));
    simpl in *; [ | discriminate ].
  destruct (proj_rows_of data); simpl in *; [ | discriminate ].
  now rewrite Hlines.
Qed.

(** The thread table of a project, line by line: the summary line stands
    last and is written from the two sums over the records of the project. *)
Lemma proj_table_lines_shape (rs : list BillingRow) (ie : option string)
  (st : AggState) (p : string) (data : ProjectData) (lines : list string) :
  aggregate (QueryRows rs ie) = Ok st ->
  In (p, data) (projects st) ->
  proj_table_lines data = Ok lines ->
  exists prs ws hl shown dstr,
    proj_rows_of data = Ok prs /\
    ws = widths_over sku_headers prs /\
    delta_from_sums (today_total (of_project p rs))
      (previous_total (of_project p rs)) dstr /\
    mapM (data_line ws) (firstn 30 prs) = Ok shown /\
    lines = hl :: separator_of ws :: shown
            ++ [separator_of ws;
                (ljust "TOTAL" (nth 0 ws 0) ^^ "  "
                 ^^ rjust (fmt2 (today_total (of_project p rs))) (nth 1 ws 0))
                ^^ "  " ^^ rjust dstr (nth 2 ws 0)].
Proof.
  intros Hagg Hin Hlines.
  destruct (aggregate_spec _ _ _ Hagg) as (_ & _ & _ & _ & _ & _ & _ & Hproj).
  destruct (Hproj _ _ Hin) as (_ & Hty & Htd).
  unfold proj_table_lines in Hlines. inv_bind Hlines. inv_bind Hlines.
  rename v into dstr, v0 into prs.
  destruct (table_lines_shape _ _ _ _ _ _ Hlines)
    as (ws & hl & shown & ol & Hw & _ & Hd & Ho & ->).
  apply col_widths_spec in Hw.
  apply overall_line_text in Ho; [ | reflexivity ].
  rewrite Hty, Htd in E. rewrite Hty in Ho.
  exists prs, ws, hl, shown, dstr.
  split; [ exact E0 | ]. split; [ exact Hw | ].
  split; [ now apply delta_of_totals_from_sums | ].
  split; [ exact Hd | ]. now rewrite Ho.
Qed.

(** C6. A detail row carries the delta of its own record: [N/A] when the
    record has none, the integer of it followed by [%] otherwise, whatever
    the totals are; the thread table shows these rows, reordered.  Every
    aggregate delta (service-wide rows, project-wide rows, the overall
    summary, the TOTAL line of a project) is the delta that the summed today
    and previous costs of the contributing records give: [N/A] unless the
    previous sum is greater than zero, and then the rounded quotient of the
    two sums followed by [%], in which no record's own delta takes part. *)
Theorem detail_delta_from_record (rs : list BillingRow) (ie : option string)
  (st : AggState) :
  aggregate (QueryRows rs ie) = Ok st ->
  (forall p data, In (p, data) (projects st) ->
     Forall2 (fun r dr =>
                exists shown,
                  dr = [service_key r; fmt2 (yesterday_cost r); shown] /\
                  match delta_percentage r with
                  | None => shown = "N/A"
                  | Some d => exists z, py_int d = Ok z /\ shown = str_of_int z ^^ "%"
                  end)
             (of_project p rs) (rows data) /\
     (forall shown_rows, proj_rows_of data = Ok shown_rows ->
        Permutation shown_rows (rows data)) /\
     (forall lines, proj_table_lines data = Ok lines ->
        proj_table_text data = Ok (join nl lines) /\
        exists prs shown,
          proj_rows_of data = Ok prs /\
          delta_from_sums (today_total (of_project p rs))
            (previous_total (of_project p rs)) shown /\
          last lines ""
          = (ljust "TOTAL" (nth 0 (widths_over sku_headers prs) 0) ^^ "  "
             ^^ rjust (fmt2 (today_total (of_project p rs)))
                  (nth 1 (widths_over sku_headers prs) 0))
            ^^ "  " ^^ rjust shown (nth 2 (widths_over sku_headers prs) 0))) /\
  (forall rws, sku_rows st = Ok rws ->
     Forall2 (fun item r =>
                exists shown,
                  delta_from_sums (today_total (of_service (fst item) rs))
                    (previous_total (of_service (fst item) rs)) shown /\
                  r = [fst item; fmt2 (today_total (of_service (fst item) rs)); shown])
             (sorted_sku st) rws) /\
  (forall rws, project_rows st = Ok rws ->
     Forall2 (fun item r =>
                exists shown,
                  delta_from_sums (today_total (of_project (fst item) rs))
                    (previous_total (of_project (fst item) rs)) shown /\
                  r = [fst item; fmt2 (today_total (of_project (fst item) rs)); shown])
             (sorted_projects st) rws) /\
  overall_cost_str st = fmt2 (today_total rs) /\
  (forall shown, overall_delta_str st = Ok shown ->
     delta_from_sums (today_total rs) (previous_total rs) shown).
Proof.
  intros Hagg.
  destruct (aggregate_spec _ _ _ Hagg) as (Hy & Hd & _ & Hsku & _ & Htot & _ & Hproj).
  split; [ | split; [ | split; [ | split ] ] ].
  - intros p data Hin. destruct (Hproj _ _ Hin) as (Hrows & Hty & Htd).
    split; [ | split ].
    + apply mapM_Forall2 in Hrows. eapply Forall2_impl; [ | exact Hrows ].
      intros r dr Hr. unfold detail_row, record_delta_str in Hr.
      destruct (delta_percentage r) as [d |]; simpl in Hr.
      * inv_bind Hr. inv_bind E. inversion E; subst. inversion Hr; subst. eauto.
      * inversion Hr; subst. eauto.
    + intros shown_rows Hs. eapply sorted_desc_r_perm. exact Hs.
    + intros lines Hlines. split; [ now apply proj_table_text_of_lines | ].
      destruct (proj_table_lines_shape _ _ _ _ _ _ Hagg Hin Hlines)
        as (prs & ws & hl & shown & dstr & Hprs & -> & Hdelta & _ & ->).
      exists prs, dstr. split; [ exact Hprs | ]. split; [ exact Hdelta | ].
      match goal with
      | |- last (?a :: ?b :: ?c ++ [?d; ?x]) _ = _ =>
          replace (a :: b :: c ++ [d; x]) with ((a :: b :: c ++ [d]) ++ [x])
            by (simpl; rewrite <- app_assoc; reflexivity)
      end.
      now rewrite last_last.
  - intros rws Hrows. apply sku_rows_Forall2 in Hrows.
    eapply Forall2_In_l; [ | exact Hrows ].
    intros [k v] r Hin (shown & Hdelta & ->). simpl in *.
    apply sorted_sku_In in Hin. rewrite (Hsku _ _ Hin) in *. simpl in *.
    exists shown. split; [ now apply delta_of_totals_from_sums | reflexivity ].
  - intros rws Hrows. apply project_rows_Forall2 in Hrows.
    eapply Forall2_In_l; [ | exact Hrows ].
    intros [p t] r Hin (shown & Hdelta & ->). simpl in *.
    apply sorted_projects_In in Hin. rewrite (Htot _ _ Hin) in *. simpl in *.
    exists shown. split; [ now apply delta_of_totals_from_sums | reflexivity ].
  - unfold overall_cost_str. now rewrite Hy.
  - intros shown Ho. unfold overall_delta_str in Ho. rewrite Hy, Hd in Ho.
    now apply delta_of_totals_from_sums.
Qed.

(** C10. The TOTAL line of a project's thread table is written from the sums
    over all the records of the project, while the table shows at most 30 of
    them: the line is the label [TOTAL], the sum of today's costs of all the
    records with two decimals, and the delta that the two sums give, each
    padded to its column, and it stands last, after the separator. *)
Theorem project_total_over_all_records (rs : list BillingRow) (ie : option string)
  (st : AggState) (p : string) (data : ProjectData) (lines : list string) :
  aggregate (QueryRows rs ie) = Ok st ->
  In (p, data) (projects st) ->
  proj_table_lines data = Ok lines ->
  total_yesterday data = today_total (of_project p rs) /\
  total_day_before data = previous_total (of_project p rs) /\
  List.length (rows data) = List.length (of_project p rs) /\
  proj_table_text data = Ok (join nl lines) /\
  exists prs ws hl shown dstr,
    proj_rows_of data = Ok prs /\
    Permutation prs (rows data) /\
    ws = widths_over sku_headers prs /\
    delta_from_sums (today_total (of_project p rs))
      (previous_total (of_project p rs)) dstr /\
    List.length shown = Nat.min 30 (List.length (of_project p rs)) /\
    lines = hl :: separator_of ws :: shown
            ++ [separator_of ws;
                (ljust "TOTAL" (nth 0 ws 0) ^^ "  "
                 ^^ rjust (fmt2 (today_total (of_project p rs))) (nth 1 ws 0))
                ^^ "  " ^^ rjust dstr (nth 2 ws 0)].
Proof.
  intros Hagg Hin Hlines.
  destruct (aggregate_spec _ _ _ Hagg) as (_ & _ & _ & _ & _ & _ & _ & Hproj).
  destruct (Hproj _ _ Hin) as (Hrows & Hty & Htd).
  pose proof (mapM_length _ _ _ Hrows) as Hlen.
  split; [ exact Hty | ]. split; [ exact Htd | ]. split; [ exact Hlen | ].
  split; [ now apply proj_table_text_of_lines | ].
  destruct (proj_table_lines_shape _ _ _ _ _ _ Hagg Hin Hlines)
    as (prs & ws & hl & shown & dstr & Hprs & Hws & Hdelta & Hshown & ->).
  pose proof (sorted_desc_r_perm _ _ _ Hprs) as Hperm.
  exists prs, ws, hl, shown, dstr.
  split; [ exact Hprs | ]. split; [ exact Hperm | ]. split; [ exact Hws | ].
  split; [ exact Hdelta | ]. split; [ | reflexivity ].
  apply mapM_length in Hshown. rewrite Hshown, length_firstn.
  apply Permutation_length in Hperm. rewrite Hperm, Hlen. reflexivity.
Qed.

(** ** Runs of [get_gcp_cost] *)

Lemma thread_loop_ok (snk : Sink) (main_ts : option string)
  (items : list (string * ProjectData)) (trace trace' : list SendCall) (u : unit) :
  thread_loop snk main_ts items trace = (Ok u, trace') ->
  exists replies,
    trace' = trace ++ replies /\ Forall2 (is_reply_for main_ts) items replies.
Proof.
  revert trace; induction items as [| item t IH]; simpl; intros trace H.
  - inversion H; subst. exists []. rewrite app_nil_r. split; constructor.
  - destruct (thread_blocks item) as [bs | msg] eqn:Eb; [ | discriminate ].
    apply IH in H. destruct H as (replies & -> & HF).
    exists ({| blocks := bs; fallback_text := default_fallback; thread_ts := main_ts |}
              :: replies).
    split; [ now rewrite <- app_assoc | ].
    constructor; [ | exact HF ]. repeat split. exact Eb.
Qed.

Lemma agg_loop_raises (rs : list BillingRow) (st : AggState) (r : BillingRow)
  (m : string) :
  In r rs -> record_delta_str r = Raise m -> exists m', agg_loop st rs = Raise m'.
Proof.
  revert st; induction rs as [| x t IH]; simpl; intros st Hin Hr; [ destruct Hin | ].
  destruct (agg_step st x) as [st' | m'] eqn:Hstep; simpl; [ | eauto ].
  destruct Hin as [-> | Hin]; [ | now apply IH ].
  apply agg_step_ok in Hstep. destruct Hstep as [Hok _]. congruence.
Qed.

Lemma agg_loop_raise_message (rs : list BillingRow) (st : AggState) (m : string) :
  agg_loop st rs = Raise m ->
  m = "cannot convert float NaN to integer" \/
  m = "cannot convert float infinity to integer".
Proof.
  revert st; induction rs as [| x t IH]; simpl; intros st H; [ discriminate | ].
  destruct (agg_step st x) as [st' | m'] eqn:Hstep; simpl in H; [ now apply IH with st' | ].
  inversion H; subst. unfold agg_step in Hstep.
  destruct (record_delta_str x) as [ds | m''] eqn:Hd; simpl in Hstep; [ discriminate | ].
  inversion Hstep; subst. unfold record_delta_str in Hd.
  destruct (delta_percentage x) as [d |]; [ | discriminate ].
  destruct d as [s | s | | s mm ee]; simpl in Hd; inversion Hd; auto.
Qed.

(** The loop over the result goes through when [int] converts every delta. *)
Lemma agg_loop_total (rs : list BillingRow) (st : AggState) :
  Forall (fun r => delta_is_finite r = true) rs -> exists st', agg_loop st rs = Ok st'.
Proof.
  intros H. revert st; induction H as [| r t Hr _ IH]; intros st; simpl; [ eauto | ].
  assert (Hd : exists s, record_delta_str r = Ok s).
  { unfold record_delta_str. unfold delta_is_finite in Hr.
    destruct (delta_percentage r) as [d |]; [ | eauto ].
    destruct d as [s | s | | s mm ee]; simpl in *; try discriminate; eauto. }
  destruct Hd as [s Hs]. unfold agg_step. rewrite Hs. cbn [bind]. apply IH.
Qed.

(** The text of the exception with which a failing data source leaves the
    aggregation. *)
Lemma aggregate_raise_message (q : QueryOutcome) :
  query_fails q ->
  exists msg,
    aggregate q = Raise msg /\
    (forall m, q = QueryRaises m -> msg = m) /\
    (forall rs m, q = QueryRows rs (Some m) ->
       (Forall (fun r => delta_is_finite r = true) rs -> msg = m) /\
       (msg = m \/
        msg = "cannot convert float NaN to integer" \/
        msg = "cannot convert float infinity to integer")).
Proof.
  destruct q as [msg | rs [msg |]]; simpl; intros H; [ | | destruct H ].
  - exists msg. split; [ reflexivity | ]. split; [ congruence | discriminate ].
  - destruct (agg_loop agg_init rs) as [st | msg'] eqn:Hloop; simpl.
    + exists msg. split; [ reflexivity | ]. split; [ discriminate | ].
      intros rs' m Heq. inversion Heq; subst. auto.
    + exists msg'. split; [ reflexivity | ]. split; [ discriminate | ].
      intros rs' m Heq. inversion Heq; subst. split.
      * intros Hfin. destruct (agg_loop_total rs' agg_init Hfin) as [st Hst]. congruence.
      * right. now apply agg_loop_raise_message with rs' agg_init.
Qed.

Lemma raising_report_fails (e : Env) (snk : Raising.Sink) (msg : string) :
  aggregate (query e) = Raise msg -> Raising.report e snk [] = (Raise msg, []).
Proof.
  intros H. unfold Raising.report. rewrite H. reflexivity.
Qed.

(** What the second [except] branch does when nothing was sent before. *)
Lemma raising_query_error_run (e : Env) (snk : Raising.Sink) (u : unit) (msg : string) :
  credentials e = Ok u ->
  aggregate (query e) = Raise msg ->
  Raising.get_gcp_cost e snk
  = (match snk [] {| blocks := [SectionBlock ("Error executing BigQuery query: " ^^ msg)];
                     fallback_text := "Error executing BigQuery query: " ^^ msg;
                     thread_ts := None |} with
     | Ok _ => Ok "Error"
     | Raise x => Raise x
     end,
     [ {| blocks := [SectionBlock ("Error executing BigQuery query: " ^^ msg)];
          fallback_text := "Error executing BigQuery query: " ^^ msg;
          thread_ts := None |} ]).
Proof.
  intros Hc Hagg. unfold Raising.get_gcp_cost.
  rewrite Hc, (raising_report_fails _ _ _ Hagg).
  unfold Raising.send_slack_message. cbn [app].
  destruct (snk [] _); reflexivity.
Qed.

(** C8, as the code has it.  When the query raises, or the iteration over
    its result does, nothing is sent but one error message: a section block
    and a fallback text that read [Error executing BigQuery query: ] followed
    by the text of the exception, outside any thread.  The entry point
    returns [Error] when that send returns; when the send raises, its
    exception leaves the entry point. *)
Theorem query_failure_reports_error (e : Env) (snk : Raising.Sink) :
  credentials e = Ok tt ->
  query_fails (query e) ->
  exists msg,
    (forall m, query e = QueryRaises m -> msg = m) /\
    (forall rs m, query e = QueryRows rs (Some m) ->
       (Forall (fun r => delta_is_finite r = true) rs -> msg = m) /\
       (msg = m \/
        msg = "cannot convert float NaN to integer" \/
        msg = "cannot convert float infinity to integer")) /\
    Raising.get_gcp_cost e snk
    = (match snk [] {| blocks := [SectionBlock ("Error executing BigQuery query: " ^^ msg)];
                       fallback_text := "Error executing BigQuery query: " ^^ msg;
                       thread_ts := None |} with
       | Ok _ => Ok "Error"
       | Raise x => Raise x
       end,
       [ {| blocks := [SectionBlock ("Error executing BigQuery query: " ^^ msg)];
            fallback_text := "Error executing BigQuery query: " ^^ msg;
            thread_ts := None |} ]).
Proof.
  intros Hc Hq.
  destruct (aggregate_raise_message _ Hq) as (msg & Hagg & Hraise & Hiter).
  exists msg. split; [ exact Hraise | ]. split; [ exact Hiter | ].
  now apply raising_query_error_run with tt.
Qed.

(** C8, as the claim has it, fails when the send of the error message
    raises: the query below is refused, the message goes to a user id, and
    [conversations.open] answers [ok] without a channel id.  The one send is
    attempted and its [KeyError] leaves the entry point, which returns
    nothing. *)
Lemma error_send_raises :
  credentials env_query_raises = Ok tt /\
  query_fails (query env_query_raises) /\
  Raising.get_gcp_cost env_query_raises (Raising.api_sink keyless_api "U0123")
  = (Raise "'channel'",
     [ {| blocks := [SectionBlock "Error executing BigQuery query: 403 Access Denied"];
          fallback_text := "Error executing BigQuery query: 403 Access Denied";
          thread_ts := None |} ]) /\
  fst (Raising.get_gcp_cost env_query_raises (Raising.api_sink keyless_api "U0123"))
  <> Ok "Error".
Proof.
  split; [ reflexivity | ]. split; [ exact I | ].
  split; [ vm_compute; reflexivity | vm_compute; discriminate ].
Qed.

(** ** The two embeddings of the entry point *)

Lemma returning_thread_loop (snk : Sink) (rsnk : Raising.Sink)
  (main_ts : option string) (items : list (string * ProjectData))
  (trace : list SendCall) :
  (forall tr c, rsnk tr c = Ok (snk tr c)) ->
  Raising.thread_loop rsnk main_ts items trace = thread_loop snk main_ts items trace.
Proof.
  intros H. revert trace; induction items as [| item t IH]; intros trace; simpl;
    [ reflexivity | ].
  destruct (thread_blocks item) as [bs | m]; [ | reflexivity ].
  unfold Raising.send_slack_message. rewrite H. apply IH.
Qed.

Lemma returning_sink_run_ext (e : Env) (rsnk : Raising.Sink) :
  (forall tr c, rsnk tr c = Ok (sink e tr c)) ->
  Raising.get_gcp_cost e rsnk = (Ok (fst (get_gcp_cost e)), snd (get_gcp_cost e)).
Proof.
  intros H. unfold Raising.get_gcp_cost, get_gcp_cost.
  destruct (credentials e) as [u | m].
  - unfold Raising.report, report.
    destruct (aggregate (query e)) as [st | m]; cbn [bind].
    + destruct (main_blocks e st) as [bs | m]; cbn [bind].
      * unfold Raising.send_slack_message, send_slack_message. rewrite H.
        destruct (SEND_THREAD_DETAILS e).
        -- rewrite (returning_thread_loop (sink e)) by exact H.
           destruct (thread_loop (sink e) _ _ _) as [[u' | m] tr]; [ reflexivity | ].
           rewrite H. reflexivity.
        -- reflexivity.
      * unfold Raising.send_slack_message, send_slack_message. rewrite H. reflexivity.
    + unfold Raising.send_slack_message, send_slack_message. rewrite H. reflexivity.
  - unfold Raising.send_slack_message, send_slack_message. rewrite H. reflexivity.
Qed.

(** On a sink whose calls all return, the entry point that follows the
    exceptions of the sends does what [get_gcp_cost] does. *)
Lemma returning_sink_run (e : Env) :
  Raising.get_gcp_cost e (Raising.returning (sink e))
  = (Ok (fst (get_gcp_cost e)), snd (get_gcp_cost e)).
Proof.
  apply returning_sink_run_ext. reflexivity.
Qed.

Lemma get_gcp_cost_success (e : Env) (trace : list SendCall) :
  get_gcp_cost e = ("Success", trace) -> exists u, report e [] = (Ok u, trace).
Proof.
  unfold get_gcp_cost. destruct (credentials e); [ | discriminate ].
  destruct (report e []) as [[u | msg] tr]; [ | discriminate ].
  intros H. inversion H; subst. eauto.
Qed.

Lemma total_yesterday_not_nan (rs : list BillingRow) (ie : option string)
  (st : AggState) :
  Forall (fun r => is_finite (yesterday_cost r) = true) rs ->
  aggregate (QueryRows rs ie) = Ok st ->
  Forall (fun item => is_nan (total_yesterday (snd item)) = false) (projects st).
Proof.
  intros Hfin Hagg.
  destruct (aggregate_spec _ _ _ Hagg) as (_ & _ & _ & _ & _ & _ & _ & Hproj).
  apply Forall_forall. intros [p data] Hin. simpl.
  destruct (Hproj _ _ Hin) as (_ & -> & _).
  apply today_total_not_nan. now apply Forall_filter.
Qed.

(** C9, as the code has it.  In a run that returns [Success] the first call
    to the sink is the anchor message, and every later call is a reply that
    carries the timestamp the sink gave for the anchor.  With thread details
    enabled there is one reply for each project, in descending order of the
    project's today-cost total, whatever the sink answers to each of them;
    with thread details disabled there is none. *)
Theorem anchor_then_thread_replies (e : Env) (rs : list BillingRow)
  (ie : option string) (trace : list SendCall) :
  query e = QueryRows rs ie ->
  Forall (fun r => is_finite (yesterday_cost r) = true) rs ->
  get_gcp_cost e = ("Success", trace) ->
  exists st main_bs replies,
    aggregate (query e) = Ok st /\
    main_blocks e st = Ok main_bs /\
    trace = anchor_call main_bs :: replies /\
    (SEND_THREAD_DETAILS e = false -> replies = []) /\
    (SEND_THREAD_DETAILS e = true ->
       Forall2 (is_reply_for (sink e [] (anchor_call main_bs)))
               (sorted_projects_by_cost st) replies /\
       Permutation (map fst (sorted_projects_by_cost st))
                   (first_seen (map project_id rs)) /\
       NoDup (map fst (sorted_projects_by_cost st)) /\
       StronglySorted
         (fun a b => fle (total_yesterday (snd b)) (total_yesterday (snd a)) = true)
         (sorted_projects_by_cost st)).
Proof.
  intros Hq Hfin Hrun. apply get_gcp_cost_success in Hrun. destruct Hrun as [u Hrun].
  unfold report in Hrun.
  destruct (aggregate (query e)) as [st | msg] eqn:Hagg; simpl in Hrun;
    [ | inversion Hrun ].
  destruct (main_blocks e st) as [bs | msg] eqn:Hbs; simpl in Hrun; [ | inversion Hrun ].
  fold (anchor_call bs) in Hrun.
  rewrite Hq in Hagg.
  destruct (aggregate_spec _ _ _ Hagg) as (_ & _ & _ & _ & _ & _ & Hkeys & _).
  assert (Hperm : Permutation (map fst (sorted_projects_by_cost st))
                              (first_seen (map project_id rs))).
  { rewrite <- Hkeys. apply Permutation_map, sorted_desc_perm. }
  destruct (SEND_THREAD_DETAILS e) eqn:Hd.
  - apply thread_loop_ok in Hrun. destruct Hrun as (replies & -> & HF).
    exists st, bs, replies. repeat split; try assumption; try discriminate.
    + eapply Permutation_NoDup; [ symmetry; exact Hperm | apply first_seen_NoDup ].
    + apply sorted_desc_sorted. eapply total_yesterday_not_nan; eauto.
  - inversion Hrun; subst. exists st, bs, []. repeat split; try assumption; discriminate.
Qed.

(** C7, as the code has it.  With no input record the two renderings are
    four lines each: header, separator, separator, and the summary row with
    cost [0.00] and delta [N/A].  The message carries the service-wide table
    whole; the project breakdown, when enabled, carries the project table
    without its last two lines, that is the header and one separator; no
    thread message is sent. *)
Theorem empty_input_report (breakdown details : bool) (date : string) (snk : Sink) :
  let e := {| SEND_PROJECT_BREAKDOWN := breakdown; SEND_THREAD_DETAILS := details;
              cost_date := date; credentials := Ok tt;
              query := QueryRows [] None; sink := snk |} in
  aggregate (query e) = Ok agg_init /\
  sku_table_text agg_init = Ok (join nl empty_sku_lines) /\
  project_table_text_full agg_init = Ok (join nl empty_project_lines) /\
  project_table_text agg_init = Ok (join nl (firstn 2 empty_project_lines)) /\
  get_gcp_cost e
  = ("Success",
     [anchor_call
        ([ContextBlock ("*Date:* " ^^ date); code_block (join nl empty_sku_lines)]
         ++ (if breakdown
             then [code_block (join nl (firstn 2 empty_project_lines))]
             else []))]).
Proof.
  intros e. unfold e.
  split; [ reflexivity | ]. split; [ vm_compute; reflexivity | ].
  split; [ vm_compute; reflexivity | ]. split; [ vm_compute; reflexivity | ].
  destruct breakdown, details; reflexivity.
Qed.

(** C7, as the claim has it, fails when the project breakdown is enabled:
    the report of an empty input then carries a second table of two lines,
    without a summary row. *)
Lemma empty_breakdown_has_two_line_table :
  report_tables (snd (get_gcp_cost env_empty_breakdown))
  = [empty_sku_lines; ["Project  Cost  Delta"; "--------------------"]] /\
  ~ Forall (fun t => List.length t = 4)
      (report_tables (snd (get_gcp_cost env_empty_breakdown))).
Proof.
  split; [ vm_compute; reflexivity | ].
  vm_compute. intros H. inversion H as [| ? ? _ H2]; subst.
  inversion H2 as [| ? ? H3 _]; subst. discriminate.
Qed.

(** C9, as the claim has it, fails when thread details are disabled, which
    is the default: the run below succeeds on two projects and makes one call
    to the sink, the anchor, and no reply. *)
Lemma no_replies_without_thread_details :
  fst (get_gcp_cost env_details_off) = "Success" /\
  List.length (first_seen (map project_id two_projects)) = 2 /\
  List.length (snd (get_gcp_cost env_details_off)) = 1 /\
  Forall (fun call => thread_ts call = None) (snd (get_gcp_cost env_details_off)).
Proof.
  split; [ vm_compute; reflexivity | ].
  split; [ vm_compute; reflexivity | ].
  split; [ vm_compute; reflexivity | ].
  vm_compute. repeat constructor.
Qed.

(** ** The theorems at the sample runs *)

Lemma aggregate_rows_delta_witness :
  Forall (fun r => nonneg_costs r = true) scenario_a /\
  aggregate (QueryRows scenario_a None) = Ok state_a /\
  (forall rws r, sku_rows state_a = Ok rws -> In r rws ->
     exists k shown,
       r = [k; fmt2 (today_total (of_service k scenario_a)); shown] /\
       aggregate_delta_rule (of_service k scenario_a) shown) /\
  (forall shown, overall_delta_str state_a = Ok shown ->
     overall_cost_str state_a = fmt2 (today_total scenario_a) /\
     aggregate_delta_rule scenario_a shown).
Proof.
  assert (H1 : Forall (fun r => nonneg_costs r = true) scenario_a)
    by (repeat constructor).
  assert (H2 : aggregate (QueryRows scenario_a None) = Ok state_a)
    by (vm_compute; reflexivity).
  split; [ exact H1 | ]. split; [ exact H2 | ].
  destruct (aggregate_rows_delta scenario_a None state_a H1 H2) as (Hs & _ & Ho).
  split; [ exact Hs | exact Ho ].
Defined.

Lemma truncated_service_names_merge_witness :
  service_name long_row_1 <> service_name long_row_2 /\
  dict_get (str_take 45 long_name_1) (sku_agg state_long_names)
  = Some {| yesterday := today_total [long_row_1; long_row_2];
            day_before := previous_total [long_row_1; long_row_2] |} /\
  NoDup (map (hd "") rows_long_names).
Proof.
  assert (Hagg : aggregate (QueryRows long_names None) = Ok state_long_names)
    by (vm_compute; reflexivity).
  assert (H1 : In long_row_1 long_names) by (left; reflexivity).
  assert (H2 : In long_row_2 long_names) by (right; right; left; reflexivity).
  assert (Hk : str_take 45 (service_name long_row_1)
               = str_take 45 (service_name long_row_2))
    by reflexivity.
  destruct (truncated_service_names_merge long_names None state_long_names
              long_row_1 long_row_2 Hagg H1 H2 Hk) as (_ & _ & _ & _ & Hget & Hrows & _).
  split; [ discriminate | ]. split; [ exact Hget | ].
  apply (Hrows rows_long_names). vm_compute. reflexivity.
Defined.

Lemma sku_rows_descending_stable_witness :
  Forall2 (fun item r =>
             exists shown, r = [fst item; fmt2 (yesterday (snd item)); shown])
          (sorted_sku state_long_names) rows_long_names /\
  StronglySorted (fun a b => fle (yesterday (snd b)) (yesterday (snd a)) = true)
                 (sorted_sku state_long_names).
Proof.
  assert (Hfin : Forall (fun r => is_finite (yesterday_cost r) = true) long_names)
    by (repeat constructor).
  assert (Hagg : aggregate (QueryRows long_names None) = Ok state_long_names)
    by (vm_compute; reflexivity).
  assert (Hrows : sku_rows state_long_names = Ok rows_long_names)
    by (vm_compute; reflexivity).
  destruct (sku_rows_descending_stable long_names None state_long_names
              rows_long_names Hfin Hagg Hrows) as (HF & Hs & _).
  split; [ exact HF | exact Hs ].
Defined.

Lemma detail_delta_from_record_witness :
  rows data_small = [["Storage"; "5.00"; "25%"]] /\
  rows data_big = [["Compute Engine"; "120.00"; "20%"]; ["Storage"; "30.00"; "N/A"]] /\
  Forall2 (fun r dr =>
             exists shown,
               dr = [service_key r; fmt2 (yesterday_cost r); shown] /\
               match delta_percentage r with
               | None => shown = "N/A"
               | Some d => exists z, py_int d = Ok z /\ shown = str_of_int z ^^ "%"
               end)
          (of_project "big" two_projects)
          [["Compute Engine"; "120.00"; "20%"]; ["Storage"; "30.00"; "N/A"]] /\
  In ["Storage"; "35.00"; "775%"] rows_two_projects /\
  delta_from_sums (today_total (of_service "Storage" two_projects))
    (previous_total (of_service "Storage" two_projects)) "775%" /\
  In ["big"; "150.00"; "50%"] project_rows_two_projects /\
  delta_from_sums (today_total (of_project "big" two_projects))
    (previous_total (of_project "big" two_projects)) "50%" /\
  last lines_big "" = "TOTAL           150.00    50%" /\
  delta_from_sums (today_total two_projects) (previous_total two_projects) "49%".
Proof.
  assert (Hagg : aggregate (QueryRows two_projects None) = Ok state_two_projects)
    by (vm_compute; reflexivity).
  destruct (detail_delta_from_record two_projects None state_two_projects Hagg)
    as (Hd & Hs & Hp & _ & Ho).
  assert (Hbig : In ("big", data_big) (projects state_two_projects))
    by (right; left; reflexivity).
  assert (Hsku : sku_rows state_two_projects = Ok rows_two_projects)
    by (vm_compute; reflexivity).
  assert (Hprj : project_rows state_two_projects = Ok project_rows_two_projects)
    by (vm_compute; reflexivity).
  assert (Hrow : In ["Storage"; "35.00"; "775%"] rows_two_projects)
    by (right; left; reflexivity).
  assert (Hprow : In ["big"; "150.00"; "50%"] project_rows_two_projects)
    by (left; reflexivity).
  split; [ reflexivity | ]. split; [ reflexivity | ].
  split; [ exact (proj1 (Hd "big" data_big Hbig)) | ].
  split; [ exact Hrow | ]. split.
  { destruct (Forall2_In_r _ _ _ _ (Hs _ Hsku) Hrow) as (item & _ & shown & Hdelta & Heq).
    injection Heq as Hk _ Hshown. rewrite <- Hk, <- Hshown in Hdelta. exact Hdelta. }
  split; [ exact Hprow | ].
  assert (Hdelta_big : delta_from_sums (today_total (of_project "big" two_projects))
                         (previous_total (of_project "big" two_projects)) "50%").
  { destruct (Forall2_In_r _ _ _ _ (Hp _ Hprj) Hprow) as (item & _ & shown & Hdelta & Heq).
    injection Heq as Hk _ Hshown. rewrite <- Hk, <- Hshown in Hdelta. exact Hdelta. }
  split; [ exact Hdelta_big | ]. split.
  { assert (Hlines : proj_table_lines data_big = Ok lines_big) by (vm_compute; reflexivity).
    destruct (proj2 (proj2 (Hd "big" data_big Hbig)) lines_big Hlines)
      as (_ & prs & shown & Hprs & Hdelta & Hlast).
    assert (Hshown : shown = "50%").
    { unfold delta_from_sums in Hdelta, Hdelta_big.
      destruct (fgt (previous_total (of_project "big" two_projects)) (float_of_int 0)).
      - destruct Hdelta as (q & z & Hq & Hz & ->).
        destruct Hdelta_big as (q' & z' & Hq' & Hz' & ->).
        rewrite Hq in Hq'. injection Hq' as <-. rewrite Hz in Hz'. now injection Hz' as <-.
      - now rewrite Hdelta, Hdelta_big. }
    vm_compute in Hprs. injection Hprs as <-. subst shown. exact Hlast. }
  apply Ho. vm_compute. reflexivity.
Defined.

Lemma query_failure_reports_error_witness :
  Raising.get_gcp_cost env_iteration_fails (Raising.api_sink Http.friendly_api "C0123")
  = (Ok "Error",
     [ {| blocks := [SectionBlock "Error executing BigQuery query: connection reset"];
          fallback_text := "Error executing BigQuery query: connection reset";
          thread_ts := None |} ]).
Proof.
  destruct (query_failure_reports_error env_iteration_fails
              (Raising.api_sink Http.friendly_api "C0123") eq_refl I)
    as (msg & _ & Hiter & Hrun).
  destruct (Hiter scenario_a "connection reset" eq_refl) as [Hmsg _].
  assert (Hfin : Forall (fun r => delta_is_finite r = true) scenario_a)
    by (repeat constructor).
  rewrite (Hmsg Hfin) in Hrun. exact Hrun.
Defined.

Lemma anchor_then_thread_replies_witness :
  exists st main_bs replies,
    aggregate (query env_two_projects) = Ok st /\
    main_blocks env_two_projects st = Ok main_bs /\
    trace_two_projects = anchor_call main_bs :: replies /\
    (SEND_THREAD_DETAILS env_two_projects = false -> replies = []) /\
    (SEND_THREAD_DETAILS env_two_projects = true ->
       Forall2 (is_reply_for (sink env_two_projects [] (anchor_call main_bs)))
               (sorted_projects_by_cost st) replies /\
       Permutation (map fst (sorted_projects_by_cost st))
                   (first_seen (map project_id two_projects)) /\
       NoDup (map fst (sorted_projects_by_cost st)) /\
       StronglySorted
         (fun a b => fle (total_yesterday (snd b)) (total_yesterday (snd a)) = true)
         (sorted_projects_by_cost st)).
Proof.
  apply (anchor_then_thread_replies env_two_projects two_projects None trace_two_projects).
  - reflexivity.
  - repeat constructor.
  - vm_compute. reflexivity.
Defined.

Lemma project_total_over_all_records_witness :
  List.length (of_project "p1" (many_services 35)) = 35 /\
  total_yesterday data_many = today_total (of_project "p1" (many_services 35)) /\
  fmt2 (today_total (of_project "p1" (many_services 35))) = "35.00" /\
  delta_from_sums (today_total (of_project "p1" (many_services 35)))
    (previous_total (of_project "p1" (many_services 35))) "0%" /\
  exists hl shown,
    List.length shown = 30 /\
    lines_many = hl :: "------------------" :: shown
                 ++ ["------------------"; "TOTAL  35.00     0%"].
Proof.
  assert (Hagg : aggregate (QueryRows (many_services 35) None) = Ok state_many)
    by (vm_compute; reflexivity).
  assert (Hin : In ("p1", data_many) (projects state_many))
    by (left; reflexivity).
  assert (Hlines : proj_table_lines data_many = Ok lines_many)
    by (vm_compute; reflexivity).
  destruct (project_total_over_all_records (many_services 35) None state_many "p1"
              data_many lines_many Hagg Hin Hlines)
    as (Hty & _ & _ & _ & prs & ws & hl & shown & dstr & Hprs & _ & Hws & Hdelta
        & Hshown & Hshape).
  assert (Hd : dstr = "0%").
  { unfold delta_from_sums in Hdelta.
    assert (Hpos : fgt (previous_total (of_project "p1" (many_services 35)))
                     (float_of_int 0) = true)
      by (vm_compute; reflexivity).
    rewrite Hpos in Hdelta. destruct Hdelta as (q & z & Hq & Hz & ->).
    vm_compute in Hq. injection Hq as <-.
    vm_compute in Hz. injection Hz as <-. reflexivity. }
  vm_compute in Hprs. injection Hprs as <-. subst dstr ws.
  split; [ vm_compute; reflexivity | ]. split; [ exact Hty | ].
  split; [ vm_compute; reflexivity | ]. split; [ exact Hdelta | ].
  exists hl, shown. split; [ exact Hshown | exact Hshape ].
Defined.

(** ** The tables of the main message do not raise on their rows *)

Lemma three_cell_rows_well_formed (h1 h2 h3 : string) (rws : list row) :
  Forall (fun r => List.length r = 3) rws -> well_formed_table [h1; h2; h3] rws.
Proof.
  intros H. split; [ simpl; lia | exact H ].
Qed.

Lemma sku_rows_three_cells (st : AggState) (rws : list row) :
  sku_rows st = Ok rws -> Forall (fun r => List.length r = 3) rws.
Proof.
  intros H. apply sku_rows_Forall2 in H.
  induction H as [| item r t t' (shown & _ & ->) _ IH]; constructor; auto.
Qed.

Lemma project_rows_three_cells (st : AggState) (rws : list row) :
  project_rows st = Ok rws -> Forall (fun r => List.length r = 3) rws.
Proof.
  intros H. apply project_rows_Forall2 in H.
  induction H as [| item r t t' (shown & _ & ->) _ IH]; constructor; auto.
Qed.

(** Once the rows and the overall delta are computed, both tables of the
    main message are rendered. *)
Lemma main_tables_render (st : AggState) (srows prows : list row) (shown : string) :
  sku_rows st = Ok srows -> project_rows st = Ok prows ->
  overall_delta_str st = Ok shown ->
  (exists text, sku_table_text st = Ok text) /\
  (exists text, project_table_text st = Ok text).
Proof.
  intros Hs Hp Ho. split.
  - unfold sku_table_text. rewrite Hs, Ho. simpl.
    destruct (table_lines_total ["SKU"; "Cost"; "Delta"] srows "OVERALL"
                (overall_cost_str st) shown) as [lines Hl].
    { apply three_cell_rows_well_formed. now apply sku_rows_three_cells with st. }
    unfold build_table. rewrite Hl. simpl. eexists; reflexivity.
  - unfold project_table_text, project_table_text_full. rewrite Hp, Ho. simpl.
    destruct (table_lines_total ["Project"; "Cost"; "Delta"] prows "OVERALL"
                (overall_cost_str st) shown) as [lines Hl].
    { apply three_cell_rows_well_formed. now apply project_rows_three_cells with st. }
    unfold build_table. rewrite Hl. simpl.
    match goal with
    | |- context [if ?b then _ else _] => destruct b
    end; eexists; reflexivity.
Qed.

(** ** Worked examples *)

Example demo_table_text : demo_table = Ok (join nl demo_lines).
Proof. vm_compute. reflexivity. Qed.

Example fmt2_rounds_to_hundredths :
  fmt2 (fz 120) = "120.00" /\
  fmt2 (fadd (fz 1) (S754_finite false 1 (-3))) = "1.12" /\
  fmt2 (fadd (fz 1) (S754_finite false 3 (-3))) = "1.38" /\
  fmt2 (S754_zero true) = "-0.00".
Proof. repeat split; vm_compute; reflexivity. Qed.

Example py_round_ties_to_even :
  py_round (S754_finite false 1 (-1)) = Ok 0%Z /\
  py_round (S754_finite false 3 (-1)) = Ok 2%Z /\
  py_round (S754_finite true 5 (-1)) = Ok (-2)%Z /\
  py_round S754_nan = Raise "cannot convert float NaN to integer".
Proof. repeat split; reflexivity. Qed.

Example py_float_reads_fmt2 :
  py_float (fmt2 (fz 120)) = Ok (fz 120) /\
  py_float "0.10" = Ok (S754_finite false 7205759403792794 (-56)) /\
  py_float "inf" = Ok (S754_infinity false).
Proof. repeat split; vm_compute; reflexivity. Qed.

(** The first end-to-end scenario: two services of one project. *)
Example scenario_a_service_rows :
  sku_rows state_a
  = Ok [["Compute Engine"; "120.00"; "20%"]; ["Storage"; "30.00"; "N/A"]] /\
  overall_cost_str state_a = "150.00" /\
  overall_delta_str state_a = Ok "50%".
Proof. repeat split; vm_compute; reflexivity. Qed.

(** A project with 35 services: 30 rows shown, the TOTAL over all 35. *)
Example capped_project_table :
  List.length lines_many = 34 /\
  nth 33 lines_many "" = "TOTAL  35.00     0%" /\
  nth 32 lines_many "" = "------------------".
Proof. repeat split; vm_compute; reflexivity. Qed.

(** The sort keeps the input order of equal keys. *)
Example sorted_desc_keeps_ties :
  sorted_desc (fun p => fz (snd p)) [("a", 1%Z); ("b", 3%Z); ("c", 1%Z); ("d", 3%Z)]
  = [("b", 3%Z); ("d", 3%Z); ("a", 1%Z); ("c", 1%Z)].
Proof. vm_compute. reflexivity. Qed.

(** The aggregate delta of a service is not a mean of its records' deltas:
    the two Storage records carry 25% and no delta, the service-wide row
    shows the delta of the sums, 35 against 4. *)
Example storage_delta_from_sums :
  mapM detail_row (of_service "Storage" two_projects)
  = Ok [["Storage"; "5.00"; "25%"]; ["Storage"; "30.00"; "N/A"]] /\
  In ["Storage"; "35.00"; "775%"] (value_or [] (sku_rows state_two_projects)).
Proof.
  split; [ vm_compute; reflexivity | ].
  vm_compute. right. left. reflexivity.
Qed.

(* ================================================================== *)
(** * Part III: further properties of the code *)
(* ================================================================== *)

(** ** Lengths of padded and joined strings *)

Lemma append_length (a b : string) :
  String.length (a ^^ b) = String.length a + String.length b.
Proof.
  induction a as [| ch t IH]; simpl; [ reflexivity | now rewrite IH ].
Qed.

Lemma str_repeat_length (ch : ascii) (n : nat) : String.length (str_repeat ch n) = n.
Proof.
  induction n as [| n IH]; simpl; [ reflexivity | now rewrite IH ].
Qed.

Lemma ljust_length (s : string) (w : nat) :
  String.length (ljust s w) = Nat.max (String.length s) w.
Proof.
  unfold ljust. rewrite append_length, str_repeat_length. lia.
Qed.

Lemma rjust_length (s : string) (w : nat) :
  String.length (rjust s w) = Nat.max (String.length s) w.
Proof.
  unfold rjust. rewrite append_length, str_repeat_length. lia.
Qed.

Lemma join_length (sep : string) (l : list string) :
  String.length (join sep l)
  = list_sum (map String.length l) + String.length sep * (List.length l - 1).
Proof.
  induction l as [| s t IH]; [ simpl; lia | ].
  destruct t as [| s' t'].
  - simpl. lia.
  - change (join sep (s :: s' :: t')) with (s ^^ sep ^^ join sep (s' :: t')).
    rewrite !append_length, IH. simpl. lia.
Qed.

(** ** Alignment of the table lines *)

Lemma skipn_nth_error {A} (l : list A) (s : nat) (x : A) :
  nth_error l s = Some x -> skipn s l = x :: skipn (S s) l.
Proof.
  revert s; induction l as [| y t IH]; intros [| s] H; simpl in *; try discriminate.
  - now inversion H.
  - now apply IH.
Qed.

(** The cells that a line pads to the widths [ws] have these widths as their
    lengths when every cell fits. *)
Lemma padded_cells_lengths (g : nat -> string -> nat -> string) (ws : list nat)
  (l : list string) (s : nat) (cells : list string) :
  (forall i x w, String.length x <= w -> String.length (g i x w) = w) ->
  mapM (fun ic => w <- list_get ws (fst ic) ;; Ok (g (fst ic) (snd ic) w))
       (enumerate_from s l) = Ok cells ->
  (forall i x w, nth_error l i = Some x -> nth_error ws (s + i) = Some w ->
                 String.length x <= w) ->
  map String.length cells = firstn (List.length l) (skipn s ws).
Proof.
  intros Hg. revert s cells; induction l as [| x t IH]; simpl; intros s cells H Hfit.
  - now inversion H.
  - inv_bind H. inv_bind H. inversion H; subst. inv_bind E. inversion E; subst.
    simpl in E1. unfold list_get in E1.
    destruct (nth_error ws s) as [w |] eqn:En; inversion E1; subst.
    rewrite (skipn_nth_error _ _ _ En). cbn [map firstn List.length]. f_equal.
    + apply Hg. apply (Hfit 0 x v1); [ reflexivity | now rewrite Nat.add_0_r ].
    + apply IH; [ exact E0 | ].
      intros i y w Hy Hw. apply (Hfit (S i) y w); [ exact Hy | ].
      now rewrite Nat.add_succ_r.
Qed.

Lemma enumerate_from_map_nth {A B} (f : nat * A -> B) (l : list A) (s i : nat) :
  nth_error (map f (enumerate_from s l)) i
  = option_map (fun x => f (s + i, x)) (nth_error l i).
Proof.
  revert s i; induction l as [| x t IH]; intros s [| i]; simpl; try reflexivity.
  - now rewrite Nat.add_0_r.
  - rewrite IH. now rewrite Nat.add_succ_r.
Qed.

Lemma width_over_header (rs : list row) (i : nat) (col : string) :
  String.length col <= width_over rs i col.
Proof.
  unfold width_over. induction rs as [| r t IH]; simpl; lia.
Qed.

Lemma width_over_cell (rs : list row) (i : nat) (col : string) (r : row) :
  In r rs -> String.length (nth i r "") <= width_over rs i col.
Proof.
  unfold width_over. induction rs as [| r' t IH]; simpl; intros H; [ destruct H | ].
  destruct H as [-> | H]; [ lia | ]. specialize (IH H). lia.
Qed.

Lemma widths_over_nth (h : list string) (rs : list row) (i w : nat) :
  nth_error (widths_over h rs) i = Some w ->
  exists col, nth_error h i = Some col /\ w = width_over rs i col.
Proof.
  unfold widths_over, enumerate. rewrite enumerate_from_map_nth.
  destruct (nth_error h i) as [col |]; simpl; intros H; inversion H; subst.
  exists col. auto.
Qed.

Lemma widths_over_length (h : list string) (rs : list row) :
  List.length (widths_over h rs) = List.length h.
Proof.
  unfold widths_over, enumerate. now rewrite length_map, enumerate_from_length.
Qed.

Lemma separator_length (ws : list nat) :
  String.length (separator_of ws) = table_width ws.
Proof.
  unfold separator_of, table_width. rewrite str_repeat_length.
  destruct ws as [| w t]; simpl List.length; [ reflexivity | ].
  lia.
Qed.

Lemma header_line_length (h : list string) (rs : list row) (hl : string) :
  header_line_of h (widths_over h rs) = Ok hl ->
  String.length hl = table_width (widths_over h rs).
Proof.
  unfold header_line_of. intros H. inv_bind H. inversion H; subst.
  rewrite join_length. unfold table_width.
  pose proof (mapM_length _ _ _ E) as Hlen.
  unfold enumerate in *. rewrite enumerate_from_length in Hlen.
  apply (padded_cells_lengths (fun _ x w => ljust x w)) in E.
  - rewrite E. simpl skipn. rewrite <- (widths_over_length h rs) at 1.
    rewrite firstn_all, Hlen, widths_over_length. simpl. lia.
  - intros i x w Hx. rewrite ljust_length. lia.
  - intros i x w Hx Hw. simpl in Hw. apply widths_over_nth in Hw.
    destruct Hw as (col & Hcol & ->). rewrite Hx in Hcol. inversion Hcol; subst.
    apply width_over_header.
Qed.

Lemma data_line_length (h : list string) (rs : list row) (r : row) (line : string) :
  In r rs -> List.length r = List.length h ->
  data_line (widths_over h rs) r = Ok line ->
  String.length line = table_width (widths_over h rs).
Proof.
  unfold data_line. intros Hin Hr H. inv_bind H. inversion H; subst.
  rewrite join_length. unfold table_width.
  pose proof (mapM_length _ _ _ E) as Hlen.
  unfold enumerate in *. rewrite enumerate_from_length in Hlen.
  apply (padded_cells_lengths
           (fun i x w => match i with O => ljust x w | S _ => rjust x w end)) in E.
  - rewrite E. simpl skipn. rewrite Hr, <- (widths_over_length h rs) at 1.
    rewrite firstn_all, Hlen, Hr, widths_over_length. simpl. lia.
  - intros [| i] x w Hx; [ rewrite ljust_length | rewrite rjust_length ]; lia.
  - intros i x w Hx Hw. simpl in Hw. apply widths_over_nth in Hw.
    destruct Hw as (col & Hcol & ->).
    rewrite <- (nth_error_nth _ _ "" Hx). now apply width_over_cell.
Qed.

(** X1. In a well-formed table the header, every data line and the two
    separators have the same length: the sum of the column widths plus two
    spaces between columns. *)
Theorem table_lines_aligned (h : list string) (rs : list row) (l c d : string)
  (lines : list string) :
  well_formed_table h rs ->
  table_lines h rs l c d = Ok lines ->
  Forall (fun line => String.length line = table_width (widths_over h rs))
         (removelast lines).
Proof.
  intros [Hh Hrows] Hl.
  destruct (table_lines_shape _ _ _ _ _ _ Hl) as (ws & hl & data & ol & Hw & Hhl & Hd & Ho & ->).
  apply col_widths_spec in Hw. subst ws.
  assert (Hrm : removelast
                  (hl :: separator_of (widths_over h rs)
                      :: data ++ [separator_of (widths_over h rs); ol])
                = hl :: separator_of (widths_over h rs)
                     :: data ++ [separator_of (widths_over h rs)]).
  { replace (hl :: separator_of (widths_over h rs)
                :: data ++ [separator_of (widths_over h rs); ol])
      with ((hl :: separator_of (widths_over h rs)
                :: data ++ [separator_of (widths_over h rs)]) ++ [ol])
      by (simpl; rewrite <- app_assoc; reflexivity).
    apply removelast_last. }
  rewrite Hrm.
  constructor; [ now apply header_line_length | ].
  constructor; [ apply separator_length | ].
  apply Forall_app. split; [ | repeat constructor; apply separator_length ].
  apply mapM_Forall2 in Hd. rewrite Forall_forall in Hrows.
  clear Hrm Hl Ho Hhl.
  assert (Hsub : forall r, In r (firstn 30 rs) -> In r rs)
    by (intros r; apply firstn_incl).
  induction Hd as [| r line t t' Hline _ IH]; constructor.
  - apply (data_line_length h rs r); auto.
    + apply Hsub. now left.
    + apply Hrows, Hsub. now left.
  - apply IH. intros r' Hr'. apply Hsub. now right.
Qed.

Lemma table_lines_aligned_witness :
  Forall (fun line => String.length line = 29) (removelast demo_lines).
Proof.
  apply (table_lines_aligned sku_headers demo_rows "OVERALL" "150.00" "50%" demo_lines).
  - split; [ simpl; lia | repeat constructor ].
  - vm_compute. reflexivity.
Defined.

(** ** The summary line *)

Lemma overall_line_length (h : list string) (w0 w1 w2 : nat) (l c d ol : string) :
  List.length h = 3 ->
  overall_line_of h [w0; w1; w2] l c d = Ok ol ->
  String.length ol
  = table_width [w0; w1; w2]
    + (String.length l - w0) + (String.length c - w1) + (String.length d - w2).
Proof.
  unfold overall_line_of, list_get. intros Hh. rewrite Hh.
  cbn [nth_error bind Nat.ltb Nat.leb]. intros H. injection H as <-.
  repeat first [ rewrite ljust_length | rewrite rjust_length | rewrite append_length ].
  cbn [String.length]. rewrite !rjust_length.
  unfold table_width. simpl. lia.
Qed.

(** X2. The summary line of a three-column table is as long as the other
    lines plus what its label, cost and delta exceed their columns by: the
    widths are taken from the header and the rows, not from the summary, so
    the summary is aligned exactly when its three cells fit. *)
Theorem summary_line_length (h : list string) (rs : list row) (l c d : string)
  (lines : list string) :
  List.length h = 3 ->
  table_lines h rs l c d = Ok lines ->
  String.length (last lines "")
  = table_width (widths_over h rs)
    + (String.length l - nth 0 (widths_over h rs) 0)
    + (String.length c - nth 1 (widths_over h rs) 0)
    + (String.length d - nth 2 (widths_over h rs) 0).
Proof.
  intros Hh Hl.
  destruct (table_lines_shape _ _ _ _ _ _ Hl) as (ws & hl & data & ol & Hw & _ & _ & Ho & ->).
  apply col_widths_spec in Hw. subst ws.
  pose proof (widths_over_length h rs) as Hlen. rewrite Hh in Hlen.
  destruct (widths_over h rs) as [| w0 [| w1 [| w2 [| w3 t]]]]; try discriminate.
  replace (hl :: separator_of [w0; w1; w2] :: data ++ [separator_of [w0; w1; w2]; ol])
    with ((hl :: separator_of [w0; w1; w2] :: data ++ [separator_of [w0; w1; w2]]) ++ [ol])
    by (simpl; rewrite <- app_assoc; reflexivity).
  rewrite last_last. simpl nth. now apply overall_line_length with h.
Qed.

Lemma summary_line_length_witness :
  String.length (last empty_table_lines "") = 16 + 4 + 0 + 0.
Proof.
  apply (summary_line_length sku_headers [] "OVERALL" "0.00" "N/A" empty_table_lines).
  - reflexivity.
  - vm_compute. reflexivity.
Defined.

(** ** When [build_table] raises *)

Lemma mapM_raise {A B} (f : A -> result B) (l : list A) (msg : string) :
  mapM f l = Raise msg -> exists x, In x l /\ f x = Raise msg.
Proof.
  induction l as [| x t IH]; simpl; intros H; [ discriminate | ].
  destruct (f x) as [y | m] eqn:Ex; simpl in H.
  - destruct (mapM f t) as [ys | m] eqn:Et; simpl in H; [ discriminate | ].
    destruct (IH H) as (z & Hz & Hfz). exists z. auto.
  - inversion H; subst. exists x. auto.
Qed.

Lemma result_cases {A} (m : result A) : (exists a, m = Ok a) \/ (exists msg, m = Raise msg).
Proof. destruct m; eauto. Qed.

Lemma col_widths_raise (h : list string) (rs : list row) (msg : string) :
  col_widths_of h rs = Raise msg -> msg = "tuple index out of range".
Proof.
  unfold col_widths_of. intros H. apply mapM_raise in H.
  destruct H as ([i col] & _ & H). unfold col_width in H. simpl in H.
  destruct rs as [| r t]; [ discriminate | ].
  destruct (mapM (fun r0 => tuple_get r0 i) (r :: t)) as [cells | m] eqn:Ec;
    simpl in H; [ discriminate | ].
  inversion H; subst. apply mapM_raise in Ec. destruct Ec as (r' & _ & Hr').
  unfold tuple_get in Hr'. destruct (nth_error r' i); now inversion Hr'.
Qed.

Lemma enumerate_nth_In {A} (l : list A) (i : nat) (x : A) :
  nth_error l i = Some x -> In (i, x) (enumerate l).
Proof.
  unfold enumerate. change i with (0 + i) at 2. generalize 0 as s.
  revert i; induction l as [| y t IH]; intros [| i] s H; simpl in *; try discriminate.
  - inversion H; subst. left. now rewrite Nat.add_0_r.
  - right. rewrite <- Nat.add_succ_comm. now apply IH.
Qed.

(** X3. A row with fewer cells than there are headers makes [build_table]
    raise the index error of a tuple, wherever the row stands, also beyond
    the thirtieth. *)
Theorem short_row_raises (h : list string) (rs : list row) (l c d : string) (r : row) :
  In r rs -> List.length r < List.length h ->
  build_table h rs l c d = Raise "tuple index out of range".
Proof.
  intros Hin Hlen. unfold build_table, table_lines.
  destruct (col_widths_of h rs) as [ws | msg] eqn:Hw; simpl.
  - exfalso. unfold col_widths_of in Hw.
    destruct (nth_error h (List.length r)) as [col |] eqn:Hcol;
      [ | apply nth_error_None in Hcol; lia ].
    assert (Hic : In (List.length r, col) (enumerate h))
      by (now apply enumerate_nth_In).
    destruct (mapM_In_fwd _ _ _ _ Hw Hic) as (w & Hcw & _).
    unfold col_width in Hcw. simpl in Hcw.
    destruct rs as [| r0 t]; [ destruct Hin | ].
    inv_bind Hcw. destruct (mapM_In_fwd _ _ _ _ E Hin) as (cell & Hcell & _).
    unfold tuple_get in Hcell.
    destruct (nth_error r (List.length r)) eqn:En; [ | discriminate ].
    assert (Hnone : nth_error r (List.length r) = None) by (apply nth_error_None; lia).
    congruence.
  - now rewrite (col_widths_raise _ _ _ Hw).
Qed.

Lemma short_row_raises_witness :
  build_table sku_headers (demo_rows ++ [short_row]) "OVERALL" "150.00" "50%"
  = Raise "tuple index out of range".
Proof.
  apply (short_row_raises sku_headers (demo_rows ++ [short_row]) "OVERALL" "150.00" "50%"
           short_row).
  - right. right. left. reflexivity.
  - simpl. lia.
Defined.

(** X4. With fewer than two headers [build_table] raises: the summary line
    needs the widths of the first two columns. *)
Theorem too_few_headers_raise (h : list string) (rs : list row) (l c d : string) :
  List.length h < 2 -> exists msg, build_table h rs l c d = Raise msg.
Proof.
  intros Hh. unfold build_table.
  destruct (result_cases (table_lines h rs l c d)) as [[lines Hl] | [msg Hl]].
  - exfalso.
    destruct (table_lines_shape _ _ _ _ _ _ Hl) as (ws & hl & data & ol & Hw & _ & _ & Ho & _).
    apply col_widths_length in Hw. unfold overall_line_of in Ho.
    inv_bind Ho. inv_bind Ho. unfold list_get in E0.
    destruct (nth_error ws 1) eqn:En; [ | discriminate ].
    assert (1 < List.length ws) by (apply nth_error_Some; congruence). lia.
  - exists msg. now rewrite Hl.
Qed.

Lemma too_few_headers_raise_witness :
  exists msg, build_table ["SKU"] [["Storage"]] "OVERALL" "30.00" "N/A" = Raise msg.
Proof.
  apply (too_few_headers_raise ["SKU"] [["Storage"]] "OVERALL" "30.00" "N/A").
  simpl. lia.
Defined.

(** X5. A row with more cells than there are headers makes [build_table]
    raise when it is among the first thirty rows, which are rendered. *)
Theorem wide_kept_row_raises (h : list string) (rs : list row) (l c d : string) (r : row) :
  In r (firstn 30 rs) -> List.length h < List.length r ->
  exists msg, build_table h rs l c d = Raise msg.
Proof.
  intros Hin Hlen. unfold build_table.
  destruct (result_cases (table_lines h rs l c d)) as [[lines Hl] | [msg Hl]].
  - exfalso.
    destruct (table_lines_shape _ _ _ _ _ _ Hl) as (ws & hl & data & ol & Hw & _ & Hd & _ & _).
    apply col_widths_length in Hw.
    destruct (mapM_In_fwd _ _ _ _ Hd Hin) as (line & Hline & _).
    unfold data_line in Hline. inv_bind Hline.
    destruct (nth_error r (List.length h)) as [cell |] eqn:Hcell;
      [ | apply nth_error_None in Hcell; lia ].
    assert (Hic : In (List.length h, cell) (enumerate r))
      by (now apply enumerate_nth_In).
    destruct (mapM_In_fwd _ _ _ _ E Hic) as (cell' & Hc & _). simpl in Hc.
    inv_bind Hc. unfold list_get in E0.
    destruct (nth_error ws (List.length h)) eqn:En; [ | discriminate ].
    assert (List.length h < List.length ws) by (apply nth_error_Some; congruence). lia.
  - exists msg. now rewrite Hl.
Qed.

Lemma wide_kept_row_raises_witness :
  exists msg,
    build_table sku_headers (wide_row :: demo_rows) "OVERALL" "150.00" "50%" = Raise msg.
Proof.
  apply (wide_kept_row_raises sku_headers (wide_row :: demo_rows) "OVERALL" "150.00" "50%"
           wide_row).
  - left. reflexivity.
  - simpl. lia.
Defined.

(** ** Digits: what [f"{x:.2f}"] writes, [float] reads *)

Lemma uint_all_digits (d : Decimal.uint) : all_digits (NilEmpty.string_of_uint d) = true.
Proof.
  induction d; simpl; auto.
Qed.

Lemma nilzero_uint_digits (d : Decimal.uint) :
  all_digits (NilZero.string_of_uint d) = true /\
  NilZero.string_of_uint d <> EmptyString.
Proof.
  destruct d; simpl; (split; [ try reflexivity; apply uint_all_digits | discriminate ]).
Qed.

Lemma str_of_int_nonneg (z : Z) :
  (0 <= z)%Z -> all_digits (str_of_int z) = true /\ str_of_int z <> EmptyString.
Proof.
  intros Hz. unfold str_of_int. destruct z as [| p | p]; simpl.
  - split; [ reflexivity | discriminate ].
  - apply nilzero_uint_digits.
  - lia.
Qed.

Lemma str_of_int_signed (z : Z) :
  exists sign t,
    str_of_int z = (if sign : bool then "-" else "") ^^ t /\ all_digits t = true.
Proof.
  unfold str_of_int. destruct z as [| p | p]; simpl.
  - exists false, "0". auto.
  - exists false, (NilZero.string_of_uint (Pos.to_uint p)).
    split; [ reflexivity | apply nilzero_uint_digits ].
  - exists true, (NilZero.string_of_uint (Pos.to_uint p)).
    split; [ reflexivity | apply nilzero_uint_digits ].
Qed.

Lemma all_digits_app (a b : string) :
  all_digits (a ^^ b) = all_digits a && all_digits b.
Proof.
  induction a as [| ch t IH]; simpl; [ reflexivity | ].
  destruct (digit_of ch); [ exact IH | reflexivity ].
Qed.

Lemma two_digits_all_digits (n : Z) : (0 <= n)%Z -> all_digits (two_digits n) = true.
Proof.
  intros Hn. unfold two_digits. rewrite all_digits_app.
  destruct (str_of_int_nonneg n Hn) as [Hd _]. rewrite Hd.
  destruct (n <? 10)%Z; reflexivity.
Qed.

(** A digit is none of the characters that [float] treats apart. *)
Lemma digit_not_special (ch : ascii) (v : Z) :
  digit_of ch = Some v ->
  ch <> "-"%char /\ Ascii.eqb ch "i" = false /\ Ascii.eqb ch "n" = false /\
  Ascii.eqb ch (ascii_of_nat 10) = false.
Proof.
  intros H. repeat split.
  - intros ->. discriminate.
  - destruct (Ascii.eqb_spec ch "i") as [-> | _]; [ discriminate | reflexivity ].
  - destruct (Ascii.eqb_spec ch "n") as [-> | _]; [ discriminate | reflexivity ].
  - destruct (Ascii.eqb_spec ch (ascii_of_nat 10)) as [-> | _];
      [ discriminate | reflexivity ].
Qed.

Lemma read_digits_app (a rest : string) (acc : Z) (n : nat) :
  all_digits a = true -> (0 <= acc)%Z ->
  exists acc',
    (0 <= acc')%Z /\
    read_digits (a ^^ rest) acc n = read_digits rest acc' (n + String.length a).
Proof.
  revert acc n; induction a as [| ch t IH];
    cbn [read_digits String.append all_digits String.length]; intros acc n Ha Hacc.
  - exists acc. rewrite Nat.add_0_r. auto.
  - destruct (digit_of ch) as [v |] eqn:Hd; [ | discriminate ].
    assert (Hv : (0 <= v)%Z).
    { unfold digit_of in Hd.
      destruct ((48 <=? nat_of_ascii ch) && (nat_of_ascii ch <=? 57))%nat;
        inversion Hd; lia. }
    destruct (IH (10 * acc + v)%Z (S n) Ha ltac:(lia)) as (acc' & Hacc' & Heq).
    exists acc'. split; [ exact Hacc' | ].
    rewrite Heq. f_equal. lia.
Qed.

Lemma sign_of_unsigned (ch : ascii) (t : string) :
  ch <> "-"%char ->
  match String ch t with
  | String "-"%char t' => (true, t')
  | _ => (false, String ch t)
  end = (false, String ch t).
Proof.
  intros Hc.
  destruct ch as [b0 b1 b2 b3 b4 b5 b6 b7].
  destruct b0, b1, b2, b3, b4, b5, b6, b7; try reflexivity.
  exfalso. apply Hc. reflexivity.
Qed.
Lemma py_float_decimal (sign : bool) (A B : string) :
  all_digits A = true -> A <> EmptyString -> all_digits B = true ->
  exists v,
    (0 <= v)%Z /\
    py_float ((if sign then "-" else "") ^^ A ^^ "." ^^ B)
    = Ok (float_of_ratio sign v (10 ^ Z.of_nat (String.length B))).
Proof.
  intros HA Hne HB. destruct A as [| ch A']; [ congruence | ].
  cbn [all_digits] in HA. destruct (digit_of ch) as [v0 |] eqn:Hd; [ | discriminate ].
  destruct (digit_not_special _ _ Hd) as (Hminus & Hi & Hn & _).
  assert (Hread : exists v, (0 <= v)%Z /\
            read_digits (String ch A' ^^ "." ^^ B) 0 0
            = (v, String.length (String ch A'), String "."%char B)).
  { destruct (read_digits_app (String ch A') ("." ^^ B) 0 0) as (v & Hv & Heq).
    - cbn [all_digits]. now rewrite Hd.
    - lia.
    - exists v. split; [ exact Hv | ]. rewrite Heq. reflexivity. }
  destruct Hread as (v & Hv & Hread).
  assert (Hfrac : exists v', (0 <= v')%Z /\
            read_digits B v 0 = (v', String.length B, EmptyString)).
  { destruct (read_digits_app B EmptyString v 0 HB Hv) as (v' & Hv' & Heq).
    exists v'. split; [ exact Hv' | ].
    replace B with (B ^^ EmptyString) at 1 by (clear; induction B; simpl; congruence).
    rewrite Heq. reflexivity. }
  destruct Hfrac as (v' & Hv' & Hfrac).
  exists v'. split; [ exact Hv' | ].
  unfold py_float.
  destruct sign.
  - cbn [String.append]. cbn [String.eqb]. rewrite Hi, Hn. cbn [andb].
    change (String ch (A' ^^ String "."%char B)) with (String ch A' ^^ "." ^^ B).
    rewrite Hread. rewrite Hfrac. cbn [String.length Nat.add Nat.eqb]. reflexivity.
  - cbn [String.append]. rewrite (sign_of_unsigned _ _ Hminus).
    cbn [String.eqb]. rewrite Hi, Hn. cbn [andb].
    change (String ch (A' ^^ String "."%char B)) with (String ch A' ^^ "." ^^ B).
    rewrite Hread. rewrite Hfrac. cbn [String.length Nat.add Nat.eqb]. reflexivity.
Qed.

Lemma binary_round_aux_not_nan (s : bool) (m e : Z) (l : location) :
  (0 <= m)%Z -> is_nan (binary_round_aux prec emax s m e l) = false.
Proof.
  intros Hm. unfold binary_round_aux.
  pose proof (shr_fexp_nonneg m e l Hm) as H1.
  destruct (shr_fexp prec emax m e l) as [mrs1 e1]. simpl in H1.
  pose proof (shr_fexp_nonneg
                (round_nearest_even (shr_m mrs1) (loc_of_shr_record mrs1)) e1 loc_Exact
                (round_nearest_even_nonneg _ _ H1)) as H2.
  destruct (shr_fexp prec emax
              (round_nearest_even (shr_m mrs1) (loc_of_shr_record mrs1)) e1 loc_Exact)
    as [mrs2 e2].
  simpl in H2. destruct (shr_m mrs2) as [| p | p]; simpl; try reflexivity.
  - destruct (e2 <=? 971)%Z; reflexivity.
  - lia.
Qed.

Lemma float_of_ratio_not_nan (sign : bool) (num den : Z) :
  (0 <= num)%Z -> (0 < den)%Z -> is_nan (float_of_ratio sign num den) = false.
Proof.
  intros Hn Hd. unfold float_of_ratio. destruct num as [| p | p]; [ reflexivity | | lia ].
  unfold SFdiv_core_binary.
  match goal with
  | |- context [Z.div_eucl ?a ?b] =>
      assert (Ha : (0 <= a)%Z);
      [ | pose proof (Z.div_pos a b Ha Hd) as Hq; unfold Z.div in Hq;
          destruct (Z.div_eucl a b) as [q r] ]
  end.
  - match goal with
    | |- (0 <= match ?s with _ => _ end)%Z => destruct s
    end; try lia.
    apply Z.shiftl_nonneg. lia.
  - now apply binary_round_aux_not_nan.
Qed.

Lemma scaled_round_nonneg (k : Z) (m : positive) (e : Z) :
  (0 <= k)%Z -> (0 <= scaled_round k m e)%Z.
Proof.
  intros Hk. unfold scaled_round. destruct e as [| p | p].
  - lia.
  - apply Z.mul_nonneg_nonneg; [ lia | apply Z.pow_nonneg; lia ].
  - unfold round_half_even_div.
    assert (Hq : (0 <= k * Z.pos m / 2 ^ Z.pos p)%Z).
    { apply Z.div_pos; [ lia | apply Z.pow_pos_nonneg; lia ]. }
    destruct (2 * ((k * Z.pos m) mod 2 ^ Z.pos p) ?= 2 ^ Z.pos p)%Z; try lia.
    destruct (Z.even (k * Z.pos m / 2 ^ Z.pos p)); lia.
Qed.

(** What [f"{x:.2f}"] writes, [float] reads back without raising, and as a
    number when [x] is one. *)
Lemma py_float_fmt2 (x : float) :
  exists k, py_float (fmt2 x) = Ok k /\ (is_nan x = false -> is_nan k = false).
Proof.
  destruct x as [[] | [] | | s m e]; try (eexists; split; [ reflexivity | auto ]).
  unfold fmt2.
  pose proof (scaled_round_nonneg 100 m e ltac:(lia)) as Hc.
  set (cents := scaled_round 100 m e) in *.
  destruct (str_of_int_nonneg (cents / 100)) as [HA Hne];
    [ apply Z.div_pos; lia | ].
  assert (HB : all_digits (two_digits (cents mod 100)) = true).
  { apply two_digits_all_digits. apply Z.mod_pos_bound. lia. }
  destruct (py_float_decimal s _ _ HA Hne HB) as (v & Hv & Hpy).
  eexists. split; [ exact Hpy | ].
  intros _. apply float_of_ratio_not_nan; [ exact Hv | ].
  apply Z.pow_pos_nonneg; lia.
Qed.

(** ** The rows of a thread table *)

Lemma keyed_rows {A} (key : A -> result float) (l : list A) (K : list (float * A)) :
  mapM (fun x => k <- key x ;; Ok (k, x)) l = Ok K ->
  map snd K = l /\ Forall (fun kx => key (snd kx) = Ok (fst kx)) K.
Proof.
  revert K; induction l as [| x t IH]; simpl; intros K H.
  - inversion H; subst. split; constructor.
  - inv_bind H. inv_bind H. inversion H; subst. inv_bind E. inversion E; subst.
    destruct (IH _ E0) as [Hm HF]. split; [ simpl; now rewrite Hm | ].
    constructor; [ exact E1 | exact HF ].
Qed.

Lemma sorted_desc_r_sorted {A} (key : A -> result float) (l sorted : list A) :
  sorted_desc_r key l = Ok sorted ->
  (forall x k, In x l -> key x = Ok k -> is_nan k = false) ->
  StronglySorted
    (fun a b => exists ka kb, key a = Ok ka /\ key b = Ok kb /\ fle kb ka = true)
    sorted.
Proof.
  unfold sorted_desc_r. intros H Hnan. inv_bind H. inversion H; subst; clear H.
  rename v into K. destruct (keyed_rows _ _ _ E) as [Hm HF].
  assert (HF' : Forall (fun kx => key (snd kx) = Ok (fst kx)) (sort_keyed_desc K)).
  { eapply Permutation_Forall; [ symmetry; apply sort_keyed_desc_perm | exact HF ]. }
  assert (Hord : keys_ordered K).
  { apply Forall_forall. intros [k x] Hin. simpl.
    rewrite Forall_forall in HF. pose proof (HF _ Hin) as Hk. simpl in Hk.
    apply (Hnan x k); [ | exact Hk ].
    rewrite <- Hm. apply in_map_iff. exists (k, x). auto. }
  assert (Hord' : keys_ordered (sort_keyed_desc K)).
  { eapply Permutation_Forall; [ symmetry; apply sort_keyed_desc_perm | exact Hord ]. }
  pose proof (sort_keyed_desc_sorted K Hord) as Hs.
  induction Hs as [| [k x] t Hs IH Hall]; simpl; [ constructor | ].
  inversion HF' as [| ? ? Hkx HFt]; subst. inversion Hord' as [| ? ? Hnk Hot]; subst.
  simpl in Hkx, Hnk. constructor; [ now apply IH | ].
  rewrite Forall_map. rewrite Forall_forall in *. intros [kz z] Hz. simpl.
  exists k, kz. split; [ exact Hkx | ]. split; [ exact (HFt _ Hz) | ].
  apply not_flt_fle; [ exact Hnk | exact (Hot _ Hz) | exact (Hall _ Hz) ].
Qed.

Lemma detail_row_of_cost (r : BillingRow) :
  exists k, row_cost (detail_row_of r) = Ok k /\
            (is_nan (yesterday_cost r) = false -> is_nan k = false).
Proof.
  unfold row_cost, detail_row_of, tuple_get. simpl. apply py_float_fmt2.
Qed.

Lemma project_rows_data (rs : list BillingRow) (ie : option string) (st : AggState)
  (p : string) (data : ProjectData) :
  aggregate (QueryRows rs ie) = Ok st -> In (p, data) (projects st) ->
  rows data = map detail_row_of (of_project p rs).
Proof.
  intros Hagg Hin.
  destruct (aggregate_spec _ _ _ Hagg) as (_ & _ & _ & _ & _ & _ & _ & Hproj).
  destruct (Hproj _ _ Hin) as (Hrows & _).
  unfold aggregate in Hagg. inv_bind Hagg. apply agg_loop_ok in E. destruct E as [Hds _].
  rewrite detail_rows_ok in Hrows; [ now inversion Hrows | ].
  now apply Forall_filter.
Qed.

(** The sort of the detail rows of a project never raises. *)
Lemma proj_rows_of_total (rs : list BillingRow) (ie : option string) (st : AggState)
  (p : string) (data : ProjectData) :
  aggregate (QueryRows rs ie) = Ok st -> In (p, data) (projects st) ->
  exists shown_rows, proj_rows_of data = Ok shown_rows.
Proof.
  intros Hagg Hin. unfold proj_rows_of, sorted_desc_r.
  destruct (mapM_total (fun x : row => k <- (c <- tuple_get x 1 ;; py_float c) ;; Ok (k, x))
              (rows data)) as [K HK].
  - intros r Hr. rewrite (project_rows_data _ _ _ _ _ Hagg Hin) in Hr.
    apply in_map_iff in Hr. destruct Hr as (br & <- & _).
    destruct (detail_row_of_cost br) as (k & Hk & _). unfold row_cost in Hk.
    rewrite Hk. simpl. eauto.
  - rewrite HK. simpl. eauto.
Qed.

(** X6. The thread table of a project shows the detail rows of the project
    reordered: the sort by the cost read back from the formatted cell never
    raises and gives a permutation of the rows, whatever the costs are; when
    no cost of the project is NaN, every row's cost is at least the cost of
    each row after it. *)
Theorem detail_rows_sorted (rs : list BillingRow) (ie : option string) (st : AggState)
  (p : string) (data : ProjectData) :
  aggregate (QueryRows rs ie) = Ok st ->
  In (p, data) (projects st) ->
  exists shown_rows,
    proj_rows_of data = Ok shown_rows /\
    Permutation shown_rows (map detail_row_of (of_project p rs)) /\
    (Forall (fun r => is_nan (yesterday_cost r) = false) (of_project p rs) ->
     StronglySorted cost_not_below shown_rows).
Proof.
  intros Hagg Hin.
  destruct (proj_rows_of_total _ _ _ _ _ Hagg Hin) as [shown Hs].
  pose proof (project_rows_data _ _ _ _ _ Hagg Hin) as Hrows.
  exists shown. split; [ exact Hs | ]. split.
  - rewrite <- Hrows. eapply sorted_desc_r_perm. exact Hs.
  - intros Hnan.
    unfold cost_not_below, row_cost. eapply sorted_desc_r_sorted; [ exact Hs | ].
    intros r k Hr Hk. rewrite Hrows in Hr.
    apply in_map_iff in Hr. destruct Hr as (br & <- & Hbr).
    destruct (detail_row_of_cost br) as (k' & Hk' & Hn). unfold row_cost in Hk'.
    rewrite Hk' in Hk. inversion Hk; subst. apply Hn.
    rewrite Forall_forall in Hnan. now apply Hnan.
Qed.

Lemma detail_rows_sorted_witness :
  proj_rows_of data_big
  = Ok [["Compute Engine"; "120.00"; "20%"]; ["Storage"; "30.00"; "N/A"]] /\
  Permutation [["Compute Engine"; "120.00"; "20%"]; ["Storage"; "30.00"; "N/A"]]
    (map detail_row_of (of_project "big" two_projects)) /\
  StronglySorted cost_not_below
    [["Compute Engine"; "120.00"; "20%"]; ["Storage"; "30.00"; "N/A"]].
Proof.
  assert (Hagg : aggregate (QueryRows two_projects None) = Ok state_two_projects)
    by (vm_compute; reflexivity).
  assert (Hin : In ("big", data_big) (projects state_two_projects))
    by (right; left; reflexivity).
  destruct (detail_rows_sorted two_projects None state_two_projects "big" data_big
              Hagg Hin) as (shown & Hs & Hperm & Hsorted).
  assert (Hshown : shown
                   = [["Compute Engine"; "120.00"; "20%"]; ["Storage"; "30.00"; "N/A"]]).
  { vm_compute in Hs. now injection Hs as <-. }
  subst shown.
  split; [ exact Hs | ]. split; [ exact Hperm | ].
  apply Hsorted. repeat constructor.
Defined.

(** ** The project-wide view and the thread messages agree *)

Lemma project_entry_of_data (rs : list BillingRow) (ie : option string) (st : AggState)
  (p : string) (data : ProjectData) :
  aggregate (QueryRows rs ie) = Ok st -> In (p, data) (projects st) ->
  exists t,
    In (p, t) (project_totals st) /\
    pt_total_yesterday t = total_yesterday data /\
    pt_total_day_before t = total_day_before data.
Proof.
  intros Hagg Hin.
  destruct (aggregate_spec _ _ _ Hagg) as (_ & _ & _ & _ & Hkt & Htot & Hkp & Hproj).
  assert (Hk : In p (map fst (project_totals st))).
  { rewrite Hkt, <- Hkp. apply in_map_iff. exists (p, data). auto. }
  apply keys_In_dict in Hk. destruct Hk as [t Ht].
  exists t. split; [ exact Ht | ].
  destruct (Hproj _ _ Hin) as (_ & Hy & Hd). rewrite (Htot _ _ Ht). simpl. auto.
Qed.

(** X7. A project's row in the project-wide table and the TOTAL row of its
    thread message are computed from equal sums: the project-wide table has a
    row with the project's thread total as cost and the thread delta as
    delta. *)
Theorem project_row_matches_total (rs : list BillingRow) (ie : option string)
  (st : AggState) (p : string) (data : ProjectData) (rws : list row) :
  aggregate (QueryRows rs ie) = Ok st ->
  In (p, data) (projects st) ->
  project_rows st = Ok rws ->
  exists shown,
    delta_of_totals (total_yesterday data) (total_day_before data) = Ok shown /\
    In [p; fmt2 (total_yesterday data); shown] rws.
Proof.
  intros Hagg Hin Hrows.
  destruct (project_entry_of_data _ _ _ _ _ Hagg Hin) as (t & Ht & Hy & Hd).
  apply sorted_projects_In in Ht.
  destruct (mapM_In_fwd _ _ _ _ Hrows Ht) as (r & Hr & Hrin).
  unfold project_row in Hr. simpl in Hr. inv_bind Hr. inversion Hr; subst r.
  rewrite Hy, Hd in E. rewrite Hy in Hrin. eauto.
Qed.

Lemma project_row_matches_total_witness :
  exists shown,
    delta_of_totals (total_yesterday data_big) (total_day_before data_big) = Ok shown /\
    In ["big"; fmt2 (total_yesterday data_big); shown]
       (value_or [] (project_rows state_two_projects)).
Proof.
  apply (project_row_matches_total two_projects None state_two_projects "big" data_big).
  - vm_compute. reflexivity.
  - right. left. reflexivity.
  - vm_compute. reflexivity.
Defined.

(** X8. With finite costs the rows of the project-wide table follow the
    projects sorted by descending today-cost total, one row for each
    distinct project id, and projects of equal total keep the order in which
    they were first seen. *)
Theorem project_rows_descending_stable (rs : list BillingRow) (ie : option string)
  (st : AggState) (rws : list row) :
  Forall (fun r => is_finite (yesterday_cost r) = true) rs ->
  aggregate (QueryRows rs ie) = Ok st ->
  project_rows st = Ok rws ->
  Forall2 (fun item r =>
             exists shown, r = [fst item; fmt2 (pt_total_yesterday (snd item)); shown])
          (sorted_projects st) rws /\
  StronglySorted
    (fun a b => fle (pt_total_yesterday (snd b)) (pt_total_yesterday (snd a)) = true)
    (sorted_projects st) /\
  Permutation (map fst (sorted_projects st)) (first_seen (map project_id rs)) /\
  (forall v,
     filter (fun item => feq (pt_total_yesterday (snd item)) v) (sorted_projects st)
     = filter (fun item => feq (pt_total_yesterday (snd item)) v) (project_totals st)) /\
  map fst (project_totals st) = first_seen (map project_id rs).
Proof.
  intros Hfin Hagg Hrows.
  destruct (aggregate_spec _ _ _ Hagg) as (_ & _ & _ & _ & Hkeys & Htot & _).
  split.
  { apply project_rows_Forall2 in Hrows. eapply Forall2_impl; [ | exact Hrows ].
    intros item r (shown & _ & ->). eauto. }
  split.
  { apply sorted_desc_sorted. apply Forall_forall. intros [p t] Hin.
    rewrite (Htot _ _ Hin). simpl. apply today_total_not_nan. now apply Forall_filter. }
  split; [ rewrite <- Hkeys; apply Permutation_map, sorted_desc_perm | ].
  split; [ intros v; apply sorted_desc_stable | exact Hkeys ].
Qed.

Lemma project_rows_descending_stable_witness :
  StronglySorted
    (fun a b => fle (pt_total_yesterday (snd b)) (pt_total_yesterday (snd a)) = true)
    (sorted_projects state_two_projects) /\
  Permutation (map fst (sorted_projects state_two_projects))
              (first_seen (map project_id two_projects)).
Proof.
  destruct (project_rows_descending_stable two_projects None state_two_projects
              (value_or [] (project_rows state_two_projects))) as (_ & Hs & Hp & _).
  - repeat constructor.
  - vm_compute. reflexivity.
  - vm_compute. reflexivity.
  - split; [ exact Hs | exact Hp ].
Defined.

(** ** Labels are at most 45 characters long *)

Lemma width_over_bound (rws : list row) (i : nat) (col : string) (b : nat) :
  String.length col <= b ->
  Forall (fun r => String.length (nth i r "") <= b) rws ->
  width_over rws i col <= b.
Proof.
  intros Hc H. unfold width_over. induction H as [| r t Hr _ IH]; simpl; lia.
Qed.

(** X9. Every label of the service-wide table and of the detail rows is a
    service name cut to 45 characters, so the first column of the
    service-wide table is never wider than 45. *)
Theorem service_labels_bounded (rs : list BillingRow) (ie : option string)
  (st : AggState) (rws : list row) :
  aggregate (QueryRows rs ie) = Ok st ->
  sku_rows st = Ok rws ->
  Forall (fun r => String.length (nth 0 r "") <= 45) rws /\
  nth 0 (widths_over sku_headers rws) 0 <= 45 /\
  (forall p data, In (p, data) (projects st) ->
     Forall (fun r => String.length (nth 0 r "") <= 45) (rows data)).
Proof.
  intros Hagg Hrows.
  destruct (aggregate_spec _ _ _ Hagg) as (_ & _ & Hkeys & _).
  assert (Hlab : Forall (fun r => String.length (nth 0 r "") <= 45) rws).
  { apply Forall_forall. intros r Hr.
    destruct (mapM_In _ _ _ _ Hrows Hr) as ([k v] & Hitem & Hrow).
    unfold sku_row in Hrow. simpl in Hrow. inv_bind Hrow. inversion Hrow; subst. simpl.
    apply sorted_sku_In in Hitem. apply (in_map fst) in Hitem. simpl in Hitem.
    rewrite Hkeys, first_seen_In in Hitem.
    apply in_map_iff in Hitem. destruct Hitem as (br & <- & _).
    unfold service_key. rewrite str_take_length. lia. }
  split; [ exact Hlab | ]. split.
  - change (nth 0 (widths_over sku_headers rws) 0) with (width_over rws 0 "SKU").
    apply width_over_bound; [ simpl; lia | exact Hlab ].
  - intros p data Hin. rewrite (project_rows_data _ _ _ _ _ Hagg Hin).
    rewrite Forall_map. apply Forall_forall. intros br _. simpl.
    unfold service_key. rewrite str_take_length. lia.
Qed.

Lemma service_labels_bounded_witness :
  Forall (fun r => String.length (nth 0 r "") <= 45) rows_long_names /\
  nth 0 (widths_over sku_headers rows_long_names) 0 <= 45.
Proof.
  destruct (service_labels_bounded long_names None state_long_names rows_long_names)
    as (Hl & Hw & _).
  - vm_compute. reflexivity.
  - vm_compute. reflexivity.
  - split; [ exact Hl | exact Hw ].
Defined.

(** ** Nothing raises once the anchor is sent *)

Lemma aggregate_ok_rows (q : QueryOutcome) (st : AggState) :
  aggregate q = Ok st -> exists rs, q = QueryRows rs None.
Proof.
  destruct q as [msg | rs [msg |]]; simpl; intros H; try discriminate.
  - destruct (agg_loop agg_init rs); discriminate.
  - eauto.
Qed.

Lemma main_blocks_project_rows (e : Env) (st : AggState) (bs : list Block) :
  main_blocks e st = Ok bs -> exists prows, project_rows st = Ok prows.
Proof.
  unfold main_blocks. intros H. inv_bind H. inv_bind H.
  unfold project_table_text in E0. inv_bind E0.
  unfold project_table_text_full in E1. inv_bind E1. eauto.
Qed.

Lemma detail_rows_three_cells (rs : list BillingRow) (ie : option string)
  (st : AggState) (p : string) (data : ProjectData) (shown_rows : list row) :
  aggregate (QueryRows rs ie) = Ok st -> In (p, data) (projects st) ->
  proj_rows_of data = Ok shown_rows ->
  Forall (fun r => List.length r = 3) shown_rows.
Proof.
  intros Hagg Hin Hs.
  eapply Permutation_Forall; [ symmetry; eapply sorted_desc_r_perm; exact Hs | ].
  rewrite (project_rows_data _ _ _ _ _ Hagg Hin), Forall_map.
  apply Forall_forall. reflexivity.
Qed.

Lemma thread_blocks_total (rs : list BillingRow) (ie : option string) (st : AggState)
  (prows : list row) (item : string * ProjectData) :
  aggregate (QueryRows rs ie) = Ok st ->
  project_rows st = Ok prows ->
  In item (projects st) ->
  exists bs, thread_blocks item = Ok bs.
Proof.
  intros Hagg Hrows Hin. destruct item as [p data].
  destruct (project_entry_of_data _ _ _ _ _ Hagg Hin) as (t & Ht & Hy & Hd).
  apply sorted_projects_In in Ht.
  destruct (mapM_In_fwd _ _ _ _ Hrows Ht) as (r & Hr & _).
  unfold project_row in Hr. simpl in Hr. inv_bind Hr. rewrite Hy, Hd in E.
  destruct (proj_rows_of_total _ _ _ _ _ Hagg Hin) as [shown Hs].
  destruct (table_lines_total ["SKU"; "Cost"; "Delta"] shown "TOTAL"
              (fmt2 (total_yesterday data)) v) as [lines Hl].
  { apply three_cell_rows_well_formed.
    eapply detail_rows_three_cells; eauto. }
  unfold thread_blocks, proj_table_text, build_table. simpl.
  rewrite E. simpl. rewrite Hs. simpl. rewrite Hl. simpl. eauto.
Qed.

Lemma thread_loop_total (snk : Sink) (main_ts : option string)
  (items : list (string * ProjectData)) (trace : list SendCall) :
  Forall (fun item => exists bs, thread_blocks item = Ok bs) items ->
  exists replies,
    thread_loop snk main_ts items trace = (Ok tt, trace ++ replies) /\
    Forall (fun call => thread_ts call = main_ts) replies /\
    List.length replies = List.length items.
Proof.
  intros H. revert trace; induction H as [| item t [bs Hbs] _ IH]; intros trace; simpl.
  - exists []. rewrite app_nil_r. repeat split. constructor.
  - rewrite Hbs.
    destruct (IH (trace ++ [{| blocks := bs; fallback_text := default_fallback;
                               thread_ts := main_ts |}]))
      as (replies & Heq & Hts & Hlen).
    exists ({| blocks := bs; fallback_text := default_fallback; thread_ts := main_ts |}
              :: replies).
    rewrite Heq, <- app_assoc. simpl. repeat split; auto.
Qed.

(** X10. A run ends in one of three ways.  When the credentials fail, one
    error message is sent and the query is not looked at.  When the query,
    the aggregation or the main tables raise, one error message is sent and
    nothing else.  Otherwise the anchor is sent first, every later call is a
    reply under the anchor's timestamp, one for each project when thread
    details are enabled, and the status is [Success]: no error message ever
    follows the anchor. *)
Theorem run_outcomes (e : Env) :
  match credentials e with
  | Raise m =>
      get_gcp_cost e = ("Error", [error_call (auth_error_prefix ^^ m)])
  | Ok _ =>
      (exists m, get_gcp_cost e = ("Error", [error_call (query_error_prefix ^^ m)])) \/
      (exists st bs replies,
         aggregate (query e) = Ok st /\
         get_gcp_cost e = ("Success", anchor_call bs :: replies) /\
         Forall (fun call => thread_ts call = sink e [] (anchor_call bs)) replies /\
         List.length replies
         = if SEND_THREAD_DETAILS e then List.length (projects st) else 0)
  end.
Proof.
  unfold get_gcp_cost. destruct (credentials e) as [u | m]; [ | reflexivity ].
  unfold report.
  destruct (aggregate (query e)) as [st | m] eqn:Hagg; simpl; [ | left; eauto ].
  destruct (main_blocks e st) as [bs | m] eqn:Hbs; simpl; [ | left; eauto ].
  right. exists st, bs. fold (anchor_call bs).
  destruct (SEND_THREAD_DETAILS e).
  - destruct (aggregate_ok_rows _ _ Hagg) as [rs Hq]. rewrite Hq in Hagg.
    destruct (main_blocks_project_rows _ _ _ Hbs) as [prows Hrows].
    destruct (thread_loop_total (sink e) (sink e [] (anchor_call bs))
                (sorted_projects_by_cost st) [anchor_call bs])
      as (replies & Heq & Hts & Hlen).
    { apply Forall_forall. intros item Hin.
      apply (thread_blocks_total rs None st prows); auto.
      eapply Permutation_in; [ apply sorted_desc_perm | exact Hin ]. }
    exists replies. rewrite Heq. simpl. repeat split; auto.
    rewrite Hlen. apply Permutation_length, sorted_desc_perm.
  - exists []. simpl. repeat split; auto.
Qed.

(** ** A delta that is not a finite number *)

(** X11. A record whose delta is NaN or an infinity cannot be converted by
    [int]: whatever the other records are, nothing is sent but one error
    message, whose section block and fallback text read [Error executing
    BigQuery query: ] followed by the conversion error.  The run returns
    [Error] when that send returns; when the send raises, its exception
    leaves the entry point. *)
Theorem bad_delta_fails_run (e : Env) (snk : Raising.Sink) (rs : list BillingRow)
  (ie : option string) (r : BillingRow) (d : float) :
  credentials e = Ok tt ->
  query e = QueryRows rs ie ->
  In r rs -> delta_percentage r = Some d -> is_finite d = false ->
  exists m,
    (m = "cannot convert float NaN to integer" \/
     m = "cannot convert float infinity to integer") /\
    Raising.get_gcp_cost e snk
    = (match snk [] {| blocks := [SectionBlock ("Error executing BigQuery query: " ^^ m)];
                       fallback_text := "Error executing BigQuery query: " ^^ m;
                       thread_ts := None |} with
       | Ok _ => Ok "Error"
       | Raise x => Raise x
       end,
       [ {| blocks := [SectionBlock ("Error executing BigQuery query: " ^^ m)];
            fallback_text := "Error executing BigQuery query: " ^^ m;
            thread_ts := None |} ]).
Proof.
  intros Hc Hq Hin Hd Hfin.
  assert (Hr : exists m, record_delta_str r = Raise m).
  { unfold record_delta_str. rewrite Hd.
    destruct d as [s | s | | s mm ee]; simpl in *; try discriminate; eauto. }
  destruct Hr as [m0 Hr].
  destruct (agg_loop_raises rs agg_init r m0 Hin Hr) as [m Hm].
  exists m. split.
  - now apply agg_loop_raise_message with rs agg_init.
  - apply raising_query_error_run with tt; [ exact Hc | ].
    rewrite Hq. simpl. now rewrite Hm.
Qed.

Lemma bad_delta_fails_run_witness :
  Raising.get_gcp_cost env_nan_delta (Raising.api_sink Http.unreachable_api "C0123")
  = (Ok "Error",
     [ {| blocks := [SectionBlock
                       "Error executing BigQuery query: cannot convert float NaN to integer"];
          fallback_text :=
            "Error executing BigQuery query: cannot convert float NaN to integer";
          thread_ts := None |} ]).
Proof.
  destruct (bad_delta_fails_run env_nan_delta
              (Raising.api_sink Http.unreachable_api "C0123") nan_delta_rows None
              {| project_id := "p1"; service_name := "Storage"; yesterday_cost := fz 30;
                 day_before_cost := Some (fz 1); delta_percentage := Some S754_nan |}
              S754_nan eq_refl eq_refl (or_intror (or_introl eq_refl)) eq_refl eq_refl)
    as (m & [-> | ->] & Hrun).
  - exact Hrun.
  - vm_compute in Hrun. discriminate Hrun.
Defined.

(** ** Lines without a newline *)

Lemma no_newline_app (a b : string) :
  no_newline (a ^^ b) = no_newline a && no_newline b.
Proof.
  induction a as [| ch t IH]; simpl; [ reflexivity | ].
  rewrite IH. now rewrite andb_assoc.
Qed.

Lemma no_newline_repeat (ch : ascii) (n : nat) :
  Ascii.eqb ch (ascii_of_nat 10) = false -> no_newline (str_repeat ch n) = true.
Proof.
  intros H. induction n as [| n IH]; simpl; [ reflexivity | ].
  now rewrite H, IH.
Qed.

Lemma no_newline_ljust (s : string) (w : nat) :
  no_newline s = true -> no_newline (ljust s w) = true.
Proof.
  intros H. unfold ljust. rewrite no_newline_app, H. now apply no_newline_repeat.
Qed.

Lemma no_newline_rjust (s : string) (w : nat) :
  no_newline s = true -> no_newline (rjust s w) = true.
Proof.
  intros H. unfold rjust. rewrite no_newline_app, H, andb_true_r.
  now apply no_newline_repeat.
Qed.

Lemma no_newline_join (sep : string) (l : list string) :
  no_newline sep = true -> Forall (fun s => no_newline s = true) l ->
  no_newline (join sep l) = true.
Proof.
  intros Hsep H. induction H as [| s t Hs Ht IH]; [ reflexivity | ].
  destruct t as [| s' t']; [ exact Hs | ].
  change (join sep (s :: s' :: t')) with (s ^^ sep ^^ join sep (s' :: t')).
  now rewrite !no_newline_app, Hs, Hsep, IH.
Qed.

Lemma all_digits_no_newline (s : string) : all_digits s = true -> no_newline s = true.
Proof.
  induction s as [| ch t IH]; simpl; [ reflexivity | ].
  destruct (digit_of ch) as [v |] eqn:Hd; [ | discriminate ].
  intros Ht. destruct (digit_not_special _ _ Hd) as (_ & _ & _ & Hnl).
  now rewrite Hnl, (IH Ht).
Qed.

Lemma str_of_int_no_newline (z : Z) : no_newline (str_of_int z) = true.
Proof.
  destruct (str_of_int_signed z) as (sign & t & -> & Ht).
  rewrite no_newline_app, (all_digits_no_newline _ Ht). now destruct sign.
Qed.

Lemma fmt2_no_newline (x : float) : no_newline (fmt2 x) = true.
Proof.
  destruct x as [[] | [] | | s m e]; try reflexivity.
  unfold fmt2, two_digits.
  rewrite !no_newline_app, !str_of_int_no_newline.
  destruct s; destruct (_ <? 10)%Z; reflexivity.
Qed.

Lemma delta_of_totals_no_newline (t p : float) (shown : string) :
  delta_of_totals t p = Ok shown -> no_newline shown = true.
Proof.
  unfold delta_of_totals. destruct (fgt p (float_of_int 0)); intros H.
  - inv_bind H. inv_bind H. inversion H; subst.
    now rewrite no_newline_app, str_of_int_no_newline.
  - now inversion H.
Qed.

Lemma padded_cells_no_newline (g : nat -> string -> nat -> string) (ws : list nat)
  (l : list string) (s : nat) (cells : list string) :
  (forall i x w, no_newline x = true -> no_newline (g i x w) = true) ->
  mapM (fun ic => w <- list_get ws (fst ic) ;; Ok (g (fst ic) (snd ic) w))
       (enumerate_from s l) = Ok cells ->
  Forall (fun x => no_newline x = true) l ->
  Forall (fun x => no_newline x = true) cells.
Proof.
  intros Hg. revert s cells; induction l as [| x t IH]; simpl; intros s cells H Hl.
  - inversion H; subst. constructor.
  - inv_bind H. inv_bind H. inversion H; subst. inv_bind E. inversion E; subst.
    inversion Hl; subst. constructor; [ now apply Hg | ]. now apply IH with (S s).
Qed.

Lemma data_line_no_newline (ws : list nat) (r : row) (line : string) :
  data_line ws r = Ok line -> Forall (fun x => no_newline x = true) r ->
  no_newline line = true.
Proof.
  unfold data_line. intros H Hr. inv_bind H. inversion H; subst.
  apply no_newline_join; [ reflexivity | ].
  apply (padded_cells_no_newline
           (fun i x w => match i with O => ljust x w | S _ => rjust x w end)
           ws r 0 v); auto.
  intros [| i] x w Hx; [ now apply no_newline_ljust | now apply no_newline_rjust ].
Qed.

Lemma header_line_no_newline (h : list string) (ws : list nat) (hl : string) :
  header_line_of h ws = Ok hl -> Forall (fun x => no_newline x = true) h ->
  no_newline hl = true.
Proof.
  unfold header_line_of. intros H Hh. inv_bind H. inversion H; subst.
  apply no_newline_join; [ reflexivity | ].
  apply (padded_cells_no_newline (fun _ x w => ljust x w) ws h 0 v); auto.
  intros i x w Hx. now apply no_newline_ljust.
Qed.

Lemma no_newline_app_intro (a b : string) :
  no_newline a = true -> no_newline b = true -> no_newline (a ^^ b) = true.
Proof.
  intros Ha Hb. now rewrite no_newline_app, Ha, Hb.
Qed.

Lemma overall_line_no_newline (h : list string) (ws : list nat) (l c d ol : string) :
  overall_line_of h ws l c d = Ok ol ->
  no_newline l = true -> no_newline c = true -> no_newline d = true ->
  no_newline ol = true.
Proof.
  unfold overall_line_of. intros H Hl Hc Hd. inv_bind H. inv_bind H.
  destruct (2 <? List.length h)%nat.
  - inv_bind H. inversion H; subst.
    repeat apply no_newline_app_intro;
      first [ assumption | reflexivity | now apply no_newline_ljust
            | now apply no_newline_rjust | apply no_newline_repeat; reflexivity ].
  - inversion H; subst.
    repeat apply no_newline_app_intro;
      first [ assumption | reflexivity | now apply no_newline_ljust
            | now apply no_newline_rjust | apply no_newline_repeat; reflexivity ].
Qed.

Lemma drop_last2_app {A} (l : list A) (a b : A) : drop_last2 (l ++ [a; b]) = l.
Proof.
  unfold drop_last2. rewrite length_app. simpl.
  replace (List.length l + 2 - 2) with (List.length l + 0) by lia.
  rewrite firstn_app_2. simpl. apply app_nil_r.
Qed.

Lemma project_cells_no_newline (items : list (string * ProjectTotals))
  (rws : list row) :
  Forall2 (fun item r =>
             exists shown,
               delta_of_totals (pt_total_yesterday (snd item))
                 (pt_total_day_before (snd item)) = Ok shown /\
               r = [fst item; fmt2 (pt_total_yesterday (snd item)); shown])
          items rws ->
  (forall item, In item items -> no_newline (fst item) = true) ->
  Forall (fun r => Forall (fun x => no_newline x = true) r) rws.
Proof.
  intros H. induction H as [| item r t t' (sh & Hdelta & ->) _ IH]; intros Hitems;
    constructor.
  - repeat constructor.
    + apply Hitems. now left.
    + apply fmt2_no_newline.
    + now apply delta_of_totals_no_newline in Hdelta.
  - apply IH. intros it Hit. apply Hitems. now right.
Qed.

(** X12. The project breakdown of the main message is the project table
    without its last two lines: when no project id has a newline in it, the
    text is the header, one separator and the rows of at most thirty
    projects, and neither the closing separator nor the OVERALL row. *)
Theorem project_breakdown_text (rs : list BillingRow) (ie : option string)
  (st : AggState) (prows : list row) (shown : string) :
  Forall (fun r => no_newline (project_id r) = true) rs ->
  aggregate (QueryRows rs ie) = Ok st ->
  project_rows st = Ok prows ->
  overall_delta_str st = Ok shown ->
  exists hl data,
    header_line_of project_headers (widths_over project_headers prows) = Ok hl /\
    mapM (data_line (widths_over project_headers prows)) (firstn 30 prows) = Ok data /\
    project_table_text st
    = Ok (join nl (hl :: separator_of (widths_over project_headers prows) :: data)).
Proof.
  intros Hnl Hagg Hrows Ho.
  destruct (aggregate_spec _ _ _ Hagg) as (_ & _ & _ & _ & Hkeys & _).
  destruct (table_lines_total project_headers prows "OVERALL" (overall_cost_str st) shown)
    as [lines Hl].
  { apply three_cell_rows_well_formed. now apply project_rows_three_cells with st. }
  destruct (table_lines_shape _ _ _ _ _ _ Hl) as (ws & hl & data & ol & Hw & Hhl & Hd & Hol & ->).
  apply col_widths_spec in Hw. subst ws. set (ws := widths_over project_headers prows) in *.
  exists hl, data. split; [ exact Hhl | ]. split; [ exact Hd | ].
  assert (Hcells : Forall (fun r => Forall (fun x => no_newline x = true) r) prows).
  { apply project_rows_Forall2 in Hrows.
    apply (project_cells_no_newline _ _ Hrows).
    intros [p t] Hin. apply sorted_projects_In in Hin.
    apply (in_map fst) in Hin. rewrite Hkeys, first_seen_In in Hin.
    apply in_map_iff in Hin. destruct Hin as (br & <- & Hbr).
    rewrite Forall_forall in Hnl. now apply Hnl. }
  assert (Hsep : no_newline (separator_of ws) = true)
    by (apply no_newline_repeat; reflexivity).
  assert (Hlines : Forall (fun s => no_newline s = true)
                          (hl :: separator_of ws :: data ++ [separator_of ws; ol])).
  { constructor; [ apply (header_line_no_newline _ _ _ Hhl); repeat constructor | ].
    constructor; [ exact Hsep | ].
    apply Forall_app. split.
    - apply mapM_Forall2 in Hd.
      assert (Hk : Forall (fun r => Forall (fun x => no_newline x = true) r)
                          (firstn 30 prows)).
      { apply Forall_forall. intros r Hr. rewrite Forall_forall in Hcells.
        apply Hcells. eapply firstn_incl; eauto. }
      clear -Hd Hk. induction Hd as [| r line t t' Hline _ IH]; constructor.
      + inversion Hk; subst. eapply data_line_no_newline; eauto.
      + inversion Hk; subst. now apply IH.
    - constructor; [ exact Hsep | ]. constructor; [ | constructor ].
      apply (overall_line_no_newline _ _ _ _ _ _ Hol); try reflexivity.
      + apply fmt2_no_newline.
      + now apply delta_of_totals_no_newline in Ho. }
  unfold project_table_text, project_table_text_full, build_table.
  rewrite Hrows, Ho. cbn [bind]. fold project_headers. rewrite Hl. cbn [bind].
  assert (Hne : hl :: separator_of ws :: data ++ [separator_of ws; ol] <> [])
    by discriminate.
  rewrite (split_nl_join _ Hne Hlines).
  replace (hl :: separator_of ws :: data ++ [separator_of ws; ol])
    with ((hl :: separator_of ws :: data) ++ [separator_of ws; ol]) by reflexivity.
  rewrite drop_last2_app.
  destruct (Nat.leb_spec 2
              (List.length ((hl :: separator_of ws :: data) ++ [separator_of ws; ol])))
    as [_ | Hlt]; [ reflexivity | ].
  rewrite length_app in Hlt. simpl in Hlt. lia.
Qed.

Lemma project_breakdown_text_witness :
  exists hl data,
    header_line_of project_headers
      (widths_over project_headers (value_or [] (project_rows state_two_projects))) = Ok hl /\
    mapM (data_line (widths_over project_headers
                       (value_or [] (project_rows state_two_projects))))
         (firstn 30 (value_or [] (project_rows state_two_projects))) = Ok data /\
    project_table_text state_two_projects
    = Ok (join nl (hl :: separator_of
                           (widths_over project_headers
                              (value_or [] (project_rows state_two_projects))) :: data)).
Proof.
  apply (project_breakdown_text two_projects None state_two_projects
           (value_or [] (project_rows state_two_projects)) "49%").
  - repeat constructor.
  - vm_compute. reflexivity.
  - vm_compute. reflexivity.
  - vm_compute. reflexivity.
Defined.

(** ** When an aggregate delta is [N/A] and when it raises *)

(** X13. The delta of an aggregate is [N/A] whenever the previous total is
    not greater than zero, a negative total and NaN included.  The division
    is guarded: computing the delta never divides by zero, and raises only
    when the rounded quotient is NaN or an infinity. *)
Theorem delta_of_totals_errors (t p : float) :
  (fgt p (float_of_int 0) = false -> delta_of_totals t p = Ok "N/A") /\
  (forall m, delta_of_totals t p = Raise m ->
     fgt p (float_of_int 0) = true /\
     (m = nan_to_int_error \/ m = infinity_to_int_error)).
Proof.
  unfold delta_of_totals. split.
  - intros H. now rewrite H.
  - intros m H. destruct (fgt p (float_of_int 0)) eqn:Hp; [ | discriminate H ].
    split; [ reflexivity | ].
    assert (Hdiv : py_truediv (fsub t p) p = Ok (SFdiv prec emax (fsub t p) p)).
    { destruct p as [[] | | |]; try discriminate Hp; reflexivity. }
    rewrite Hdiv in H. cbn [bind] in H.
    destruct (py_round (fmul (SFdiv prec emax (fsub t p) p) (float_of_int 100)))
      as [z | m'] eqn:Hr; cbn [bind] in H; [ discriminate H | ].
    inversion H; subst.
    unfold py_round in Hr.
    destruct (fmul (SFdiv prec emax (fsub t p) p) (float_of_int 100));
      inversion Hr; auto.
Qed.

Lemma delta_of_totals_errors_witness :
  delta_of_totals (fz 120) (fz (-5)) = Ok "N/A" /\
  delta_of_totals (S754_infinity false) (fz 5) = Raise infinity_to_int_error.
Proof.
  destruct (delta_of_totals_errors (fz 120) (fz (-5))) as [Hna _].
  destruct (delta_of_totals_errors (S754_infinity false) (fz 5)) as [_ Hraise].
  split; [ apply Hna; reflexivity | ].
  destruct (Hraise infinity_to_int_error) as [_ _]; reflexivity.
Defined.

(** ** The project breakdown toggle *)

Lemma thread_loop_blocks (snk : Sink) (ts ts' : option string)
  (items : list (string * ProjectData)) (tr tr' : list SendCall) :
  exists r calls calls',
    thread_loop snk ts items tr = (r, tr ++ calls) /\
    thread_loop snk ts' items tr' = (r, tr' ++ calls') /\
    map blocks calls = map blocks calls'.
Proof.
  revert tr tr'; induction items as [| item t IH]; intros tr tr'; simpl.
  - exists (Ok tt), [], []. rewrite !app_nil_r. auto.
  - destruct (thread_blocks item) as [bs | m].
    + destruct (IH (tr ++ [{| blocks := bs; fallback_text := default_fallback;
                              thread_ts := ts |}])
                   (tr' ++ [{| blocks := bs; fallback_text := default_fallback;
                               thread_ts := ts' |}]))
        as (r & calls & calls' & H1 & H2 & Hb).
      exists r,
        ({| blocks := bs; fallback_text := default_fallback; thread_ts := ts |} :: calls),
        ({| blocks := bs; fallback_text := default_fallback; thread_ts := ts' |} :: calls').
      rewrite H1, H2, <- !app_assoc. simpl. rewrite Hb. auto.
    + exists (Raise m), [], []. rewrite !app_nil_r. auto.
Qed.

(** X14. Switching the project breakdown on or off changes the blocks of
    the anchor message only: the status is the same, as many calls are made
    to the sink, and the calls after the first carry the same blocks.  In
    particular the project table is built, and can make the run fail, also
    when the breakdown is off. *)
Theorem breakdown_changes_anchor_only (e : Env) :
  let on := get_gcp_cost (with_breakdown true e) in
  let off := get_gcp_cost (with_breakdown false e) in
  fst on = fst off /\
  List.length (snd on) = List.length (snd off) /\
  map blocks (tl (snd on)) = map blocks (tl (snd off)).
Proof.
  unfold get_gcp_cost, with_breakdown. simpl.
  destruct (credentials e) as [u | m]; [ | auto ].
  unfold report, main_blocks. simpl.
  destruct (aggregate (query e)) as [st | m]; simpl; [ | auto ].
  destruct (sku_table_text st) as [sku | m]; simpl; [ | auto ].
  destruct (project_table_text st) as [proj | m]; simpl; [ | auto ].
  destruct (SEND_THREAD_DETAILS e); [ | auto ].
  match goal with
  | |- context [thread_loop ?s ?a ?items [?c1]] =>
      match goal with
      | |- context [thread_loop s ?b items [?c2]] =>
          lazymatch c1 with
          | c2 => fail
          | _ => destruct (thread_loop_blocks s a b items [c1] [c2])
                   as (r & calls & calls' & H1 & H2 & Hb)
          end
      end
  end.
  rewrite H1, H2. pose proof (f_equal (@List.length _) Hb) as Hlen.
  rewrite !length_map in Hlen.
  destruct r as [u' | m]; simpl;
    repeat split; rewrite ?length_app, ?map_app, ?Hb, ?Hlen; reflexivity.
Qed.

(** ** [send_slack_message]: the requests it makes *)

Lemma resolve_channel_cases (api : Http.Api) (channel_id : string) :
  (exists final logs,
     Http.resolve_channel api channel_id
     = (Ok final,
        if String.prefix "U" channel_id then [Http.OpenRequest channel_id] else [],
        logs)) \/
  (String.prefix "U" channel_id = true /\
   Http.resolve_channel api channel_id
   = (Raise "'channel'", [Http.OpenRequest channel_id], []) /\
   exists d,
     Http.conversations_open api channel_id = Http.Json d /\
     Http.open_ok d = true /\ Http.open_channel_id d = None).
Proof.
  unfold Http.resolve_channel. destruct (String.prefix "U" channel_id); [ | left; eauto ].
  destruct (Http.conversations_open api channel_id) as [e | d]; [ left; eauto | ].
  destruct (Http.open_ok d) eqn:Hok; [ | left; eauto ].
  destruct (Http.open_channel_id d) eqn:Hid; [ left; eauto | ].
  right. split; [ reflexivity | ]. split; [ reflexivity | ]. exists d. auto.
Qed.

(** X15. A call of [send_slack_message] posts one message, as its last
    request, with the blocks, the fallback text and the thread timestamp it
    was given, after one [conversations.open] request when the channel id
    starts with [U] and after none otherwise.  The only call that raises,
    and posts nothing, is the one whose [conversations.open] answers [ok]
    without a channel id. *)
Theorem send_request_sequence (api : Http.Api) (bs : list Block)
  (fallback : string) (ts : option string) (channel_id : string) :
  let o := Http.send_slack_message api bs fallback ts channel_id in
  match Http.returned o with
  | Ok _ =>
      exists final,
        Http.requests o
        = (if String.prefix "U" channel_id then [Http.OpenRequest channel_id] else [])
          ++ [Http.PostRequest
                {| Http.channel := final; Http.payload_blocks := bs;
                   Http.text := fallback; Http.payload_thread_ts := ts |}]
  | Raise msg =>
      msg = "'channel'" /\
      String.prefix "U" channel_id = true /\
      Http.requests o = [Http.OpenRequest channel_id] /\
      exists d,
        Http.conversations_open api channel_id = Http.Json d /\
        Http.open_ok d = true /\ Http.open_channel_id d = None
  end.
Proof.
  unfold Http.send_slack_message.
  destruct (resolve_channel_cases api channel_id)
    as [(final & logs & ->) | (Hp & -> & Hd)].
  - destruct (Http.chat_postMessage api _) as [e | d]; simpl.
    + eauto.
    + destruct (Http.post_ok d); simpl; eauto.
  - simpl. auto.
Qed.

(** X16. When the channel id starts with [U] and the direct-message channel
    cannot be opened, because the request fails or the answer is not [ok],
    the message is still posted, to the user id itself, and the failure is
    the first record logged, an error. *)
Theorem dm_open_failure_falls_back (api : Http.Api) (bs : list Block)
  (fallback : string) (ts : option string) (channel_id : string) :
  String.prefix "U" channel_id = true ->
  (forall d, Http.conversations_open api channel_id = Http.Json d ->
             Http.open_ok d = false) ->
  let o := Http.send_slack_message api bs fallback ts channel_id in
  Http.requests o
  = [Http.OpenRequest channel_id;
     Http.PostRequest
       {| Http.channel := channel_id; Http.payload_blocks := bs;
          Http.text := fallback; Http.payload_thread_ts := ts |}] /\
  (exists err rest, Http.logged o = Http.LogError err :: rest) /\
  (exists r, Http.returned o = Ok r).
Proof.
  intros Hp Hopen. unfold Http.send_slack_message, Http.resolve_channel. rewrite Hp.
  destruct (Http.conversations_open api channel_id) as [e | d] eqn:Ho.
  - destruct (Http.chat_postMessage api _) as [e' | d']; simpl;
      [ | destruct (Http.post_ok d'); simpl ]; repeat split; eauto.
  - rewrite (Hopen d eq_refl).
    destruct (Http.chat_postMessage api _) as [e' | d']; simpl;
      [ | destruct (Http.post_ok d'); simpl ]; repeat split; eauto.
Qed.

Lemma dm_open_failure_falls_back_witness :
  Http.requests (Http.send_slack_message Http.unreachable_api [] "report" None "U123")
  = [Http.OpenRequest "U123";
     Http.PostRequest
       {| Http.channel := "U123"; Http.payload_blocks := [];
          Http.text := "report"; Http.payload_thread_ts := None |}].
Proof.
  destruct (dm_open_failure_falls_back Http.unreachable_api [] "report" None "U123")
    as (Hreq & _).
  - reflexivity.
  - intros d Hd. discriminate Hd.
  - exact Hreq.
Defined.

(** X17. [send_slack_message] returns a timestamp only when the API accepted
    the post: the answer to the last request is [ok] and carries that
    timestamp, and the last record logged is the success.  When the post
    fails or is refused, the call returns [None] and its last record is an
    error. *)
Theorem send_returns_timestamp (api : Http.Api) (bs : list Block)
  (fallback : string) (ts : option string) (channel_id : string) :
  let o := Http.send_slack_message api bs fallback ts channel_id in
  (forall stamp, Http.returned o = Ok (Some stamp) ->
     exists p d,
       last (Http.requests o) (Http.OpenRequest "") = Http.PostRequest p /\
       Http.chat_postMessage api p = Http.Json d /\
       Http.post_ok d = true /\ Http.post_ts d = Some stamp /\
       Http.is_error (last (Http.logged o) (Http.LogError "")) = false) /\
  (forall p,
     last (Http.requests o) (Http.OpenRequest "") = Http.PostRequest p ->
     (forall d, Http.chat_postMessage api p = Http.Json d -> Http.post_ok d = false) ->
     Http.returned o = Ok None /\
     Http.is_error (last (Http.logged o) (Http.LogError "")) = true).
Proof.
  unfold Http.send_slack_message.
  destruct (resolve_channel_cases api channel_id)
    as [(final & logs & ->) | (Hp & -> & Hd)].
  - set (payload := {| Http.channel := final; Http.payload_blocks := bs;
                       Http.text := fallback; Http.payload_thread_ts := ts |}).
    destruct (Http.chat_postMessage api payload) as [e | d] eqn:Hpost; simpl.
    + split; [ intros stamp H; discriminate H | ].
      intros p _ _. now rewrite last_last.
    + destruct (Http.post_ok d) eqn:Hok; simpl.
      * split.
        -- intros stamp H. inversion H as [Hts]. exists payload, d.
           rewrite !last_last. auto.
        -- intros p Hlast Hrefused. rewrite last_last in Hlast.
           inversion Hlast; subst p. rewrite (Hrefused d Hpost) in Hok. discriminate.
      * split; [ intros stamp H; discriminate H | ].
        intros p _ _. now rewrite last_last.
  - simpl. split; [ intros stamp H; discriminate H | ].
    intros p Hlast. discriminate Hlast.
Qed.

Lemma send_returns_timestamp_witness :
  exists p d,
    last (Http.requests
            (Http.send_slack_message Http.friendly_api [] "report" None "U123"))
         (Http.OpenRequest "") = Http.PostRequest p /\
    Http.chat_postMessage Http.friendly_api p = Http.Json d /\
    Http.post_ok d = true /\ Http.post_ts d = Some "1700000000.000100" /\
    Http.is_error
      (last (Http.logged
               (Http.send_slack_message Http.friendly_api [] "report" None "U123"))
            (Http.LogError "")) = false.
Proof.
  destruct (send_returns_timestamp Http.friendly_api [] "report" None "U123") as [Hts _].
  apply (Hts "1700000000.000100"). reflexivity.
Defined.

(** ** A run over the API *)

(** A call whose channel opens cleanly returns, after posting its message
    as the last request. *)
Lemma clean_send_returns (api : Http.Api) (bs : list Block) (fallback : string)
  (ts : option string) (channel_id : string) :
  opens_cleanly api channel_id ->
  exists r final,
    Http.returned (Http.send_slack_message api bs fallback ts channel_id) = Ok r /\
    Http.requests (Http.send_slack_message api bs fallback ts channel_id)
    = (if String.prefix "U" channel_id then [Http.OpenRequest channel_id] else [])
      ++ [Http.PostRequest
            {| Http.channel := final; Http.payload_blocks := bs;
               Http.text := fallback; Http.payload_thread_ts := ts |}].
Proof.
  intros Hclean. unfold Http.send_slack_message.
  destruct (resolve_channel_cases api channel_id)
    as [(final & logs & ->) | (Hp & _ & d & Hd & Hok & Hid)].
  - destruct (Http.chat_postMessage api _) as [e | d]; simpl;
      [ | destruct (Http.post_ok d); simpl ]; eauto.
  - exfalso. exact (Hclean Hp d Hd Hok Hid).
Qed.

Lemma clean_send_posted (api : Http.Api) (channel_id : string) (call : SendCall) :
  opens_cleanly api channel_id ->
  exists final,
    posted api channel_id call
    = [ {| Http.channel := final; Http.payload_blocks := blocks call;
           Http.text := fallback_text call;
           Http.payload_thread_ts := thread_ts call |} ].
Proof.
  intros Hclean.
  destruct (clean_send_returns api (blocks call) (fallback_text call) (thread_ts call)
              channel_id Hclean) as (r & final & _ & Hreq).
  exists final. unfold posted. rewrite Hreq.
  destruct (String.prefix "U" channel_id); reflexivity.
Qed.

(** A run whose aggregation and main tables go through, on a sink that
    returns: the anchor, then one reply for each project. *)
Lemma success_run (e : Env) (u : unit) (st : AggState) (bs : list Block) :
  credentials e = Ok u ->
  aggregate (query e) = Ok st ->
  main_blocks e st = Ok bs ->
  SEND_THREAD_DETAILS e = true ->
  exists replies,
    get_gcp_cost e = ("Success", anchor_call bs :: replies) /\
    Forall2 (is_reply_for (sink e [] (anchor_call bs)))
            (sorted_projects_by_cost st) replies.
Proof.
  intros Hc Hagg Hbs Hd. unfold get_gcp_cost, report. rewrite Hc, Hagg. cbn [bind].
  rewrite Hbs. cbn [bind]. rewrite Hd. fold (anchor_call bs).
  unfold send_slack_message. cbn [app].
  destruct (aggregate_ok_rows _ _ Hagg) as [rs Hq]. rewrite Hq in Hagg.
  destruct (main_blocks_project_rows _ _ _ Hbs) as [prows Hrows].
  destruct (thread_loop_total (sink e) (sink e [] (anchor_call bs))
              (sorted_projects_by_cost st) [anchor_call bs])
    as (replies & Heq & _ & _).
  { apply Forall_forall. intros item Hin.
    apply (thread_blocks_total rs None st prows); auto.
    eapply Permutation_in; [ apply sorted_desc_perm | exact Hin ]. }
  rewrite Heq. destruct (thread_loop_ok _ _ _ _ _ _ Heq) as (replies' & Happ & HF).
  apply app_inv_head in Happ. subst replies'.
  exists replies. split; [ reflexivity | exact HF ].
Qed.

(** X18. Over an API whose calls do not raise, when the post of the anchor
    fails or is refused the run still returns [Success] and still sends one
    reply for each project, in the order of the thread; each reply posts one
    message, and that message has no thread timestamp: it goes to the
    channel itself, not into a thread. *)
Theorem failed_anchor_unthreads_replies (e : Env) (api : Http.Api)
  (channel_id : string) (st : AggState) (bs : list Block) :
  credentials e = Ok tt ->
  aggregate (query e) = Ok st ->
  main_blocks e st = Ok bs ->
  SEND_THREAD_DETAILS e = true ->
  opens_cleanly api channel_id ->
  Http.returned (Http.send_slack_message api bs default_fallback None channel_id)
  = Ok None ->
  exists replies,
    Raising.get_gcp_cost e (Raising.api_sink api channel_id)
    = (Ok "Success", anchor_call bs :: replies) /\
    List.length replies = List.length (projects st) /\
    Forall2 (is_reply_for None) (sorted_projects_by_cost st) replies /\
    Forall (fun call =>
              exists final,
                posted api channel_id call
                = [ {| Http.channel := final; Http.payload_blocks := blocks call;
                       Http.text := default_fallback;
                       Http.payload_thread_ts := None |} ])
           replies.
Proof.
  intros Hc Hagg Hbs Hd Hclean Hanchor.
  set (snk := fun (tr : list SendCall) (c : SendCall) =>
                value_or None (Raising.api_sink api channel_id tr c)).
  assert (Hret : forall tr c,
             Raising.api_sink api channel_id tr c = Ok (sink (with_sink snk e) tr c)).
  { intros tr c. unfold snk, with_sink, Raising.api_sink. cbn [sink].
    destruct (clean_send_returns api (blocks c) (fallback_text c) (thread_ts c)
                channel_id Hclean) as (r & final & Hr & _).
    rewrite Hr. reflexivity. }
  change (Raising.get_gcp_cost e (Raising.api_sink api channel_id))
    with (Raising.get_gcp_cost (with_sink snk e) (Raising.api_sink api channel_id)).
  rewrite (returning_sink_run_ext _ _ Hret).
  destruct (success_run (with_sink snk e) tt st bs Hc Hagg Hbs Hd)
    as (replies & Hrun & HF).
  assert (Hts : sink (with_sink snk e) [] (anchor_call bs) = None).
  { unfold snk, with_sink, Raising.api_sink, anchor_call. cbn [sink blocks fallback_text thread_ts].
    now rewrite Hanchor. }
  rewrite Hts in HF. rewrite Hrun. cbn [fst snd].
  exists replies. split; [ reflexivity | ]. split.
  { rewrite <- (Forall2_length HF). apply Permutation_length, sorted_desc_perm. }
  split; [ exact HF | ].
  clear Hrun. induction HF as [| item call t t' (_ & Hfb & Hnone) _ IH]; constructor;
    [ | exact IH ].
  destruct (clean_send_posted api channel_id call Hclean) as [final Hp].
  exists final. now rewrite Hp, Hfb, Hnone.
Qed.

Lemma failed_anchor_unthreads_replies_witness :
  exists replies,
    Raising.get_gcp_cost env_thread_details (Raising.api_sink refusing_api "C0123")
    = (Ok "Success", anchor_call blocks_two_projects :: replies) /\
    List.length replies = 2 /\
    Forall2 (is_reply_for None) (sorted_projects_by_cost state_two_projects) replies /\
    Forall (fun call =>
              exists final,
                posted refusing_api "C0123" call
                = [ {| Http.channel := final; Http.payload_blocks := blocks call;
                       Http.text := default_fallback;
                       Http.payload_thread_ts := None |} ])
           replies.
Proof.
  apply (failed_anchor_unthreads_replies env_thread_details refusing_api "C0123"
           state_two_projects blocks_two_projects).
  - reflexivity.
  - vm_compute. reflexivity.
  - vm_compute. reflexivity.
  - reflexivity.
  - intros Hp. vm_compute in Hp. discriminate Hp.
  - reflexivity.
Defined.

(** ** Sends that raise *)

(** X20. When the send of the anchor raises, the exception is caught by the
    second [try] like any other: no reply is sent, and one more send is
    attempted, the error message, whose section block and fallback text read
    [Error executing BigQuery query: ] followed by the text of the exception
    of the send.  The run returns [Error] when that second send returns;
    when it raises too, its exception leaves the entry point. *)
Theorem raised_anchor_is_reported (e : Env) (snk : Raising.Sink) (st : AggState)
  (bs : list Block) (m : string) :
  credentials e = Ok tt ->
  aggregate (query e) = Ok st ->
  main_blocks e st = Ok bs ->
  snk [] {| blocks := bs; fallback_text := "GCP Cost Report"; thread_ts := None |}
  = Raise m ->
  Raising.get_gcp_cost e snk
  = (match snk [ {| blocks := bs; fallback_text := "GCP Cost Report";
                    thread_ts := None |} ]
               {| blocks := [SectionBlock ("Error executing BigQuery query: " ^^ m)];
                  fallback_text := "Error executing BigQuery query: " ^^ m;
                  thread_ts := None |} with
     | Ok _ => Ok "Error"
     | Raise x => Raise x
     end,
     [ {| blocks := bs; fallback_text := "GCP Cost Report"; thread_ts := None |};
       {| blocks := [SectionBlock ("Error executing BigQuery query: " ^^ m)];
          fallback_text := "Error executing BigQuery query: " ^^ m;
          thread_ts := None |} ]).
Proof.
  intros Hc Hagg Hbs Hraise. unfold Raising.get_gcp_cost, Raising.report.
  rewrite Hc, Hagg. cbn [bind]. rewrite Hbs. cbn [bind].
  unfold Raising.send_slack_message, default_fallback. cbn [app].
  rewrite Hraise. clear Hraise.
  match goal with
  | |- context [match ?s with Ok _ => _ | Raise _ => _ end] => destruct s
  end; reflexivity.
Qed.

Lemma raised_anchor_is_reported_witness :
  Raising.get_gcp_cost env_thread_details (Raising.api_sink keyless_api "U0123")
  = (Raise "'channel'",
     [ {| blocks := blocks_two_projects; fallback_text := "GCP Cost Report";
          thread_ts := None |};
       {| blocks := [SectionBlock "Error executing BigQuery query: 'channel'"];
          fallback_text := "Error executing BigQuery query: 'channel'";
          thread_ts := None |} ]).
Proof.
  apply (raised_anchor_is_reported env_thread_details
           (Raising.api_sink keyless_api "U0123") state_two_projects
           blocks_two_projects "'channel'").
  - reflexivity.
  - vm_compute. reflexivity.
  - vm_compute. reflexivity.
  - reflexivity.
Defined.

Lemma raising_thread_loop_ok (snk : Raising.Sink) (main_ts : option string)
  (items : list (string * ProjectData)) (trace trace' : list SendCall) (u : unit) :
  Raising.thread_loop snk main_ts items trace = (Ok u, trace') ->
  exists replies,
    trace' = trace ++ replies /\
    Forall2 (is_reply_for main_ts) items replies /\
    (forall pre call post,
       replies = pre ++ call :: post -> exists r, snk (trace ++ pre) call = Ok r).
Proof.
  revert trace; induction items as [| item t IH]; simpl; intros trace H.
  - inversion H; subst. exists []. rewrite app_nil_r.
    split; [ reflexivity | ]. split; [ constructor | ].
    intros pre call post Heq. destruct pre; discriminate Heq.
  - destruct (thread_blocks item) as [bs | msg] eqn:Eb; [ | discriminate ].
    unfold Raising.send_slack_message in H.
    destruct (snk trace {| blocks := bs; fallback_text := default_fallback;
                           thread_ts := main_ts |}) as [r0 | m] eqn:Hsend;
      [ | discriminate ].
    apply IH in H. destruct H as (replies & -> & HF & Hret).
    exists ({| blocks := bs; fallback_text := default_fallback; thread_ts := main_ts |}
              :: replies).
    split; [ now rewrite <- app_assoc | ].
    split; [ constructor; [ repeat split; exact Eb | exact HF ] | ].
    intros pre call post Heq. destruct pre as [| c pre'].
    + simpl in Heq. injection Heq as <- _. rewrite app_nil_r. eauto.
    + simpl in Heq. injection Heq as <- Heq.
      destruct (Hret _ _ _ Heq) as [r Hr]. exists r.
      rewrite <- Hr. f_equal. rewrite <- app_assoc. reflexivity.
Qed.

(** X21. A run that returns [Success] raised in none of its sends: its
    first call is the anchor, to which the sink answered with a timestamp or
    with [None]; every later call is a reply that carries that answer as its
    thread timestamp, one for each project in the order of the thread when
    thread details are enabled and none otherwise; and the sink answered each
    of them. *)
Theorem success_sends_returned (e : Env) (snk : Raising.Sink) (trace : list SendCall) :
  Raising.get_gcp_cost e snk = (Ok "Success", trace) ->
  exists st bs main_ts replies,
    aggregate (query e) = Ok st /\
    main_blocks e st = Ok bs /\
    trace = anchor_call bs :: replies /\
    snk [] (anchor_call bs) = Ok main_ts /\
    (SEND_THREAD_DETAILS e = false -> replies = []) /\
    (SEND_THREAD_DETAILS e = true ->
       Forall2 (is_reply_for main_ts) (sorted_projects_by_cost st) replies) /\
    (forall pre call post,
       replies = pre ++ call :: post ->
       exists r, snk (anchor_call bs :: pre) call = Ok r).
Proof.
  unfold Raising.get_gcp_cost.
  destruct (credentials e) as [u | m].
  2:{ unfold Raising.send_slack_message. destruct (snk _ _); discriminate. }
  destruct (Raising.report e snk []) as [[u' | m] tr] eqn:Hrep.
  2:{ unfold Raising.send_slack_message. destruct (snk _ _); discriminate. }
  intros H. injection H as <-.
  unfold Raising.report in Hrep.
  destruct (aggregate (query e)) as [st | msg] eqn:Hagg; cbn [bind] in Hrep;
    [ | discriminate Hrep ].
  destruct (main_blocks e st) as [bs | msg] eqn:Hbs; cbn [bind] in Hrep;
    [ | discriminate Hrep ].
  fold (anchor_call bs) in Hrep. unfold Raising.send_slack_message in Hrep.
  destruct (snk [] (anchor_call bs)) as [main_ts | msg] eqn:Hanchor;
    [ | discriminate Hrep ].
  cbn [app] in Hrep. exists st, bs, main_ts.
  destruct (SEND_THREAD_DETAILS e).
  - apply raising_thread_loop_ok in Hrep. destruct Hrep as (replies & -> & HF & Hret).
    exists replies. split; [ reflexivity | ]. split; [ exact Hbs | ].
    split; [ reflexivity | ]. split; [ exact Hanchor | ].
    split; [ intros Hf; discriminate Hf | ]. split; [ intros _; exact HF | exact Hret ].
  - inversion Hrep; subst tr. exists []. split; [ reflexivity | ]. split; [ exact Hbs | ].
    split; [ reflexivity | ]. split; [ exact Hanchor | ]. split; [ reflexivity | ].
    split; [ intros Hf; discriminate Hf | ].
    intros pre call post Heq. destruct pre; discriminate Heq.
Qed.

Lemma success_sends_returned_witness :
  exists st bs main_ts replies,
    aggregate (query env_thread_details) = Ok st /\
    main_blocks env_thread_details st = Ok bs /\
    trace_posts_refused = anchor_call bs :: replies /\
    Raising.api_sink refusing_api "C0123" [] (anchor_call bs) = Ok main_ts /\
    (SEND_THREAD_DETAILS env_thread_details = false -> replies = []) /\
    (SEND_THREAD_DETAILS env_thread_details = true ->
       Forall2 (is_reply_for main_ts)
               (sorted_projects_by_cost st) replies) /\
    (forall pre call post,
       replies = pre ++ call :: post ->
       exists r, Raising.api_sink refusing_api "C0123" (anchor_call bs :: pre) call = Ok r).
Proof.
  apply (success_sends_returned env_thread_details
           (Raising.api_sink refusing_api "C0123") trace_posts_refused).
  vm_compute. reflexivity.
Defined.

(** ** The aggregates do not read the deltas of the records *)

Lemma fold_accumulate_map {R V} (f : R -> R) (key : R -> string) (init : V)
  (upd : R -> V -> V) (rs : list R) (d : dict V) :
  (forall r, key (f r) = key r) -> (forall r, upd (f r) = upd r) ->
  fold_left (accumulate key init upd) (map f rs) d
  = fold_left (accumulate key init upd) rs d.
Proof.
  intros Hk Hu. revert d; induction rs as [| r t IH]; intros d; simpl; [ reflexivity | ].
  rewrite IH. unfold accumulate at 2 4. now rewrite Hk, Hu.
Qed.

Lemma agg_loop_without_delta (rs : list BillingRow) (st : AggState) :
  agg_loop st (map erase_delta rs) = Ok (fold_left agg_step_pure (map erase_delta rs) st).
Proof.
  revert st; induction rs as [| r t IH]; intros st; simpl; [ reflexivity | ].
  rewrite <- IH. reflexivity.
Qed.

(** X19. The service-wide and project-wide aggregates and the overall totals
    do not depend on the deltas that the records carry: erasing every delta
    of the input gives the same sums under the same keys, and an aggregation
    that cannot raise. *)
Theorem aggregates_ignore_record_deltas (rs : list BillingRow) (ie : option string)
  (st : AggState) :
  aggregate (QueryRows rs ie) = Ok st ->
  exists st',
    aggregate (QueryRows (map erase_delta rs) None) = Ok st' /\
    sku_agg st' = sku_agg st /\
    project_totals st' = project_totals st /\
    overall_total_yesterday st' = overall_total_yesterday st /\
    overall_total_day_before st' = overall_total_day_before st /\
    sku_rows st' = sku_rows st /\
    project_rows st' = project_rows st.
Proof.
  unfold aggregate. intros H. inv_bind H. apply agg_loop_ok in E. destruct E as [_ ->].
  destruct ie; [ discriminate | ]. inversion H; subst; clear H.
  rewrite agg_loop_without_delta. simpl.
  eexists. split; [ reflexivity | ].
  destruct (fold_pure_projections rs agg_init) as (H1 & H2 & _ & H4 & H5).
  destruct (fold_pure_projections (map erase_delta rs) agg_init)
    as (H1' & H2' & _ & H4' & H5').
  simpl in *.
  assert (Hsku : sku_agg (fold_left agg_step_pure (map erase_delta rs) agg_init)
                 = sku_agg (fold_left agg_step_pure rs agg_init)).
  { rewrite H4, H4'. now apply fold_accumulate_map. }
  assert (Htot : project_totals (fold_left agg_step_pure (map erase_delta rs) agg_init)
                 = project_totals (fold_left agg_step_pure rs agg_init)).
  { rewrite H5, H5'. now apply fold_accumulate_map. }
  repeat split.
  - exact Hsku.
  - exact Htot.
  - rewrite H1, H1', map_map. reflexivity.
  - rewrite H2, H2', map_map. reflexivity.
  - unfold sku_rows, sorted_sku. now rewrite Hsku.
  - unfold project_rows, sorted_projects. now rewrite Htot.
Qed.

Lemma aggregates_ignore_record_deltas_witness :
  exists st',
    aggregate (QueryRows (map erase_delta two_projects) None) = Ok st' /\
    sku_agg st' = sku_agg state_two_projects /\
    project_totals st' = project_totals state_two_projects /\
    overall_total_yesterday st' = overall_total_yesterday state_two_projects /\
    overall_total_day_before st' = overall_total_day_before state_two_projects /\
    sku_rows st' = sku_rows state_two_projects /\
    project_rows st' = project_rows state_two_projects.
Proof.
  apply (aggregates_ignore_record_deltas two_projects None state_two_projects).
  vm_compute. reflexivity.
Defined.
